(** * PawQL query builder: a shallow embedding of the statement compiler

    The repository holds two revisions of [QueryBuilder]:

    - [src/query/builder.ts], the filtering builder (no joins, identifiers
      rendered as given), embedded below as module [Filtering];
    - the join-aware builder (same class, with [_joins] and [_quote]),
      embedded below as module [Joined].

    Both share [_addWhere] and, up to the way a column name is rendered, the
    rendering of the filter sequence.  The shared part is embedded once. *)

From Stdlib Require Import List String Ascii ZArith Lia Bool Arith.
From Stdlib Require Import Numbers.DecimalString.
Import ListNotations.
Open Scope string_scope.
Local Set Warnings "-register-all".

(** ** JavaScript values *)

(** The values a caller can put in a filter or in a write payload.  A number
    is an integer (the builder never computes with numbers, it only prints
    [_limit], [_offset] and [values.length]); a [Date] is kept as the text
    [String()] gives for it, which is all the builder could observe besides
    [instanceof Date]; the properties of an object are listed in the order
    [Object.entries] and [Object.keys] enumerate them. *)
Inductive JsValue : Type :=
| VUndefined
| VNull
| VBool (b : bool)
| VNum (n : Z)
| VStr (s : string)
| VDate (shown : string)
| VArr (items : list JsValue)
| VObj (props : list (string * JsValue)).

Definition Row : Type := list (string * JsValue).

(** [Number.prototype.toString] on an integer, and on [values.length]. *)
Definition showZ (n : Z) : string := NilZero.string_of_int (Z.to_int n).
Definition showNat (n : nat) : string := NilZero.string_of_uint (Nat.to_uint n).

(** [Array.prototype.join]. *)
Definition join (sep : string) (parts : list string) : string :=
  String.concat sep parts.

(** [String(v)]. *)
Fixpoint jsString (v : JsValue) : string :=
  match v with
  | VUndefined => "undefined"
  | VNull => "null"
  | VBool true => "true"
  | VBool false => "false"
  | VNum n => showZ n
  | VStr s => s
  | VDate shown => shown
  | VArr items =>
      join "," (map (fun x => match x with
                              | VUndefined | VNull => EmptyString
                              | _ => jsString x
                              end) items)
  | VObj _ => "[object Object]"
  end.

(** [obj[key]] on the own properties of an object (no key the builder looks
    up is expected on a prototype). *)
Fixpoint getProp (key : string) (props : Row) : JsValue :=
  match props with
  | [] => VUndefined
  | (k, v) :: rest => if String.eqb k key then v else getProp key rest
  end.

(** [key in obj] on the own properties of an object. *)
Fixpoint hasProp (key : string) (props : Row) : bool :=
  match props with
  | [] => false
  | (k, _) :: rest => String.eqb k key || hasProp key rest
  end.

(** [Object.keys]. *)
Definition keysOf (props : Row) : list string := map fst props.

(** ** Filter clauses *)

Inductive Connective : Type := AND | OR.

Inductive WhereOperator : Type :=
| OpEq | OpNe | OpGt | OpLt | OpGe | OpLe
| OpLike | OpILike | OpIn | OpNotIn | OpIs | OpIsNot.

Definition connectiveText (c : Connective) : string :=
  match c with AND => "AND" | OR => "OR" end.

Definition operatorText (o : WhereOperator) : string :=
  match o with
  | OpEq => "=" | OpNe => "!=" | OpGt => ">" | OpLt => "<"
  | OpGe => ">=" | OpLe => "<="
  | OpLike => "LIKE" | OpILike => "ILIKE"
  | OpIn => "IN" | OpNotIn => "NOT IN"
  | OpIs => "IS" | OpIsNot => "IS NOT"
  end.

(** [WhereClause]; its field [type] is [wtype] here. *)
Record WhereClause : Type := mkClause {
  wtype : Connective;
  column : string;
  operator : WhereOperator;
  value : JsValue
}.

(** [arr.push(x)]. *)
Definition push {A : Type} (arr : list A) (x : A) : list A := (arr ++ [x])%list.

(** [key in ops] and [ops[key]] for the object branch of [_addWhere].  An
    array has none of the nine names: its own keys are indices and [length],
    and no member of [Array.prototype] bears one of these names. *)
Definition opsHas (key : string) (ops : JsValue) : bool :=
  match ops with
  | VObj props => hasProp key props
  | _ => false
  end.

Definition opsGet (key : string) (ops : JsValue) : JsValue :=
  match ops with
  | VObj props => getProp key props
  | _ => VUndefined
  end.

(** [typeof val === "object" && val !== null && !(val instanceof Date)]. *)
Definition isOperatorObject (val : JsValue) : bool :=
  match val with
  | VArr _ | VObj _ => true
  | _ => false
  end.

(** The nine [if (key in ops) this._where.push(...)] statements. *)
Definition pushOperators (type : Connective) (col : string) (ops : JsValue)
    (wh : list WhereClause) : list WhereClause :=
  let wh := if opsHas "in" ops
            then push wh (mkClause type col OpIn (opsGet "in" ops)) else wh in
  let wh := if opsHas "notIn" ops
            then push wh (mkClause type col OpNotIn (opsGet "notIn" ops)) else wh in
  let wh := if opsHas "like" ops
            then push wh (mkClause type col OpLike (opsGet "like" ops)) else wh in
  let wh := if opsHas "ilike" ops
            then push wh (mkClause type col OpILike (opsGet "ilike" ops)) else wh in
  let wh := if opsHas "gt" ops
            then push wh (mkClause type col OpGt (opsGet "gt" ops)) else wh in
  let wh := if opsHas "lt" ops
            then push wh (mkClause type col OpLt (opsGet "lt" ops)) else wh in
  let wh := if opsHas "gte" ops
            then push wh (mkClause type col OpGe (opsGet "gte" ops)) else wh in
  let wh := if opsHas "lte" ops
            then push wh (mkClause type col OpLe (opsGet "lte" ops)) else wh in
  let wh := if opsHas "not" ops
            then push wh (mkClause type col OpNe (opsGet "not" ops)) else wh in
  wh.

(** The body of the [for] loop of [_addWhere], for one entry. *)
Definition addEntry (type : Connective) (wh : list WhereClause)
    (entry : string * JsValue) : list WhereClause :=
  let '(key, val) := entry in
  match val with
  | VNull => push wh (mkClause type key OpIs VNull)
  | _ =>
      if isOperatorObject val then pushOperators type key val wh
      else push wh (mkClause type key OpEq val)
  end.

(** [_addWhere(type, conditions)] acting on [this._where]. *)
Definition _addWhere (type : Connective) (conditions : Row)
    (wh : list WhereClause) : list WhereClause :=
  fold_left (addEntry type) conditions wh.

(** ** Binding values *)

(** [values.push(v)] followed by the template [`$${values.length}`]: the
    idiom every bound value goes through. *)
Definition bindValue (v : JsValue) (values : list JsValue)
    : string * list JsValue :=
  let values := push values v in
  ("$" ++ showNat (List.length values), values).

(** [items.map(v => { values.push(v); return `$${values.length}`; })], and
    the [keys.forEach] of one INSERT row once the cells are read. *)
Fixpoint bindAll (items : list JsValue) (values : list JsValue)
    : list string * list JsValue :=
  match items with
  | [] => ([], values)
  | v :: rest =>
      let '(p, values) := bindValue v values in
      let '(ps, values) := bindAll rest values in
      (p :: ps, values)
  end.

(** The [dataIn.forEach] of INSERT: one parenthesised tuple per row, the
    cells read as [row[key]] for the keys of the first row. *)
Fixpoint bindRows (keys : list string) (dataIn : list Row)
    (values : list JsValue) : list string * list JsValue :=
  match dataIn with
  | [] => ([], values)
  | row :: rest =>
      let '(rowPlaceholders, values) :=
        bindAll (map (fun key => getProp key row) keys) values in
      let '(placeHolders, values) := bindRows keys rest values in
      (("(" ++ join ", " rowPlaceholders ++ ")") :: placeHolders, values)
  end.

(** ** Rendering shared by the two revisions *)

Section Rendering.

(** How an identifier is rendered: as given in [src/query/builder.ts],
    through [this._quote] in the join-aware revision. *)
Variable renderIdent : string -> string.

(** The body of the [this._where.map] callback up to the connective. *)
Definition renderCondition (clause : WhereClause) (values : list JsValue)
    : string * list JsValue :=
  let col := renderIdent (column clause) in
  match operator clause with
  | OpIn | OpNotIn =>
      match value clause with
      | VArr ((_ :: _) as items) =>
          let '(placeholders, values) := bindAll items values in
          (col ++ " " ++ operatorText (operator clause)
               ++ " (" ++ join ", " placeholders ++ ")", values)
      | _ =>
          (match operator clause with OpIn => "1=0" | _ => "1=1" end, values)
      end
  | OpIs | OpIsNot =>
      let val := match value clause with
                 | VNull => "NULL"
                 | v => jsString v
                 end in
      (col ++ " " ++ operatorText (operator clause) ++ " " ++ val, values)
  | _ =>
      let '(p, values) := bindValue (value clause) values in
      (col ++ " " ++ operatorText (operator clause) ++ " " ++ p, values)
  end.

(** [this._where.map((clause, index) => ...)], from [index] on. *)
Fixpoint renderClauses (index : nat) (clauses : list WhereClause)
    (values : list JsValue) : list string * list JsValue :=
  match clauses with
  | [] => ([], values)
  | clause :: rest =>
      let '(condition, values) := renderCondition clause values in
      let text := if Nat.eqb index 0 then condition
                  else connectiveText (wtype clause) ++ " " ++ condition in
      let '(texts, values) := renderClauses (S index) rest values in
      (text :: texts, values)
  end.

(** The [buildWhere] closure. *)
Definition buildWhere (wh : list WhereClause) (values : list JsValue)
    : string * list JsValue :=
  match wh with
  | [] => (EmptyString, values)
  | _ =>
      let '(clauses, values) := renderClauses 0 wh values in
      (" WHERE " ++ join " " clauses, values)
  end.

(** [updateKeys.map(key => { values.push(data[key]); return `${key} = $n` })]. *)
Fixpoint renderSet (data : Row) (updateKeys : list string)
    (values : list JsValue) : list string * list JsValue :=
  match updateKeys with
  | [] => ([], values)
  | key :: rest =>
      let '(p, values) := bindValue (getProp key data) values in
      let '(sets, values) := renderSet data rest values in
      ((renderIdent key ++ " = " ++ p) :: sets, values)
  end.

End Rendering.

(** ** Builder state common to the two revisions *)

Inductive Operation : Type := SELECT | INSERT | UPDATE | DELETE.

(** [_data : Partial<TTable> | Partial<TTable>[] | null]. *)
Inductive Data : Type :=
| DNull
| DOne (row : Row)
| DMany (rows : list Row).

(** The own enumerable properties of an array of records: its indices. *)
Definition arrayProps (rows : list Row) : Row :=
  combine (map showNat (seq 0 (List.length rows))) (map VObj rows).

(** The properties of [_data] seen as an object, as [Object.keys(this._data)]
    and [this._data[key]] see it in the UPDATE case. *)
Definition dataProps (d : Data) : Row :=
  match d with
  | DNull => []
  | DOne row => row
  | DMany rows => arrayProps rows
  end.

(** [Array.isArray(this._data) ? this._data : [this._data]]. *)
Definition asArray (d : Data) : list Row :=
  match d with
  | DNull => []
  | DOne row => [row]
  | DMany rows => rows
  end.

(** What a call of [toSQL] hands back: the returned object, or the message
    of the [Error] it throws. *)
Inductive Outcome : Type :=
| Returned (sql : string) (values : list JsValue)
| Thrown (message : string).

(** ** The filtering builder, [src/query/builder.ts] *)

Module Filtering.

Record QueryBuilder : Type := mkBuilder {
  _table : string;
  _operation : Operation;
  _data : Data;
  _select : list string;
  _where : list WhereClause;
  _limit : option Z;
  _offset : option Z;
  _returning : bool
}.

(** [new QueryBuilder(table, adapter)]; the adapter plays no part in
    compilation. *)
Definition create (table : string) : QueryBuilder :=
  mkBuilder table SELECT DNull [] [] None None false.

Definition insert (data : Data) (b : QueryBuilder) : QueryBuilder :=
  mkBuilder (_table b) INSERT data (_select b) (_where b)
            (_limit b) (_offset b) true.

Definition update (data : Data) (b : QueryBuilder) : QueryBuilder :=
  mkBuilder (_table b) UPDATE data (_select b) (_where b)
            (_limit b) (_offset b) true.

Definition delete (b : QueryBuilder) : QueryBuilder :=
  mkBuilder (_table b) DELETE (_data b) (_select b) (_where b)
            (_limit b) (_offset b) true.

Definition select (columns : list string) (b : QueryBuilder) : QueryBuilder :=
  mkBuilder (_table b) (_operation b) (_data b) columns (_where b)
            (_limit b) (_offset b) (_returning b).

Definition setWhere (wh : list WhereClause) (b : QueryBuilder) : QueryBuilder :=
  mkBuilder (_table b) (_operation b) (_data b) (_select b) wh
            (_limit b) (_offset b) (_returning b).

(** [where(conditions)]; [where] is a reserved word here. *)
Definition where_ (conditions : Row) (b : QueryBuilder) : QueryBuilder :=
  setWhere (_addWhere AND conditions (_where b)) b.

Definition orWhere (conditions : Row) (b : QueryBuilder) : QueryBuilder :=
  setWhere (_addWhere OR conditions (_where b)) b.

Definition limit (n : Z) (b : QueryBuilder) : QueryBuilder :=
  mkBuilder (_table b) (_operation b) (_data b) (_select b) (_where b)
            (Some n) (_offset b) (_returning b).

Definition offset (n : Z) (b : QueryBuilder) : QueryBuilder :=
  mkBuilder (_table b) (_operation b) (_data b) (_select b) (_where b)
            (_limit b) (Some n) (_returning b).

(** The [LIMIT] and [OFFSET] suffixes of the SELECT case. *)
Definition paginate (b : QueryBuilder) (sql : string) : string :=
  let sql := match _limit b with
             | Some n => sql ++ " LIMIT " ++ showZ n
             | None => sql
             end in
  match _offset b with
  | Some n => sql ++ " OFFSET " ++ showZ n
  | None => sql
  end.

Definition toSQL (b : QueryBuilder) : Outcome :=
  let columns := match _select b with
                 | [] => "*"
                 | _ => join ", " (_select b)
                 end in
  let values : list JsValue := [] in
  match _operation b with
  | SELECT =>
      let sql := "SELECT " ++ columns ++ " FROM " ++ _table b in
      let '(w, values) := buildWhere (fun c => c) (_where b) values in
      let sql := sql ++ w in
      Returned (paginate b sql) values
  | INSERT =>
      match _data b with
      | DNull => Thrown "No data provided for INSERT"
      | data =>
          let dataIn := asArray data in
          match dataIn with
          | [] => Thrown "Empty data array for INSERT"
          | firstRow :: _ =>
              let keys := keysOf firstRow in
              match keys with
              | [] => Thrown "No columns to insert"
              | _ =>
                  let '(placeHolders, values) := bindRows keys dataIn values in
                  let sql := "INSERT INTO " ++ _table b
                             ++ " (" ++ join ", " keys ++ ") VALUES "
                             ++ join ", " placeHolders in
                  let sql := if _returning b
                             then sql ++ " RETURNING " ++ columns else sql in
                  Returned sql values
              end
          end
      end
  | UPDATE =>
      match _data b with
      | DNull => Thrown "No data provided for UPDATE"
      | data =>
          let updateKeys := keysOf (dataProps data) in
          match updateKeys with
          | [] => Thrown "No columns to update"
          | _ =>
              let '(setClauses, values) :=
                renderSet (fun c => c) (dataProps data) updateKeys values in
              let sql := "UPDATE " ++ _table b
                         ++ " SET " ++ join ", " setClauses in
              let '(w, values) := buildWhere (fun c => c) (_where b) values in
              let sql := sql ++ w in
              let sql := if _returning b
                         then sql ++ " RETURNING " ++ columns else sql in
              Returned sql values
          end
      end
  | DELETE =>
      let sql := "DELETE FROM " ++ _table b in
      let '(w, values) := buildWhere (fun c => c) (_where b) values in
      let sql := sql ++ w in
      let sql := if _returning b
                 then sql ++ " RETURNING " ++ columns else sql in
      Returned sql values
  end.

End Filtering.

(** ** The join-aware builder *)

(** The double quote character. *)
Definition dquote : string := String "034" EmptyString.

(** [s.includes(c)] for a one-character needle. *)
Fixpoint includes (c : ascii) (s : string) : bool :=
  match s with
  | EmptyString => false
  | String a rest => Ascii.eqb a c || includes c rest
  end.

(** [s.startsWith(c)] for a one-character prefix. *)
Definition startsWith (c : ascii) (s : string) : bool :=
  match s with
  | EmptyString => false
  | String a _ => Ascii.eqb a c
  end.

(** [s.split(c)] for a one-character separator. *)
Fixpoint split (c : ascii) (s : string) : list string :=
  match s with
  | EmptyString => [EmptyString]
  | String a rest =>
      if Ascii.eqb a c then EmptyString :: split c rest
      else match split c rest with
           | [] => [String a EmptyString]
           | part :: parts => String a part :: parts
           end
  end.

Inductive JoinType : Type := INNER | LEFT | RIGHT | FULL.

Definition joinTypeText (t : JoinType) : string :=
  match t with
  | INNER => "INNER" | LEFT => "LEFT" | RIGHT => "RIGHT" | FULL => "FULL"
  end.

(** [JoinClause], with [on] flattened; its fields [type] and [table] are
    [jtype] and [jtable] here. *)
Record JoinClause : Type := mkJoin {
  jtype : JoinType;
  jtable : string;
  col1 : string;
  op : string;
  col2 : string
}.

Module Joined.

Record QueryBuilder : Type := mkBuilder {
  _table : string;
  _operation : Operation;
  _data : Data;
  _select : list string;
  _where : list WhereClause;
  _joins : list JoinClause;
  _limit : option Z;
  _offset : option Z;
  _returning : bool
}.

Definition create (table : string) : QueryBuilder :=
  mkBuilder table SELECT DNull [] [] [] None None false.

Definition insert (data : Data) (b : QueryBuilder) : QueryBuilder :=
  mkBuilder (_table b) INSERT data (_select b) (_where b) (_joins b)
            (_limit b) (_offset b) true.

Definition update (data : Data) (b : QueryBuilder) : QueryBuilder :=
  mkBuilder (_table b) UPDATE data (_select b) (_where b) (_joins b)
            (_limit b) (_offset b) true.

Definition delete (b : QueryBuilder) : QueryBuilder :=
  mkBuilder (_table b) DELETE (_data b) (_select b) (_where b) (_joins b)
            (_limit b) (_offset b) true.

Definition addJoin (j : JoinClause) (b : QueryBuilder) : QueryBuilder :=
  mkBuilder (_table b) (_operation b) (_data b) (_select b) (_where b)
            (push (_joins b) j) (_limit b) (_offset b) (_returning b).

Definition innerJoin (table c1 operator c2 : string) :=
  addJoin (mkJoin INNER table c1 operator c2).
Definition leftJoin (table c1 operator c2 : string) :=
  addJoin (mkJoin LEFT table c1 operator c2).
Definition rightJoin (table c1 operator c2 : string) :=
  addJoin (mkJoin RIGHT table c1 operator c2).
Definition fullJoin (table c1 operator c2 : string) :=
  addJoin (mkJoin FULL table c1 operator c2).

Definition select (columns : list string) (b : QueryBuilder) : QueryBuilder :=
  mkBuilder (_table b) (_operation b) (_data b) columns (_where b) (_joins b)
            (_limit b) (_offset b) (_returning b).

Definition setWhere (wh : list WhereClause) (b : QueryBuilder) : QueryBuilder :=
  mkBuilder (_table b) (_operation b) (_data b) (_select b) wh (_joins b)
            (_limit b) (_offset b) (_returning b).

(** [where(conditions)]; [where] is a reserved word here. *)
Definition where_ (conditions : Row) (b : QueryBuilder) : QueryBuilder :=
  setWhere (_addWhere AND conditions (_where b)) b.

Definition orWhere (conditions : Row) (b : QueryBuilder) : QueryBuilder :=
  setWhere (_addWhere OR conditions (_where b)) b.

Definition limit (n : Z) (b : QueryBuilder) : QueryBuilder :=
  mkBuilder (_table b) (_operation b) (_data b) (_select b) (_where b)
            (_joins b) (Some n) (_offset b) (_returning b).

Definition offset (n : Z) (b : QueryBuilder) : QueryBuilder :=
  mkBuilder (_table b) (_operation b) (_data b) (_select b) (_where b)
            (_joins b) (_limit b) (Some n) (_returning b).

(** [_quote(identifier)]. *)
Definition _quote (identifier : string) : string :=
  if String.eqb identifier "*" then identifier
  else if includes "(" identifier || includes " " identifier
          || startsWith "034" identifier
  then identifier
  else if includes "." identifier
  then join "." (map (fun part => dquote ++ part ++ dquote)
                     (split "." identifier))
  else dquote ++ identifier ++ dquote.

(** The callback of [this._joins.map] in [buildJoins]. *)
Definition renderJoin (j : JoinClause) : string :=
  joinTypeText (jtype j) ++ " JOIN " ++ _quote (jtable j)
    ++ " ON " ++ _quote (col1 j) ++ " " ++ op j ++ " " ++ _quote (col2 j).

(** The [buildJoins] closure. *)
Definition buildJoins (joins : list JoinClause) : string :=
  match joins with
  | [] => EmptyString
  | _ => " " ++ join " " (map renderJoin joins)
  end.

Definition paginate (b : QueryBuilder) (sql : string) : string :=
  let sql := match _limit b with
             | Some n => sql ++ " LIMIT " ++ showZ n
             | None => sql
             end in
  match _offset b with
  | Some n => sql ++ " OFFSET " ++ showZ n
  | None => sql
  end.

Definition toSQL (b : QueryBuilder) : Outcome :=
  let columns := match _select b with
                 | [] => "*"
                 | _ => join ", " (map _quote (_select b))
                 end in
  let tableUser := _quote (_table b) in
  let values : list JsValue := [] in
  match _operation b with
  | SELECT =>
      let sql := "SELECT " ++ columns ++ " FROM " ++ tableUser in
      let sql := sql ++ buildJoins (_joins b) in
      let '(w, values) := buildWhere _quote (_where b) values in
      let sql := sql ++ w in
      Returned (paginate b sql) values
  | INSERT =>
      match _joins b with
      | _ :: _ => Thrown "INSERT does not support JOINS"
      | [] =>
      match _data b with
      | DNull => Thrown "No data provided for INSERT"
      | data =>
          let dataIn := asArray data in
          match dataIn with
          | [] => Thrown "Empty data array for INSERT"
          | firstRow :: _ =>
              let keys := keysOf firstRow in
              match keys with
              | [] => Thrown "No columns to insert"
              | _ =>
                  let quotedKeys := map _quote keys in
                  let '(placeHolders, values) := bindRows keys dataIn values in
                  let sql := "INSERT INTO " ++ tableUser
                             ++ " (" ++ join ", " quotedKeys ++ ") VALUES "
                             ++ join ", " placeHolders in
                  let sql := if _returning b
                             then sql ++ " RETURNING *" else sql in
                  Returned sql values
              end
          end
      end
      end
  | UPDATE =>
      match _joins b with
      | _ :: _ =>
          Thrown "UPDATE does not support JOINS directly (use subqueries or raw SQL)"
      | [] =>
      match _data b with
      | DNull => Thrown "No data provided for UPDATE"
      | data =>
          let updateKeys := keysOf (dataProps data) in
          match updateKeys with
          | [] => Thrown "No columns to update"
          | _ =>
              let '(setClauses, values) :=
                renderSet _quote (dataProps data) updateKeys values in
              let sql := "UPDATE " ++ tableUser
                         ++ " SET " ++ join ", " setClauses in
              let '(w, values) := buildWhere _quote (_where b) values in
              let sql := sql ++ w in
              let sql := if _returning b
                         then sql ++ " RETURNING *" else sql in
              Returned sql values
          end
      end
      end
  | DELETE =>
      match _joins b with
      | _ :: _ => Thrown "DELETE does not support JOINS directly"
      | [] =>
          let sql := "DELETE FROM " ++ tableUser in
          let '(w, values) := buildWhere _quote (_where b) values in
          let sql := sql ++ w in
          let sql := if _returning b
                     then sql ++ " RETURNING *" else sql in
          Returned sql values
      end
  end.

End Joined.

(** ** The compiled text with its placeholders kept apart

    The same traversals as above, but the text is kept as a sequence of
    fragments: literal text, or the placeholder written when a value was
    bound, together with that value.  Erasing the fragments to text gives
    back what [toSQL] returns (proved below), so the placeholders of the
    compiled text can be told from a [$] that merely occurs in an identifier
    or in a stringified value. *)

Inductive Frag : Type :=
| Lit (text : string)
| Param (index : nat) (bound : JsValue).

Definition renderFrag (f : Frag) : string :=
  match f with
  | Lit text => text
  | Param index _ => "$" ++ showNat index
  end.

Fixpoint renderFrags (fs : list Frag) : string :=
  match fs with
  | [] => EmptyString
  | f :: rest => renderFrag f ++ renderFrags rest
  end.

(** The placeholders of a fragment sequence, in text order, each with the
    value bound when it was written. *)
Fixpoint placeholders (fs : list Frag) : list (nat * JsValue) :=
  match fs with
  | [] => []
  | Lit _ :: rest => placeholders rest
  | Param index bound :: rest => (index, bound) :: placeholders rest
  end.

Fixpoint joinFrags (sep : string) (parts : list (list Frag)) : list Frag :=
  match parts with
  | [] => []
  | [part] => part
  | part :: rest => (part ++ Lit sep :: joinFrags sep rest)%list
  end.

Definition traceValue (v : JsValue) (values : list JsValue)
    : list Frag * list JsValue :=
  let values := push values v in
  ([Param (List.length values) v], values).

Fixpoint traceAll (items : list JsValue) (values : list JsValue)
    : list (list Frag) * list JsValue :=
  match items with
  | [] => ([], values)
  | v :: rest =>
      let '(p, values) := traceValue v values in
      let '(ps, values) := traceAll rest values in
      (p :: ps, values)
  end.

Fixpoint traceRows (keys : list string) (dataIn : list Row)
    (values : list JsValue) : list (list Frag) * list JsValue :=
  match dataIn with
  | [] => ([], values)
  | row :: rest =>
      let '(rowPlaceholders, values) :=
        traceAll (map (fun key => getProp key row) keys) values in
      let '(placeHolders, values) := traceRows keys rest values in
      ((Lit "(" :: joinFrags ", " rowPlaceholders ++ [Lit ")"])%list
         :: placeHolders, values)
  end.

Section Tracing.

Variable renderIdent : string -> string.

Definition traceCondition (clause : WhereClause) (values : list JsValue)
    : list Frag * list JsValue :=
  let col := renderIdent (column clause) in
  match operator clause with
  | OpIn | OpNotIn =>
      match value clause with
      | VArr ((_ :: _) as items) =>
          let '(ps, values) := traceAll items values in
          ((Lit (col ++ " " ++ operatorText (operator clause) ++ " (")
              :: joinFrags ", " ps ++ [Lit ")"])%list, values)
      | _ =>
          ([Lit (match operator clause with OpIn => "1=0" | _ => "1=1" end)],
           values)
      end
  | OpIs | OpIsNot =>
      let val := match value clause with
                 | VNull => "NULL"
                 | v => jsString v
                 end in
      ([Lit (col ++ " " ++ operatorText (operator clause) ++ " " ++ val)],
       values)
  | _ =>
      let '(p, values) := traceValue (value clause) values in
      (Lit (col ++ " " ++ operatorText (operator clause) ++ " ") :: p, values)
  end.

Fixpoint traceClauses (index : nat) (clauses : list WhereClause)
    (values : list JsValue) : list (list Frag) * list JsValue :=
  match clauses with
  | [] => ([], values)
  | clause :: rest =>
      let '(condition, values) := traceCondition clause values in
      let text := if Nat.eqb index 0 then condition
                  else Lit (connectiveText (wtype clause) ++ " ") :: condition in
      let '(texts, values) := traceClauses (S index) rest values in
      (text :: texts, values)
  end.

Definition traceWhere (wh : list WhereClause) (values : list JsValue)
    : list Frag * list JsValue :=
  match wh with
  | [] => ([], values)
  | _ =>
      let '(clauses, values) := traceClauses 0 wh values in
      (Lit " WHERE " :: joinFrags " " clauses, values)
  end.

Fixpoint traceSet (data : Row) (updateKeys : list string)
    (values : list JsValue) : list (list Frag) * list JsValue :=
  match updateKeys with
  | [] => ([], values)
  | key :: rest =>
      let '(p, values) := traceValue (getProp key data) values in
      let '(sets, values) := traceSet data rest values in
      ((Lit (renderIdent key ++ " = ") :: p) :: sets, values)
  end.

End Tracing.

(** The fragments of a whole statement, for the builders on which [toSQL]
    returns. *)
Definition traceFiltering (b : Filtering.QueryBuilder) : list Frag :=
  let columns := match Filtering._select b with
                 | [] => "*"
                 | _ => join ", " (Filtering._select b)
                 end in
  let table := Filtering._table b in
  let returning := if Filtering._returning b
                   then [Lit (" RETURNING " ++ columns)] else [] in
  match Filtering._operation b with
  | SELECT =>
      (Lit ("SELECT " ++ columns ++ " FROM " ++ table)
         :: fst (traceWhere (fun c => c) (Filtering._where b) [])
         ++ [Lit (Filtering.paginate b EmptyString)])%list
  | INSERT =>
      match asArray (Filtering._data b) with
      | [] => []
      | firstRow :: _ =>
          match keysOf firstRow with
          | [] => []
          | keys =>
              (Lit ("INSERT INTO " ++ table ++ " (" ++ join ", " keys
                      ++ ") VALUES ")
                 :: joinFrags ", "
                      (fst (traceRows keys (asArray (Filtering._data b)) []))
                 ++ returning)%list
          end
      end
  | UPDATE =>
      match keysOf (dataProps (Filtering._data b)) with
      | [] => []
      | updateKeys =>
          let '(sets, values) :=
            traceSet (fun c => c) (dataProps (Filtering._data b)) updateKeys [] in
          (Lit ("UPDATE " ++ table ++ " SET ")
             :: joinFrags ", " sets
             ++ fst (traceWhere (fun c => c) (Filtering._where b) values)
             ++ returning)%list
      end
  | DELETE =>
      (Lit ("DELETE FROM " ++ table)
         :: fst (traceWhere (fun c => c) (Filtering._where b) [])
         ++ returning)%list
  end.

Definition traceJoined (b : Joined.QueryBuilder) : list Frag :=
  let columns := match Joined._select b with
                 | [] => "*"
                 | _ => join ", " (map Joined._quote (Joined._select b))
                 end in
  let tableUser := Joined._quote (Joined._table b) in
  let returning := if Joined._returning b then [Lit " RETURNING *"] else [] in
  match Joined._operation b with
  | SELECT =>
      (Lit ("SELECT " ++ columns ++ " FROM " ++ tableUser
              ++ Joined.buildJoins (Joined._joins b))
         :: fst (traceWhere Joined._quote (Joined._where b) [])
         ++ [Lit (Joined.paginate b EmptyString)])%list
  | INSERT =>
      match asArray (Joined._data b) with
      | [] => []
      | firstRow :: _ =>
          match keysOf firstRow with
          | [] => []
          | keys =>
              (Lit ("INSERT INTO " ++ tableUser ++ " ("
                      ++ join ", " (map Joined._quote keys) ++ ") VALUES ")
                 :: joinFrags ", "
                      (fst (traceRows keys (asArray (Joined._data b)) []))
                 ++ returning)%list
          end
      end
  | UPDATE =>
      match keysOf (dataProps (Joined._data b)) with
      | [] => []
      | updateKeys =>
          let '(sets, values) :=
            traceSet Joined._quote (dataProps (Joined._data b)) updateKeys [] in
          (Lit ("UPDATE " ++ tableUser ++ " SET ")
             :: joinFrags ", " sets
             ++ fst (traceWhere Joined._quote (Joined._where b) values)
             ++ returning)%list
      end
  | DELETE =>
      (Lit ("DELETE FROM " ++ tableUser)
         :: fst (traceWhere Joined._quote (Joined._where b) [])
         ++ returning)%list
  end.

(** ** Vocabulary of the statements below *)

(** [fs] is what a traversal wrote while it took the parameter list from
    [values] to [values']: the values it appended, each under the placeholder
    bearing its 1-based position in the whole list. *)
Definition bindsFrom (values : list JsValue) (fs : list Frag)
    (values' : list JsValue) : Prop :=
  exists added,
    values' = (values ++ added)%list /\
    placeholders fs
      = combine (seq (S (List.length values)) (List.length added)) added.

(** The same for a sequence of parts written one after the other. *)
Inductive bindsEach : list JsValue -> list (list Frag) -> list JsValue -> Prop :=
| bindsEach_nil : forall values, bindsEach values [] values
| bindsEach_cons : forall values0 values1 values2 part parts,
    bindsFrom values0 part values1 ->
    bindsEach values1 parts values2 ->
    bindsEach values0 (part :: parts) values2.

(** The placeholder texts [$first], ..., [$(first + count - 1)]. *)
Definition dollars (first count : nat) : list string :=
  map (fun k => "$" ++ showNat k) (seq first count).

(** The recognized operator keys in the order they are checked, with the
    operator each one stands for. *)
Definition operatorKeys : list (string * WhereOperator) :=
  [ ("in", OpIn); ("notIn", OpNotIn); ("like", OpLike); ("ilike", OpILike);
    ("gt", OpGt); ("lt", OpLt); ("gte", OpGe); ("lte", OpLe); ("not", OpNe) ].

(** One clause per recognized key present, in the key-check order. *)
Definition expandOperators (type : Connective) (col : string) (props : Row)
    : list WhereClause :=
  flat_map (fun ko : string * WhereOperator =>
              if hasProp (fst ko) props
              then [mkClause type col (snd ko) (getProp (fst ko) props)]
              else [])
           operatorKeys.

(** The expansion of one entry in the words of the specification: [null]
    gives [IS null], a plain keyed-operator object gives one clause per
    recognized key, anything else gives an equality. *)
Definition statedEntry (type : Connective) (entry : string * JsValue)
    : list WhereClause :=
  match snd entry with
  | VNull => [mkClause type (fst entry) OpIs VNull]
  | VObj props => expandOperators type (fst entry) props
  | val => [mkClause type (fst entry) OpEq val]
  end.

(** The expansion of one entry as [_addWhere] performs it: every non-null
    object other than a [Date] takes the operator branch, an array too, and
    an array has none of the recognized keys. *)
Definition expandedEntry (type : Connective) (entry : string * JsValue)
    : list WhereClause :=
  match snd entry with
  | VNull => [mkClause type (fst entry) OpIs VNull]
  | VObj props => expandOperators type (fst entry) props
  | VArr _ => []
  | val => [mkClause type (fst entry) OpEq val]
  end.

(** A value that has none of the nine recognized keys. *)
Definition noOperatorKey (val : JsValue) : Prop :=
  forall key, In key (map fst operatorKeys) -> opsHas key val = false.

(** A flat boolean chain: the first condition bare, every later one after a
    space, its own connective and a space; nothing else. *)
Fixpoint chainRest (cs : list (Connective * string)) : string :=
  match cs with
  | [] => EmptyString
  | (type, condition) :: rest =>
      " " ++ connectiveText type ++ " " ++ condition ++ chainRest rest
  end.

Definition chain (cs : list (Connective * string)) : string :=
  match cs with
  | [] => EmptyString
  | (_, condition) :: rest => condition ++ chainRest rest
  end.

(** The conditions of a filter sequence in order, each rendered with the
    parameter list its predecessors left. *)
Fixpoint conditionsOf (renderIdent : string -> string)
    (clauses : list WhereClause) (values : list JsValue) : list string :=
  match clauses with
  | [] => []
  | clause :: rest =>
      let '(condition, values) := renderCondition renderIdent clause values in
      condition :: conditionsOf renderIdent rest values
  end.

Definition setType (type : Connective) (clause : WhereClause) : WhereClause :=
  mkClause type (column clause) (operator clause) (value clause).

(** The rows of an INSERT payload laid out cell by cell: column order within
    record order. *)
Definition cellsOf (keys : list string) (rows : list Row) : list JsValue :=
  flat_map (fun row => map (fun key => getProp key row) keys) rows.

(** The value tuples of an INSERT with [width] columns: tuple [i] holds the
    placeholders [$(i * width + 1)] to [$(i * width + width)]. *)
Definition tuples (width count : nat) : list string :=
  map (fun i => "(" ++ join ", " (dollars (S (i * width)) width) ++ ")")
      (seq 0 count).

(** The conditions under which [toSQL] throws. *)
Definition filteringFault (b : Filtering.QueryBuilder) : Prop :=
  (Filtering._operation b = INSERT /\
     (Filtering._data b = DNull \/
      Filtering._data b = DMany [] \/
      exists firstRow rest,
        asArray (Filtering._data b) = firstRow :: rest /\ keysOf firstRow = []))
  \/
  (Filtering._operation b = UPDATE /\
     (Filtering._data b = DNull \/ keysOf (dataProps (Filtering._data b)) = [])).

Definition joinedFault (b : Joined.QueryBuilder) : Prop :=
  (Joined._operation b = INSERT /\
     (Joined._data b = DNull \/
      Joined._data b = DMany [] \/
      exists firstRow rest,
        asArray (Joined._data b) = firstRow :: rest /\ keysOf firstRow = []))
  \/
  (Joined._operation b = UPDATE /\
     (Joined._data b = DNull \/ keysOf (dataProps (Joined._data b)) = []))
  \/
  (Joined._operation b <> SELECT /\ Joined._joins b <> []).

(** [trace] accounts for the outcome [o]: it erases to the returned text and
    its placeholders are those of the returned parameter list. *)
Definition tracedBy (trace : list Frag) (o : Outcome) : Prop :=
  match o with
  | Returned sql values =>
      renderFrags trace = sql /\ bindsFrom [] trace values
  | Thrown _ => True
  end.

(** ** Method calls on a builder

    A call acts on the builder and may hand something back; [toSQL] is the
    only one that hands back an outcome. *)

Inductive FCall : Type :=
| FInsert (data : Data)
| FUpdate (data : Data)
| FDelete
| FSelect (columns : list string)
| FWhere (conditions : Row)
| FOrWhere (conditions : Row)
| FLimit (n : Z)
| FOffset (n : Z)
| FToSQL.

Definition callFiltering (c : FCall) (b : Filtering.QueryBuilder)
    : Filtering.QueryBuilder * option Outcome :=
  match c with
  | FInsert data => (Filtering.insert data b, None)
  | FUpdate data => (Filtering.update data b, None)
  | FDelete => (Filtering.delete b, None)
  | FSelect columns => (Filtering.select columns b, None)
  | FWhere conditions => (Filtering.where_ conditions b, None)
  | FOrWhere conditions => (Filtering.orWhere conditions b, None)
  | FLimit n => (Filtering.limit n b, None)
  | FOffset n => (Filtering.offset n b, None)
  | FToSQL => (b, Some (Filtering.toSQL b))
  end.

Inductive JCall : Type :=
| JInsert (data : Data)
| JUpdate (data : Data)
| JDelete
| JJoin (j : JoinClause)
| JSelect (columns : list string)
| JWhere (conditions : Row)
| JOrWhere (conditions : Row)
| JLimit (n : Z)
| JOffset (n : Z)
| JToSQL.

Definition callJoined (c : JCall) (b : Joined.QueryBuilder)
    : Joined.QueryBuilder * option Outcome :=
  match c with
  | JInsert data => (Joined.insert data b, None)
  | JUpdate data => (Joined.update data b, None)
  | JDelete => (Joined.delete b, None)
  | JJoin j => (Joined.addJoin j b, None)
  | JSelect columns => (Joined.select columns b, None)
  | JWhere conditions => (Joined.where_ conditions b, None)
  | JOrWhere conditions => (Joined.orWhere conditions b, None)
  | JLimit n => (Joined.limit n b, None)
  | JOffset n => (Joined.offset n b, None)
  | JToSQL => (b, Some (Joined.toSQL b))
  end.

(** A sequence of calls on one builder: the builder it leaves and what the
    calls handed back, in order. *)
Fixpoint runCalls {B C : Type} (call : C -> B -> B * option Outcome)
    (cs : list C) (b : B) : B * list Outcome :=
  match cs with
  | [] => (b, [])
  | c :: rest =>
      let '(b, out) := call c b in
      let '(b, outs) := runCalls call rest b in
      (b, match out with Some o => o :: outs | None => outs end)
  end.

(** A clause rendered without its column: IN or NOT IN over anything but a
    non-empty array. *)
Definition isTautology (clause : WhereClause) : bool :=
  match operator clause, value clause with
  | (OpIn | OpNotIn), VArr (_ :: _) => false
  | (OpIn | OpNotIn), _ => true
  | _, _ => false
  end.

(** An identifier between double quotes. *)
Definition quoted (part : string) : string := dquote ++ part ++ dquote.

(** The number of occurrences of a character in a text. *)
Fixpoint countChar (c : ascii) (s : string) : nat :=
  match s with
  | EmptyString => 0
  | String a rest => (if Ascii.eqb a c then 1 else 0) + countChar c rest
  end.

(** A fragment whose literal text holds no dollar sign. *)
Definition dollarFree (f : Frag) : bool :=
  match f with
  | Lit text => negb (includes "$" text)
  | Param _ _ => true
  end.

(** ** Sample builders *)

(** [update({name: 'x'}).where({id: {in: [1, 2]}}).orWhere({'$9': {gt: 7}})]
    on table [users]: a bound SET value, an IN list and a comparison on a
    column whose name itself contains a dollar sign. *)
Definition sampleUpdate : Joined.QueryBuilder :=
  Joined.orWhere [("$9", VObj [("gt", VNum 7)])]
    (Joined.where_ [("id", VObj [("in", VArr [VNum 1; VNum 2])])]
       (Joined.update (DOne [("name", VStr "x")]) (Joined.create "users"))).

(** [insert([{a: 1, b: 2}, {a: 3, b: 4}])] on table [t]. *)
Definition sampleRows : list Row :=
  [ [("a", VNum 1); ("b", VNum 2)]; [("a", VNum 3); ("b", VNum 4)] ].

Definition sampleInsert : Joined.QueryBuilder :=
  Joined.insert (DMany sampleRows) (Joined.create "t").

(** [select('id').insert({a: 1})] on table [t], in the filtering builder. *)
Definition sampleProjectedInsert : Filtering.QueryBuilder :=
  Filtering.insert (DOne [("a", VNum 1)])
    (Filtering.select ["id"] (Filtering.create "t")).

(** ** What a statement binds and what its text depends on *)

(** The values one clause binds, in the order it binds them. *)
Definition clauseValues (clause : WhereClause) : list JsValue :=
  match operator clause with
  | OpIn | OpNotIn =>
      match value clause with
      | VArr ((_ :: _) as items) => items
      | _ => []
      end
  | OpIs | OpIsNot => []
  | _ => [value clause]
  end.

Definition filterValues (wh : list WhereClause) : list JsValue :=
  flat_map clauseValues wh.

(** A clause with every value it would bind blanked out: an IN array keeps
    its length, an IS value (written into the text) is kept. *)
Definition blankClause (clause : WhereClause) : WhereClause :=
  mkClause (wtype clause) (column clause) (operator clause)
    (match operator clause with
     | OpIn | OpNotIn =>
         match value clause with
         | VArr items => VArr (map (fun _ => VUndefined) items)
         | _ => VUndefined
         end
     | OpIs | OpIsNot => value clause
     | _ => VUndefined
     end).

(** A record with its keys kept and its cells blanked out. *)
Definition blankRow (row : Row) : Row :=
  map (fun kv => (fst kv, VUndefined)) row.

Definition blankData (d : Data) : Data :=
  match d with
  | DNull => DNull
  | DOne row => DOne (blankRow row)
  | DMany rows => DMany (map blankRow rows)
  end.

Definition blankFiltering (b : Filtering.QueryBuilder) : Filtering.QueryBuilder :=
  Filtering.mkBuilder (Filtering._table b) (Filtering._operation b)
    (blankData (Filtering._data b)) (Filtering._select b)
    (map blankClause (Filtering._where b))
    (Filtering._limit b) (Filtering._offset b) (Filtering._returning b).

Definition blankJoined (b : Joined.QueryBuilder) : Joined.QueryBuilder :=
  Joined.mkBuilder (Joined._table b) (Joined._operation b)
    (blankData (Joined._data b)) (Joined._select b)
    (map blankClause (Joined._where b)) (Joined._joins b)
    (Joined._limit b) (Joined._offset b) (Joined._returning b).

(** An outcome without its parameter list: the returned text, or the thrown
    message. *)
Definition textOf (o : Outcome) : string + string :=
  match o with
  | Returned sql _ => inl sql
  | Thrown message => inr message
  end.

(** The parameter list of an outcome, if it has one. *)
Definition valuesOf (o : Outcome) : option (list JsValue) :=
  match o with
  | Returned _ values => Some values
  | Thrown _ => None
  end.

(** The parameter list of a statement, from its operation, payload and
    filters alone. *)
Definition statementValues (o : Operation) (d : Data) (wh : list WhereClause)
    : list JsValue :=
  match o with
  | SELECT | DELETE => filterValues wh
  | UPDATE =>
      (map (fun key => getProp key (dataProps d)) (keysOf (dataProps d))
         ++ filterValues wh)%list
  | INSERT =>
      match asArray d with
      | [] => []
      | firstRow :: _ => cellsOf (keysOf firstRow) (asArray d)
      end
  end.

(** ** Calls that leave a statement as it is *)

(** The calls that add filters, set the projection or paginate. *)
Definition shapesSelectJoined (c : JCall) : bool :=
  match c with
  | JSelect _ | JWhere _ | JOrWhere _ | JLimit _ | JOffset _ => true
  | _ => false
  end.

(** The calls that set the projection or paginate. *)
Definition pagesOrProjectsJoined (c : JCall) : bool :=
  match c with
  | JSelect _ | JLimit _ | JOffset _ => true
  | _ => false
  end.

(** The calls that add filters or paginate. *)
Definition filtersOrPagesFiltering (c : FCall) : bool :=
  match c with
  | FWhere _ | FOrWhere _ | FLimit _ | FOffset _ => true
  | _ => false
  end.

(** The calls that paginate. *)
Definition pagesFiltering (c : FCall) : bool :=
  match c with
  | FLimit _ | FOffset _ => true
  | _ => false
  end.

(** ** Pagination and joins taken apart *)

Definition unpagedFiltering (b : Filtering.QueryBuilder) : Filtering.QueryBuilder :=
  Filtering.mkBuilder (Filtering._table b) (Filtering._operation b)
    (Filtering._data b) (Filtering._select b) (Filtering._where b)
    None None (Filtering._returning b).

Definition unpagedJoined (b : Joined.QueryBuilder) : Joined.QueryBuilder :=
  Joined.mkBuilder (Joined._table b) (Joined._operation b) (Joined._data b)
    (Joined._select b) (Joined._where b) (Joined._joins b)
    None None (Joined._returning b).

Definition limitText (l : option Z) : string :=
  match l with
  | Some n => " LIMIT " ++ showZ n
  | None => EmptyString
  end.

Definition offsetText (o : option Z) : string :=
  match o with
  | Some n => " OFFSET " ++ showZ n
  | None => EmptyString
  end.

Definition withJoins (joins : list JoinClause) (b : Joined.QueryBuilder)
    : Joined.QueryBuilder :=
  Joined.mkBuilder (Joined._table b) (Joined._operation b) (Joined._data b)
    (Joined._select b) (Joined._where b) joins
    (Joined._limit b) (Joined._offset b) (Joined._returning b).

(** One [ <KIND> JOIN ... ON ...] per join, in the order of the list. *)
Fixpoint joinsText (joins : list JoinClause) : string :=
  match joins with
  | [] => EmptyString
  | j :: rest => " " ++ Joined.renderJoin j ++ joinsText rest
  end.

(** ** Identifiers and payloads compared *)

(** A text without the occurrences of one character. *)
Fixpoint without (c : ascii) (s : string) : string :=
  match s with
  | EmptyString => EmptyString
  | String a rest =>
      if Ascii.eqb a c then without c rest else String a (without c rest)
  end.

Definition withDataJoined (d : Data) (b : Joined.QueryBuilder)
    : Joined.QueryBuilder :=
  Joined.mkBuilder (Joined._table b) (Joined._operation b) d
    (Joined._select b) (Joined._where b) (Joined._joins b)
    (Joined._limit b) (Joined._offset b) (Joined._returning b).

Definition withDataFiltering (d : Data) (b : Filtering.QueryBuilder)
    : Filtering.QueryBuilder :=
  Filtering.mkBuilder (Filtering._table b) (Filtering._operation b) d
    (Filtering._select b) (Filtering._where b)
    (Filtering._limit b) (Filtering._offset b) (Filtering._returning b).

(** Two records hold the same cells under the given keys. *)
Definition agreeOn (keys : list string) (row row' : Row) : Prop :=
  forall key, In key keys -> getProp key row = getProp key row'.

(** ** Adapters *)

(** [QueryResult] of [core/adapter.ts]. *)
Record QueryResult : Type := mkResult {
  rows : list Row;
  rowCount : Z
}.

(** What awaiting a promise gives: the value it is fulfilled with, or the
    message of the error it is rejected with (an exception thrown in an
    [async] function rejects its promise). *)
Inductive Settled (T : Type) : Type :=
| Fulfilled (result : T)
| Rejected (reason : string).
Arguments Fulfilled {T} result.
Arguments Rejected {T} reason.

(** [execute()]: the statement is compiled, handed to [this._adapter.query]
    and the rows of the answer are returned.  The adapter is given by its
    [query] method acting on the state [W] of the world it talks to. *)
Definition executeFiltering {W : Type}
    (query : string -> option (list JsValue) -> W -> W * Settled QueryResult)
    (b : Filtering.QueryBuilder) (w : W) : W * Settled (list Row) :=
  match Filtering.toSQL b with
  | Thrown message => (w, Rejected message)
  | Returned sql values =>
      let '(w, answer) := query sql (Some values) w in
      match answer with
      | Fulfilled result => (w, Fulfilled (rows result))
      | Rejected reason => (w, Rejected reason)
      end
  end.

Definition executeJoined {W : Type}
    (query : string -> option (list JsValue) -> W -> W * Settled QueryResult)
    (b : Joined.QueryBuilder) (w : W) : W * Settled (list Row) :=
  match Joined.toSQL b with
  | Thrown message => (w, Rejected message)
  | Returned sql values =>
      let '(w, answer) := query sql (Some values) w in
      match answer with
      | Fulfilled result => (w, Fulfilled (rows result))
      | Rejected reason => (w, Rejected reason)
      end
  end.

(** *** [DummyAdapter] *)

(** An element of [_logs]. *)
Record LogEntry : Type := mkLog {
  sql : string;
  params : list JsValue
}.

Module DummyAdapter.

(** The adapters of one transaction tree share one [_logs] array
    ([new DummyAdapter(this._logs)]), so the array is the state; what
    [console.log] prints is left out. *)
Definition Logs : Type := list LogEntry.

(** [query(sql, params)]; [params || []] for a missing [params]. *)
Definition query (text : string) (given : option (list JsValue)) (logs : Logs)
    : Logs * Settled QueryResult :=
  (push logs (mkLog text (match given with Some p => p | None => [] end)),
   Fulfilled (mkResult [] 0)).

(** [transaction(callback)]; the callback runs on an adapter sharing the
    logs. *)
Definition transaction {T : Type} (callback : Logs -> Logs * Settled T)
    (logs : Logs) : Logs * Settled T :=
  let logs := push logs (mkLog "BEGIN" []) in
  let '(logs, outcome) := callback logs in
  match outcome with
  | Fulfilled result => (push logs (mkLog "COMMIT" []), Fulfilled result)
  | Rejected reason => (push logs (mkLog "ROLLBACK" []), Rejected reason)
  end.

End DummyAdapter.

(** A callback that awaits the execution of the given builders in turn, on
    the adapter it is handed, and returns the rows of each. *)
Fixpoint executeAll {W : Type}
    (query : string -> option (list JsValue) -> W -> W * Settled QueryResult)
    (bs : list Joined.QueryBuilder) (w : W) : W * Settled (list (list Row)) :=
  match bs with
  | [] => (w, Fulfilled [])
  | b :: rest =>
      let '(w, first) := executeJoined query b w in
      match first with
      | Rejected reason => (w, Rejected reason)
      | Fulfilled found =>
          let '(w, others) := executeAll query rest w in
          match others with
          | Rejected reason => (w, Rejected reason)
          | Fulfilled founds => (w, Fulfilled (found :: founds))
          end
      end
  end.

(** The statements of the builders up to the first that fails to build, as
    log entries, and the message of that failure if there is one. *)
Fixpoint compiledUntilFault (bs : list Joined.QueryBuilder)
    : list LogEntry * option string :=
  match bs with
  | [] => ([], None)
  | b :: rest =>
      match Joined.toSQL b with
      | Thrown message => ([], Some message)
      | Returned text values =>
          let '(entries, fault) := compiledUntilFault rest in
          (mkLog text values :: entries, fault)
      end
  end.

(** [depth] transactions one inside the other around a callback. *)
Fixpoint nested {T : Type} (depth : nat)
    (callback : DummyAdapter.Logs -> DummyAdapter.Logs * Settled T)
    : DummyAdapter.Logs -> DummyAdapter.Logs * Settled T :=
  match depth with
  | O => callback
  | S d => DummyAdapter.transaction (nested d callback)
  end.

(** The entry a transaction logs when its callback has settled. *)
Definition closingEntry {T : Type} (outcome : Settled T) : LogEntry :=
  match outcome with
  | Fulfilled _ => mkLog "COMMIT" []
  | Rejected _ => mkLog "ROLLBACK" []
  end.

(** *** [PostgresAdapter] *)

(** The calls the adapter makes on [pg]; pools and clients are handles. *)
Inductive PgCall : Type :=
| PoolQuery (pool : nat) (text : string) (given : option (list JsValue))
| PoolConnect (pool : nat)
| PoolEnd (pool : nat)
| ClientQuery (client : nat) (text : string) (given : option (list JsValue))
| ClientRelease (client : nat).

(** What [pg] answers to a query: the rows, and a row count that may be
    [null]. *)
Record PgQueryResult : Type := mkPgResult {
  pgRows : list Row;
  pgRowCount : option Z
}.

(** [pg] and the server behind it, which the adapter does not control: how
    each call is answered after the calls made so far. *)
Record Postgres : Type := mkPostgres {
  answersQuery : list PgCall -> PgCall -> Settled PgQueryResult;
  answersConnect : list PgCall -> nat -> Settled nat;
  answersEnd : list PgCall -> nat -> Settled unit
}.

Module PostgresAdapter.

Record Adapter : Type := mkAdapter {
  pool : option nat;
  client : option nat
}.

(** The argument of the constructor: a [Pool], an object with [release] and
    [query] (a [PoolClient]), or a configuration, for which [new Pool]
    gives the pool [created]. *)
Inductive ConfigOrPool : Type :=
| IsPool (p : nat)
| IsClient (c : nat)
| IsConfig (created : nat).

Definition construct (configOrPool : ConfigOrPool) : Adapter :=
  match configOrPool with
  | IsPool p => mkAdapter (Some p) None
  | IsClient c => mkAdapter None (Some c)
  | IsConfig created => mkAdapter (Some created) None
  end.

(** [await executor.query(sql, params)] and the object built from its
    answer, with [result.rowCount || 0]. *)
Definition ask (pg : Postgres) (call : PgCall) (trace : list PgCall)
    : list PgCall * Settled QueryResult :=
  (push trace call,
   match answersQuery pg trace call with
   | Fulfilled result =>
       Fulfilled (mkResult (pgRows result)
                           (match pgRowCount result with
                            | Some n => n
                            | None => 0%Z
                            end))
   | Rejected reason => Rejected reason
   end).

(** [query(sql, params)]; [this.client || this.pool] is the executor. *)
Definition query (pg : Postgres) (text : string)
    (given : option (list JsValue)) (a : Adapter) (trace : list PgCall)
    : list PgCall * Settled QueryResult :=
  match client a with
  | Some c => ask pg (ClientQuery c text given) trace
  | None =>
      match pool a with
      | Some p => ask pg (PoolQuery p text given) trace
      | None => (trace, Rejected "Adapter is closed or invalid")
      end
  end.

(** [await client.query("BEGIN")] and the like. *)
Definition command (pg : Postgres) (c : nat) (text : string)
    (trace : list PgCall) : list PgCall * Settled unit :=
  (push trace (ClientQuery c text None),
   match answersQuery pg trace (ClientQuery c text None) with
   | Fulfilled _ => Fulfilled tt
   | Rejected reason => Rejected reason
   end).

(** [transaction(callback)]: the [try], the [catch] and the [finally]. *)
Definition transaction {T : Type} (pg : Postgres)
    (callback : Adapter -> list PgCall -> list PgCall * Settled T)
    (a : Adapter) (trace : list PgCall) : list PgCall * Settled T :=
  match client a with
  | Some _ => callback a trace
  | None =>
      match pool a with
      | None => (trace, Rejected "Cannot start transaction without a pool")
      | Some p =>
          match answersConnect pg trace p with
          | Rejected reason => (push trace (PoolConnect p), Rejected reason)
          | Fulfilled c =>
              let trace := push trace (PoolConnect p) in
              let '(trace, attempt) :=
                let '(trace, begun) := command pg c "BEGIN" trace in
                match begun with
                | Rejected reason => (trace, Rejected reason)
                | Fulfilled _ =>
                    let trxAdapter := construct (IsClient c) in
                    let '(trace, outcome) := callback trxAdapter trace in
                    match outcome with
                    | Rejected reason => (trace, Rejected reason)
                    | Fulfilled result =>
                        let '(trace, committed) := command pg c "COMMIT" trace in
                        match committed with
                        | Rejected reason => (trace, Rejected reason)
                        | Fulfilled _ => (trace, Fulfilled result)
                        end
                    end
                end in
              let '(trace, final) :=
                match attempt with
                | Fulfilled result => (trace, Fulfilled result)
                | Rejected reason =>
                    let '(trace, rolled) := command pg c "ROLLBACK" trace in
                    match rolled with
                    | Rejected reason' => (trace, Rejected reason')
                    | Fulfilled _ => (trace, Rejected reason)
                    end
                end in
              (push trace (ClientRelease c), final)
          end
      end
  end.

(** [close()]. *)
Definition close (pg : Postgres) (a : Adapter) (trace : list PgCall)
    : list PgCall * Settled unit :=
  match pool a with
  | Some p => (push trace (PoolEnd p), answersEnd pg trace p)
  | None => (trace, Fulfilled tt)
  end.

End PostgresAdapter.

(** The query that closes a transaction which settled with [outcome]. *)
Definition closingCommand {T : Type} (outcome : Settled T) : string :=
  match outcome with
  | Fulfilled _ => "COMMIT"
  | Rejected _ => "ROLLBACK"
  end.

(** [depth] calls of [transaction], each inside the callback of the one
    before, around a callback. *)
Fixpoint pgNested {T : Type} (pg : Postgres) (depth : nat)
    (callback : PostgresAdapter.Adapter -> list PgCall -> list PgCall * Settled T)
    : PostgresAdapter.Adapter -> list PgCall -> list PgCall * Settled T :=
  match depth with
  | O => callback
  | S d => PostgresAdapter.transaction pg (pgNested pg d callback)
  end.

(** A server that answers every call, with no rows. *)
Definition obligingPostgres : Postgres :=
  mkPostgres (fun _ _ => Fulfilled (mkPgResult [] None))
             (fun _ _ => Fulfilled 7)
             (fun _ _ => Fulfilled tt).

(** A server on which COMMIT and ROLLBACK fail. *)
Definition failingPostgres : Postgres :=
  mkPostgres (fun _ call =>
                match call with
                | ClientQuery _ text _ =>
                    if String.eqb text "COMMIT" then Rejected "commit failed"
                    else if String.eqb text "ROLLBACK"
                         then Rejected "rollback failed"
                         else Fulfilled (mkPgResult [] None)
                | _ => Fulfilled (mkPgResult [] None)
                end)
             (fun _ _ => Fulfilled 7)
             (fun _ _ => Fulfilled tt).

(** ** The positional builder

    The earliest revision of [QueryBuilder]: filters are given one at a time
    as [where(column, operator, value)] and are all joined by AND. *)

Module Positional.

(** [WhereOperator]: ["=" | "!=" | ">" | "<" | ">=" | "<=" | "LIKE" | "IN"]. *)
Inductive WhereOperator : Type :=
| PEq | PNe | PGt | PLt | PGe | PLe | PLike | PIn.

Definition operatorText (o : WhereOperator) : string :=
  match o with
  | PEq => "=" | PNe => "!=" | PGt => ">" | PLt => "<"
  | PGe => ">=" | PLe => "<=" | PLike => "LIKE" | PIn => "IN"
  end.

Record WhereClause : Type := mkClause {
  column : string;
  operator : WhereOperator;
  value : JsValue
}.

Record QueryBuilder : Type := mkBuilder {
  _table : string;
  _operation : Operation;
  _data : Data;
  _select : list string;
  _where : list WhereClause;
  _limit : option Z;
  _offset : option Z;
  _returning : bool
}.

Definition create (table : string) : QueryBuilder :=
  mkBuilder table SELECT DNull [] [] None None false.

(** [where(column, operator, value)]; [where] is a reserved word here. *)
Definition where_ (col : string) (o : WhereOperator) (val : JsValue)
    (b : QueryBuilder) : QueryBuilder :=
  mkBuilder (_table b) (_operation b) (_data b) (_select b)
            (push (_where b) (mkClause col o val))
            (_limit b) (_offset b) (_returning b).

(** [this._where.map(clause => { values.push(clause.value); return ... })]. *)
Fixpoint renderClauses (clauses : list WhereClause) (values : list JsValue)
    : list string * list JsValue :=
  match clauses with
  | [] => ([], values)
  | clause :: rest =>
      let '(p, values) := bindValue (value clause) values in
      let '(texts, values) := renderClauses rest values in
      ((column clause ++ " " ++ operatorText (operator clause) ++ " " ++ p)
         :: texts, values)
  end.

(** The [if (this._where.length > 0)] block the SELECT, UPDATE and DELETE
    cases each carry. *)
Definition renderWhere (sql : string) (wh : list WhereClause)
    (values : list JsValue) : string * list JsValue :=
  match wh with
  | [] => (sql, values)
  | _ =>
      let '(clauses, values) := renderClauses wh values in
      (sql ++ " WHERE " ++ join " AND " clauses, values)
  end.

Definition toSQL (b : QueryBuilder) : Outcome :=
  let columns := match _select b with
                 | [] => "*"
                 | _ => join ", " (_select b)
                 end in
  let values : list JsValue := [] in
  match _operation b with
  | SELECT =>
      let sql := "SELECT " ++ columns ++ " FROM " ++ _table b in
      let '(sql, values) := renderWhere sql (_where b) values in
      let sql := match _limit b with
                 | Some n => sql ++ " LIMIT " ++ showZ n
                 | None => sql
                 end in
      let sql := match _offset b with
                 | Some n => sql ++ " OFFSET " ++ showZ n
                 | None => sql
                 end in
      Returned sql values
  | INSERT =>
      match _data b with
      | DNull => Thrown "No data provided for INSERT"
      | data =>
          let dataArr := asArray data in
          match dataArr with
          | [] => Thrown "Empty data array for INSERT"
          | firstRow :: _ =>
              let keys := keysOf firstRow in
              match keys with
              | [] => Thrown "No columns to insert"
              | _ =>
                  let '(placeHolders, values) := bindRows keys dataArr values in
                  let sql := "INSERT INTO " ++ _table b
                             ++ " (" ++ join ", " keys ++ ") VALUES "
                             ++ join ", " placeHolders in
                  let sql := if _returning b
                             then sql ++ " RETURNING " ++ columns else sql in
                  Returned sql values
              end
          end
      end
  | UPDATE =>
      match _data b with
      | DNull => Thrown "No data provided for UPDATE"
      | data =>
          let updateKeys := keysOf (dataProps data) in
          match updateKeys with
          | [] => Thrown "No columns to update"
          | _ =>
              let '(setClauses, values) :=
                renderSet (fun c => c) (dataProps data) updateKeys values in
              let sql := "UPDATE " ++ _table b
                         ++ " SET " ++ join ", " setClauses in
              let '(sql, values) := renderWhere sql (_where b) values in
              let sql := if _returning b
                         then sql ++ " RETURNING " ++ columns else sql in
              Returned sql values
          end
      end
  | DELETE =>
      let sql := "DELETE FROM " ++ _table b in
      let '(sql, values) := renderWhere sql (_where b) values in
      let sql := if _returning b
                 then sql ++ " RETURNING " ++ columns else sql in
      Returned sql values
  end.

End Positional.

(** The operator of the later revisions that bears the same text. *)
Definition laterOperator (o : Positional.WhereOperator) : WhereOperator :=
  match o with
  | Positional.PEq => OpEq | Positional.PNe => OpNe
  | Positional.PGt => OpGt | Positional.PLt => OpLt
  | Positional.PGe => OpGe | Positional.PLe => OpLe
  | Positional.PLike => OpLike | Positional.PIn => OpIn
  end.

(** A positional filter as a clause of the later revisions, joined by AND. *)
Definition laterClause (clause : Positional.WhereClause) : WhereClause :=
  mkClause AND (Positional.column clause)
           (laterOperator (Positional.operator clause))
           (Positional.value clause).

(** The builder of [src/query/builder.ts] holding the same statement. *)
Definition laterBuilder (b : Positional.QueryBuilder) : Filtering.QueryBuilder :=
  Filtering.mkBuilder (Positional._table b) (Positional._operation b)
    (Positional._data b) (Positional._select b)
    (map laterClause (Positional._where b))
    (Positional._limit b) (Positional._offset b) (Positional._returning b).

Definition isIn (clause : Positional.WhereClause) : bool :=
  match Positional.operator clause with
  | Positional.PIn => true
  | _ => false
  end.

(** A clause with its column as the join-aware builder writes it. *)
Definition quoteColumn (clause : WhereClause) : WhereClause :=
  mkClause (wtype clause) (Joined._quote (column clause))
           (operator clause) (value clause).

(** The filtering builder holding the statement of a join-aware builder
    with its table, projection and filter columns already quoted. *)
Definition quotedFiltering (b : Joined.QueryBuilder) : Filtering.QueryBuilder :=
  Filtering.mkBuilder (Joined._quote (Joined._table b)) (Joined._operation b)
    (Joined._data b) (map Joined._quote (Joined._select b))
    (map quoteColumn (Joined._where b))
    (Joined._limit b) (Joined._offset b) (Joined._returning b).

(** The parameter list of a statement of the positional builder. *)
Definition positionalValues (o : Operation) (d : Data)
    (wh : list Positional.WhereClause) : list JsValue :=
  match o with
  | SELECT | DELETE => map Positional.value wh
  | UPDATE =>
      (map (fun key => getProp key (dataProps d)) (keysOf (dataProps d))
         ++ map Positional.value wh)%list
  | INSERT =>
      match asArray d with
      | [] => []
      | firstRow :: _ => cellsOf (keysOf firstRow) (asArray d)
      end
  end.

(** [QuotesAdded s t]: [t] is [s] with double quotes inserted, and nothing
    else changed: every character of [s] is kept, in place and in order. *)
Inductive QuotesAdded : string -> string -> Prop :=
| added_none : QuotesAdded EmptyString EmptyString
| added_keep (a : ascii) (s t : string) :
    QuotesAdded s t -> QuotesAdded (String a s) (String a t)
| added_quote (s t : string) :
    QuotesAdded s t -> QuotesAdded s (String "034" t).

(** The number of segments [_quote] puts between double quotes: none of [*],
    of an expression or of an identifier that starts with a double quote,
    and every dot-separated segment of any other identifier. *)
Definition quotedSegments (identifier : string) : nat :=
  if String.eqb identifier "*" then 0
  else if (includes "(" identifier || includes " " identifier
           || startsWith "034" identifier)%bool
  then 0
  else List.length (split "." identifier).

(** ** How a chain of conditions reads *)






(** ** [toSQL] statement by statement *)

(** The body of [toSQL] as the statements it is made of, run in a store that
    holds the builder [this] next to the locals [values] and [sql] of the
    call.  A statement may read and assign any of the three; which ones the
    statements of [toSQL] do assign is what the properties of repeated
    compilation are about. *)
Module Imperative.

Record Store (B : Type) : Type := mkStore {
  this : B;
  values : list JsValue;
  sql : string
}.
Arguments mkStore {B} _ _ _.
Arguments this {B} _.
Arguments values {B} _.
Arguments sql {B} _.

(** How a statement completes: normally, with a value, or abruptly, by
    [throw new Error(message)]. *)
Inductive Completion (A : Type) : Type :=
| Normal (a : A)
| Abrupt (message : string).
Arguments Normal {A} _.
Arguments Abrupt {A} _.

Definition Exec (B A : Type) : Type := Store B -> Store B * Completion A.

Definition ret {B A : Type} (a : A) : Exec B A := fun s => (s, Normal a).

Definition bind {B A A' : Type} (m : Exec B A) (k : A -> Exec B A')
    : Exec B A' :=
  fun s =>
    match m s with
    | (s', Normal a) => k a s'
    | (s', Abrupt message) => (s', Abrupt message)
    end.

Notation "x <- m ;; k" := (bind m (fun x => k))
  (at level 61, m at next level, right associativity).
Notation "m ;; k" := (bind m (fun _ => k))
  (at level 61, right associativity).

(** [this.<field>]. *)
Definition read {B A : Type} (field : B -> A) : Exec B A :=
  fun s => (s, Normal (field (this s))).

(** [const values: any[] = []; let sql = "";]. *)
Definition declareLocals {B : Type} : Exec B unit :=
  fun s => (mkStore (this s) [] EmptyString, Normal tt).

(** [values.push(v)]. *)
Definition pushValue {B : Type} (v : JsValue) : Exec B unit :=
  fun s => (mkStore (this s) (push (values s) v) (sql s), Normal tt).

(** [values.length]. *)
Definition valuesLength {B : Type} : Exec B nat :=
  fun s => (s, Normal (List.length (values s))).

(** [sql = text]. *)
Definition assignSql {B : Type} (text : string) : Exec B unit :=
  fun s => (mkStore (this s) (values s) text, Normal tt).

(** [sql += text]. *)
Definition appendSql {B : Type} (text : string) : Exec B unit :=
  fun s => (mkStore (this s) (values s) (sql s ++ text), Normal tt).

(** [throw new Error(message)]. *)
Definition throw {B A : Type} (message : string) : Exec B A :=
  fun s => (s, Abrupt message).

(** [return { sql, values }]. *)
Definition returnLocals {B : Type} : Exec B (string * list JsValue) :=
  fun s => (s, Normal (sql s, values s)).

(** [array.map(callback)] and [array.forEach(callback)] over an array the
    callback does not touch, the callback given the index, from [index] on. *)
Fixpoint mapFrom {B A A' : Type} (callback : A -> nat -> Exec B A')
    (index : nat) (array : list A) : Exec B (list A') :=
  match array with
  | [] => ret []
  | x :: rest =>
      y <- callback x index ;;
      ys <- mapFrom callback (S index) rest ;;
      ret (y :: ys)
  end.

Definition mapArray {B A A' : Type} (callback : A -> Exec B A')
    (array : list A) : Exec B (list A') :=
  mapFrom (fun x _ => callback x) 0 array.

(** [values.push(v); return `$${values.length}`]. *)
Definition placeholder {B : Type} (v : JsValue) : Exec B string :=
  pushValue v ;;
  n <- valuesLength ;;
  ret ("$" ++ showNat n).

Section Statements.

Variable B : Type.

(** [this._quote] in the join-aware revision; the identifier as given in
    [src/query/builder.ts]. *)
Variable renderIdent : string -> string.

(** The fields the shared statements read. *)
Variable _where : B -> list WhereClause.
Variable _data : B -> Data.

(** The callback of [this._where.map] in [buildWhere]. *)
Definition whereCallback (clause : WhereClause) (index : nat)
    : Exec B string :=
  let col := renderIdent (column clause) in
  condition <-
    match operator clause with
    | OpIn | OpNotIn =>
        match value clause with
        | VArr ((_ :: _) as items) =>
            placeholders <- mapArray placeholder items ;;
            ret (col ++ " " ++ operatorText (operator clause)
                     ++ " (" ++ join ", " placeholders ++ ")")
        | _ =>
            ret (match operator clause with OpIn => "1=0" | _ => "1=1" end)
        end
    | OpIs | OpIsNot =>
        let val := match value clause with
                   | VNull => "NULL"
                   | v => jsString v
                   end in
        ret (col ++ " " ++ operatorText (operator clause) ++ " " ++ val)
    | _ =>
        pushValue (value clause) ;;
        n <- valuesLength ;;
        ret (col ++ " " ++ operatorText (operator clause)
                 ++ " $" ++ showNat n)
    end ;;
  if Nat.eqb index 0 then ret condition
  else ret (connectiveText (wtype clause) ++ " " ++ condition).

(** The [buildWhere] closure. *)
Definition buildWhere : Exec B string :=
  wh <- read _where ;;
  match wh with
  | [] => ret EmptyString
  | _ =>
      wh <- read _where ;;
      clauses <- mapFrom whereCallback 0 wh ;;
      ret (" WHERE " ++ join " " clauses)
  end.

(** [updateKeys.map(key => { values.push(this._data[key]); ... })]. *)
Definition setCallback (key : string) : Exec B string :=
  data <- read _data ;;
  pushValue (getProp key (dataProps data)) ;;
  n <- valuesLength ;;
  ret (renderIdent key ++ " = $" ++ showNat n).

(** [dataIn.forEach(row => { ... placeHolders.push(...) })]: the tuples
    pushed, in order. *)
Definition rowCallback (keys : list string) (row : Row) : Exec B string :=
  rowPlaceholders <- mapArray (fun key => placeholder (getProp key row)) keys ;;
  ret ("(" ++ join ", " rowPlaceholders ++ ")").

End Statements.

(** [toSQL()] of [src/query/builder.ts]. *)
Definition toSQL : Exec Filtering.QueryBuilder (string * list JsValue) :=
  select <- read Filtering._select ;;
  let columns := match select with
                 | [] => "*"
                 | _ => join ", " select
                 end in
  declareLocals ;;
  operation <- read Filtering._operation ;;
  match operation with
  | SELECT =>
      table <- read Filtering._table ;;
      assignSql ("SELECT " ++ columns ++ " FROM " ++ table) ;;
      w <- buildWhere _ (fun c => c) Filtering._where ;;
      appendSql w ;;
      limit <- read Filtering._limit ;;
      match limit with
      | Some n => appendSql (" LIMIT " ++ showZ n)
      | None => ret tt
      end ;;
      offset <- read Filtering._offset ;;
      match offset with
      | Some n => appendSql (" OFFSET " ++ showZ n)
      | None => ret tt
      end
  | INSERT =>
      data <- read Filtering._data ;;
      match data with
      | DNull => throw "No data provided for INSERT"
      | _ =>
          let dataIn := asArray data in
          match dataIn with
          | [] => throw "Empty data array for INSERT"
          | firstRow :: _ =>
              let keys := keysOf firstRow in
              match keys with
              | [] => throw "No columns to insert"
              | _ =>
                  placeHolders <- mapArray (rowCallback _ keys) dataIn ;;
                  table <- read Filtering._table ;;
                  assignSql ("INSERT INTO " ++ table
                               ++ " (" ++ join ", " keys ++ ") VALUES "
                               ++ join ", " placeHolders) ;;
                  returning <- read Filtering._returning ;;
                  if returning
                  then appendSql (" RETURNING " ++ columns)
                  else ret tt
              end
          end
      end
  | UPDATE =>
      data <- read Filtering._data ;;
      match data with
      | DNull => throw "No data provided for UPDATE"
      | _ =>
          let updateKeys := keysOf (dataProps data) in
          match updateKeys with
          | [] => throw "No columns to update"
          | _ =>
              setClauses <-
                mapArray (setCallback _ (fun c => c) Filtering._data)
                         updateKeys ;;
              table <- read Filtering._table ;;
              assignSql ("UPDATE " ++ table
                           ++ " SET " ++ join ", " setClauses) ;;
              w <- buildWhere _ (fun c => c) Filtering._where ;;
              appendSql w ;;
              returning <- read Filtering._returning ;;
              if returning
              then appendSql (" RETURNING " ++ columns)
              else ret tt
          end
      end
  | DELETE =>
      table <- read Filtering._table ;;
      assignSql ("DELETE FROM " ++ table) ;;
      w <- buildWhere _ (fun c => c) Filtering._where ;;
      appendSql w ;;
      returning <- read Filtering._returning ;;
      if returning
      then appendSql (" RETURNING " ++ columns)
      else ret tt
  end ;;
  returnLocals.

(** [toSQL()] of the join-aware revision. *)
Definition toSQLJoined : Exec Joined.QueryBuilder (string * list JsValue) :=
  select <- read Joined._select ;;
  let columns := match select with
                 | [] => "*"
                 | _ => join ", " (map Joined._quote select)
                 end in
  table <- read Joined._table ;;
  let tableUser := Joined._quote table in
  declareLocals ;;
  operation <- read Joined._operation ;;
  match operation with
  | SELECT =>
      assignSql ("SELECT " ++ columns ++ " FROM " ++ tableUser) ;;
      joins <- read Joined._joins ;;
      appendSql (Joined.buildJoins joins) ;;
      w <- buildWhere _ Joined._quote Joined._where ;;
      appendSql w ;;
      limit <- read Joined._limit ;;
      match limit with
      | Some n => appendSql (" LIMIT " ++ showZ n)
      | None => ret tt
      end ;;
      offset <- read Joined._offset ;;
      match offset with
      | Some n => appendSql (" OFFSET " ++ showZ n)
      | None => ret tt
      end
  | INSERT =>
      joins <- read Joined._joins ;;
      match joins with
      | _ :: _ => throw "INSERT does not support JOINS"
      | [] =>
      data <- read Joined._data ;;
      match data with
      | DNull => throw "No data provided for INSERT"
      | _ =>
          let dataIn := asArray data in
          match dataIn with
          | [] => throw "Empty data array for INSERT"
          | firstRow :: _ =>
              let keys := keysOf firstRow in
              match keys with
              | [] => throw "No columns to insert"
              | _ =>
                  let quotedKeys := map Joined._quote keys in
                  placeHolders <- mapArray (rowCallback _ keys) dataIn ;;
                  assignSql ("INSERT INTO " ++ tableUser
                               ++ " (" ++ join ", " quotedKeys ++ ") VALUES "
                               ++ join ", " placeHolders) ;;
                  returning <- read Joined._returning ;;
                  if returning then appendSql " RETURNING *" else ret tt
              end
          end
      end
      end
  | UPDATE =>
      joins <- read Joined._joins ;;
      match joins with
      | _ :: _ =>
          throw "UPDATE does not support JOINS directly (use subqueries or raw SQL)"
      | [] =>
      data <- read Joined._data ;;
      match data with
      | DNull => throw "No data provided for UPDATE"
      | _ =>
          let updateKeys := keysOf (dataProps data) in
          match updateKeys with
          | [] => throw "No columns to update"
          | _ =>
              setClauses <-
                mapArray (setCallback _ Joined._quote Joined._data)
                         updateKeys ;;
              assignSql ("UPDATE " ++ tableUser
                           ++ " SET " ++ join ", " setClauses) ;;
              w <- buildWhere _ Joined._quote Joined._where ;;
              appendSql w ;;
              returning <- read Joined._returning ;;
              if returning then appendSql " RETURNING *" else ret tt
          end
      end
      end
  | DELETE =>
      joins <- read Joined._joins ;;
      match joins with
      | _ :: _ => throw "DELETE does not support JOINS directly"
      | [] =>
          assignSql ("DELETE FROM " ++ tableUser) ;;
          w <- buildWhere _ Joined._quote Joined._where ;;
          appendSql w ;;
          returning <- read Joined._returning ;;
          if returning then appendSql " RETURNING *" else ret tt
      end
  end ;;
  returnLocals.

(** What the caller of [toSQL()] gets: the returned object or the error. *)
Definition outcome (c : Completion (string * list JsValue)) : Outcome :=
  match c with
  | Normal (text, bound) => Returned text bound
  | Abrupt message => Thrown message
  end.

End Imperative.

(** * Properties *)

(** ** Strings and lists *)

Lemma sappend_nil_r (s : string) : s ++ EmptyString = s.
Proof. induction s as [|a s IH]; simpl; [reflexivity | now rewrite IH]. Qed.

Lemma sappend_assoc (s t u : string) : (s ++ t) ++ u = s ++ t ++ u.
Proof. induction s as [|a s IH]; simpl; [reflexivity | now rewrite IH]. Qed.

Lemma push_if {A : Type} (c : bool) (arr : list A) (x : A) :
  (if c then push arr x else arr) = (arr ++ if c then [x] else [])%list.
Proof. destruct c; [reflexivity | now rewrite app_nil_r]. Qed.

Lemma push_length {A : Type} (arr : list A) (x : A) :
  List.length (push arr x) = S (List.length arr).
Proof. unfold push. rewrite length_app. simpl. lia. Qed.

(** ** [_addWhere] *)

Lemma pushOperators_object type col props wh :
  pushOperators type col (VObj props) wh
  = (wh ++ expandOperators type col props)%list.
Proof.
  unfold pushOperators, expandOperators, operatorKeys, opsHas, opsGet.
  cbn [flat_map fst snd].
  rewrite !push_if, <- !app_assoc, ?app_nil_r.
  reflexivity.
Qed.

Lemma pushOperators_array type col items wh :
  pushOperators type col (VArr items) wh = wh.
Proof. reflexivity. Qed.

Lemma addEntry_expanded type wh entry :
  addEntry type wh entry = (wh ++ expandedEntry type entry)%list.
Proof.
  destruct entry as [key val]. unfold addEntry, expandedEntry. cbn [fst snd].
  destruct val; cbn [isOperatorObject]; try reflexivity.
  - now rewrite pushOperators_array, app_nil_r.
  - apply pushOperators_object.
Qed.

Lemma addWhere_expanded type conditions wh :
  _addWhere type conditions wh
  = (wh ++ flat_map (expandedEntry type) conditions)%list.
Proof.
  unfold _addWhere. revert wh.
  induction conditions as [|entry rest IH]; intro wh; cbn [fold_left flat_map].
  - now rewrite app_nil_r.
  - rewrite IH, addEntry_expanded, <- app_assoc. reflexivity.
Qed.

Lemma expandOperators_type type col props :
  Forall (fun c => wtype c = type /\ column c = col)
         (expandOperators type col props).
Proof.
  unfold expandOperators, operatorKeys. cbn [flat_map fst snd].
  repeat match goal with
         | |- context [hasProp ?k props] => destruct (hasProp k props)
         end;
    cbn [app]; repeat constructor.
Qed.

Lemma expandedEntry_type type entry :
  Forall (fun c => wtype c = type /\ column c = fst entry)
         (expandedEntry type entry).
Proof.
  destruct entry as [key val]. unfold expandedEntry. cbn [fst snd].
  destruct val; try (repeat constructor; fail).
  apply expandOperators_type.
Qed.

Lemma expandOperators_none type col props :
  noOperatorKey (VObj props) -> expandOperators type col props = [].
Proof.
  intro H. unfold expandOperators, operatorKeys. cbn [flat_map fst snd].
  unfold noOperatorKey, operatorKeys in H. cbn [map fst opsHas] in H.
  rewrite !H by (cbn [In]; tauto).
  reflexivity.
Qed.

Lemma expandedEntry_dropped type key val :
  isOperatorObject val = true -> noOperatorKey val ->
  expandedEntry type (key, val) = [].
Proof.
  intros Hobj Hnone. unfold expandedEntry. cbn [fst snd].
  destruct val; try discriminate Hobj.
  - reflexivity.
  - now apply expandOperators_none.
Qed.

(** ** Fragments erase to the text the source builds *)

Lemma renderFrags_app fs gs :
  renderFrags (fs ++ gs) = renderFrags fs ++ renderFrags gs.
Proof.
  induction fs as [|f fs IH]; cbn [renderFrags app]; [reflexivity|].
  now rewrite IH, sappend_assoc.
Qed.

Lemma renderFrags_join sep parts :
  renderFrags (joinFrags sep parts) = join sep (map renderFrags parts).
Proof.
  unfold join.
  induction parts as [|part rest IH]; [reflexivity|].
  destruct rest as [|part' rest'].
  - reflexivity.
  - change (joinFrags sep (part :: part' :: rest'))
      with (part ++ Lit sep :: joinFrags sep (part' :: rest'))%list.
    rewrite renderFrags_app. cbn [renderFrags renderFrag].
    rewrite IH. reflexivity.
Qed.

Lemma traceValue_erase v values :
  renderFrags (fst (traceValue v values)) = fst (bindValue v values)
  /\ snd (traceValue v values) = snd (bindValue v values).
Proof.
  unfold traceValue, bindValue. cbn [fst snd renderFrags renderFrag].
  now rewrite sappend_nil_r.
Qed.

Lemma traceAll_erase items : forall values,
  map renderFrags (fst (traceAll items values)) = fst (bindAll items values)
  /\ snd (traceAll items values) = snd (bindAll items values).
Proof.
  induction items as [|v rest IH]; intro values; cbn [traceAll bindAll].
  - split; reflexivity.
  - destruct (traceValue_erase v values) as [Ht Hv].
    destruct (traceValue v values) as [p values1].
    destruct (bindValue v values) as [p' values1'].
    cbn [fst snd] in Ht, Hv. subst values1'.
    specialize (IH values1).
    destruct (traceAll rest values1) as [ps values2].
    destruct (bindAll rest values1) as [ps' values2'].
    cbn [fst snd map] in *. destruct IH as [IH1 IH2].
    now rewrite Ht, IH1, IH2.
Qed.

Lemma traceRows_erase keys dataIn : forall values,
  map renderFrags (fst (traceRows keys dataIn values))
    = fst (bindRows keys dataIn values)
  /\ snd (traceRows keys dataIn values) = snd (bindRows keys dataIn values).
Proof.
  induction dataIn as [|row rest IH]; intro values; cbn [traceRows bindRows].
  - split; reflexivity.
  - destruct (traceAll_erase (map (fun key => getProp key row) keys) values)
      as [Ht Hv].
    destruct (traceAll _ values) as [rp values1].
    destruct (bindAll _ values) as [rp' values1'].
    cbn [fst snd] in Ht, Hv. subst values1'.
    specialize (IH values1).
    destruct (traceRows keys rest values1) as [ps values2].
    destruct (bindRows keys rest values1) as [ps' values2'].
    cbn [fst snd map] in *. destruct IH as [IH1 IH2].
    rewrite IH1, IH2. split; [|reflexivity].
    f_equal. cbn [renderFrags renderFrag].
    rewrite renderFrags_app, renderFrags_join, Ht.
    cbn [renderFrags renderFrag]. now rewrite sappend_nil_r.
Qed.

Section TracingErasure.

Variable renderIdent : string -> string.

Lemma traceCondition_erase clause values :
  renderFrags (fst (traceCondition renderIdent clause values))
    = fst (renderCondition renderIdent clause values)
  /\ snd (traceCondition renderIdent clause values)
    = snd (renderCondition renderIdent clause values).
Proof.
  unfold traceCondition, renderCondition.
  destruct clause as [type col o val]. cbn [column operator value].
  assert (Hbound :
    let '(p, values') := traceValue val values in
    let '(p', values'') := bindValue val values in
    renderFrags p = p' /\ values' = values'').
  { destruct (traceValue_erase val values) as [H1 H2].
    destruct (traceValue val values), (bindValue val values).
    now cbn [fst snd] in *. }
  assert (Hlist : forall items,
    let '(ps, values') := traceAll items values in
    let '(ps', values'') := bindAll items values in
    map renderFrags ps = ps' /\ values' = values'').
  { intro items. destruct (traceAll_erase items values) as [H1 H2].
    destruct (traceAll items values), (bindAll items values).
    now cbn [fst snd] in *. }
  destruct o;
    try (destruct (traceValue val values) as [p values1];
         destruct (bindValue val values) as [p' values1'];
         destruct Hbound as [Hp Hv]; subst; cbn [fst snd];
         split; [|reflexivity];
         cbn [renderFrags renderFrag];
         now rewrite !sappend_assoc);
    try (cbn [fst snd renderFrags renderFrag]; split; [|reflexivity];
         now rewrite sappend_nil_r).
  all: destruct val as [| | | | | |items|];
    try (cbn [fst snd renderFrags renderFrag]; split; reflexivity).
  all: destruct items as [|v items];
    [cbn [fst snd renderFrags renderFrag]; split; reflexivity|].
  all: specialize (Hlist (v :: items));
    destruct (traceAll (v :: items) values) as [ps values1];
    destruct (bindAll (v :: items) values) as [ps' values1'];
    destruct Hlist as [Hp Hv]; subst; cbn [fst snd];
    split; [|reflexivity];
    cbn [renderFrags renderFrag];
    rewrite renderFrags_app, renderFrags_join;
    cbn [renderFrags renderFrag];
    now rewrite !sappend_assoc, sappend_nil_r.
Qed.

Lemma traceClauses_erase clauses : forall index values,
  map renderFrags (fst (traceClauses renderIdent index clauses values))
    = fst (renderClauses renderIdent index clauses values)
  /\ snd (traceClauses renderIdent index clauses values)
    = snd (renderClauses renderIdent index clauses values).
Proof.
  induction clauses as [|clause rest IH]; intros index values;
    cbn [traceClauses renderClauses].
  - split; reflexivity.
  - destruct (traceCondition_erase clause values) as [Ht Hv].
    destruct (traceCondition renderIdent clause values) as [c values1].
    destruct (renderCondition renderIdent clause values) as [c' values1'].
    cbn [fst snd] in Ht, Hv. subst values1'.
    specialize (IH (S index) values1).
    destruct (traceClauses renderIdent (S index) rest values1) as [ts values2].
    destruct (renderClauses renderIdent (S index) rest values1)
      as [ts' values2'].
    cbn [fst snd map] in *. destruct IH as [IH1 IH2].
    rewrite IH1, IH2. split; [|reflexivity].
    f_equal. destruct (Nat.eqb index 0); [assumption|].
    cbn [renderFrags renderFrag]. now rewrite Ht, sappend_assoc.
Qed.

Lemma traceWhere_erase wh values :
  renderFrags (fst (traceWhere renderIdent wh values))
    = fst (buildWhere renderIdent wh values)
  /\ snd (traceWhere renderIdent wh values)
    = snd (buildWhere renderIdent wh values).
Proof.
  unfold traceWhere, buildWhere.
  destruct wh as [|clause rest]; [split; reflexivity|].
  destruct (traceClauses_erase (clause :: rest) 0 values) as [Ht Hv].
  destruct (traceClauses renderIdent 0 (clause :: rest) values) as [ts v1].
  destruct (renderClauses renderIdent 0 (clause :: rest) values) as [ts' v1'].
  cbn [fst snd] in *. subst. split; [|reflexivity].
  cbn [renderFrags renderFrag]. now rewrite renderFrags_join.
Qed.

Lemma traceSet_erase data updateKeys : forall values,
  map renderFrags (fst (traceSet renderIdent data updateKeys values))
    = fst (renderSet renderIdent data updateKeys values)
  /\ snd (traceSet renderIdent data updateKeys values)
    = snd (renderSet renderIdent data updateKeys values).
Proof.
  induction updateKeys as [|key rest IH]; intro values;
    cbn [traceSet renderSet].
  - split; reflexivity.
  - destruct (traceValue_erase (getProp key data) values) as [Ht Hv].
    destruct (traceValue (getProp key data) values) as [p values1].
    destruct (bindValue (getProp key data) values) as [p' values1'].
    cbn [fst snd] in Ht, Hv. subst values1'.
    specialize (IH values1).
    destruct (traceSet renderIdent data rest values1) as [ss values2].
    destruct (renderSet renderIdent data rest values1) as [ss' values2'].
    cbn [fst snd map] in *. destruct IH as [IH1 IH2].
    rewrite IH1, IH2. split; [|reflexivity].
    f_equal. cbn [renderFrags renderFrag]. now rewrite Ht, sappend_assoc.
Qed.

End TracingErasure.

(** ** Placeholders are numbered by the length of the parameter list *)

Lemma placeholders_app fs gs :
  placeholders (fs ++ gs) = (placeholders fs ++ placeholders gs)%list.
Proof.
  induction fs as [|[text|index bound] fs IH]; cbn [placeholders app];
    [reflexivity | assumption | now rewrite IH].
Qed.

Lemma combine_app {A B : Type} (xs xs' : list A) (ys ys' : list B) :
  List.length xs = List.length ys ->
  combine (xs ++ xs') (ys ++ ys') = (combine xs ys ++ combine xs' ys')%list.
Proof.
  revert ys. induction xs as [|x xs IH]; intros [|y ys] Hlen;
    try discriminate Hlen; cbn [combine app]; [reflexivity|].
  f_equal. apply IH. now injection Hlen.
Qed.

Lemma bindsFrom_nil values : bindsFrom values [] values.
Proof. exists []. now rewrite app_nil_r. Qed.

Lemma bindsFrom_app values0 values1 values2 fs gs :
  bindsFrom values0 fs values1 -> bindsFrom values1 gs values2 ->
  bindsFrom values0 (fs ++ gs) values2.
Proof.
  intros [added1 [E1 P1]] [added2 [E2 P2]]. subst values1 values2.
  exists (added1 ++ added2)%list. split; [now rewrite app_assoc|].
  rewrite placeholders_app, P1, P2, !length_app, seq_app.
  rewrite combine_app by now rewrite length_seq.
  reflexivity.
Qed.

Lemma bindsFrom_lit text values fs values' :
  bindsFrom values fs values' -> bindsFrom values (Lit text :: fs) values'.
Proof. intros [added [E P]]. exists added. now split. Qed.

Lemma bindsFrom_lit_end text values fs values' :
  bindsFrom values fs values' -> bindsFrom values (fs ++ [Lit text]) values'.
Proof.
  intro H. apply bindsFrom_app with values'; [assumption|].
  apply bindsFrom_lit, bindsFrom_nil.
Qed.

Lemma bindsFrom_join sep values parts values' :
  bindsEach values parts values' ->
  bindsFrom values (joinFrags sep parts) values'.
Proof.
  induction 1 as [values|values0 values1 values2 part parts Hpart Hparts IH].
  - apply bindsFrom_nil.
  - destruct parts as [|part' parts'].
    + inversion Hparts; subst. exact Hpart.
    + change (joinFrags sep (part :: part' :: parts'))
        with (part ++ Lit sep :: joinFrags sep (part' :: parts'))%list.
      apply bindsFrom_app with values1; [assumption|].
      now apply bindsFrom_lit.
Qed.

Lemma traceValue_binds v values :
  bindsFrom values (fst (traceValue v values)) (snd (traceValue v values)).
Proof.
  unfold traceValue. cbn [fst snd]. exists [v]. split; [reflexivity|].
  cbn [placeholders List.length seq combine]. now rewrite push_length.
Qed.

Lemma traceAll_binds items : forall values,
  bindsEach values (fst (traceAll items values)) (snd (traceAll items values)).
Proof.
  induction items as [|v rest IH]; intro values; cbn [traceAll].
  - constructor.
  - pose proof (traceValue_binds v values) as Hv.
    destruct (traceValue v values) as [p values1].
    specialize (IH values1).
    destruct (traceAll rest values1) as [ps values2].
    cbn [fst snd] in *. econstructor; eassumption.
Qed.

Lemma traceRows_binds keys dataIn : forall values,
  bindsEach values (fst (traceRows keys dataIn values))
            (snd (traceRows keys dataIn values)).
Proof.
  induction dataIn as [|row rest IH]; intro values; cbn [traceRows].
  - constructor.
  - pose proof (traceAll_binds (map (fun key => getProp key row) keys) values)
      as Hrow.
    destruct (traceAll _ values) as [rp values1].
    specialize (IH values1).
    destruct (traceRows keys rest values1) as [ps values2].
    cbn [fst snd] in *. econstructor; [|eassumption].
    apply bindsFrom_lit, bindsFrom_lit_end, bindsFrom_join. exact Hrow.
Qed.

Section TracingBinds.

Variable renderIdent : string -> string.

Lemma traceCondition_binds clause values :
  bindsFrom values (fst (traceCondition renderIdent clause values))
            (snd (traceCondition renderIdent clause values)).
Proof.
  unfold traceCondition.
  destruct clause as [type col o val]. cbn [column operator value].
  pose proof (traceValue_binds val values) as Hv.
  destruct o;
    try (destruct (traceValue val values) as [p values1]; cbn [fst snd] in *;
         now apply bindsFrom_lit);
    try (cbn [fst snd]; apply bindsFrom_lit, bindsFrom_nil).
  all: destruct val as [| | | | | |items|];
    try (cbn [fst snd]; apply bindsFrom_lit, bindsFrom_nil).
  all: destruct items as [|v items];
    [cbn [fst snd]; apply bindsFrom_lit, bindsFrom_nil|].
  all: pose proof (traceAll_binds (v :: items) values) as Hitems;
    destruct (traceAll (v :: items) values) as [ps values1];
    cbn [fst snd] in *;
    now apply bindsFrom_lit, bindsFrom_lit_end, bindsFrom_join.
Qed.

Lemma traceClauses_binds clauses : forall index values,
  bindsEach values (fst (traceClauses renderIdent index clauses values))
            (snd (traceClauses renderIdent index clauses values)).
Proof.
  induction clauses as [|clause rest IH]; intros index values;
    cbn [traceClauses].
  - constructor.
  - pose proof (traceCondition_binds clause values) as Hc.
    destruct (traceCondition renderIdent clause values) as [c values1].
    specialize (IH (S index) values1).
    destruct (traceClauses renderIdent (S index) rest values1) as [ts values2].
    cbn [fst snd] in *. econstructor; [|eassumption].
    destruct (Nat.eqb index 0); [assumption | now apply bindsFrom_lit].
Qed.

Lemma traceWhere_binds wh values :
  bindsFrom values (fst (traceWhere renderIdent wh values))
            (snd (traceWhere renderIdent wh values)).
Proof.
  unfold traceWhere. destruct wh as [|clause rest].
  - apply bindsFrom_nil.
  - pose proof (traceClauses_binds (clause :: rest) 0 values) as H.
    destruct (traceClauses renderIdent 0 (clause :: rest) values) as [ts v1].
    cbn [fst snd] in *. now apply bindsFrom_lit, bindsFrom_join.
Qed.

Lemma traceSet_binds data updateKeys : forall values,
  bindsEach values (fst (traceSet renderIdent data updateKeys values))
            (snd (traceSet renderIdent data updateKeys values)).
Proof.
  induction updateKeys as [|key rest IH]; intro values; cbn [traceSet].
  - constructor.
  - pose proof (traceValue_binds (getProp key data) values) as Hv.
    destruct (traceValue (getProp key data) values) as [p values1].
    specialize (IH values1).
    destruct (traceSet renderIdent data rest values1) as [ss values2].
    cbn [fst snd] in *. econstructor; [|eassumption].
    now apply bindsFrom_lit.
Qed.

End TracingBinds.

(** ** Whole statements *)

Lemma pair_eta {A B : Type} (p q : A * B) :
  fst p = fst q -> snd p = snd q -> p = q.
Proof. destruct p, q; cbn [fst snd]; now intros -> ->. Qed.

Lemma buildWhere_traced q wh values :
  buildWhere q wh values
  = (renderFrags (fst (traceWhere q wh values)), snd (traceWhere q wh values)).
Proof.
  destruct (traceWhere_erase q wh values) as [H1 H2].
  apply pair_eta; cbn [fst snd]; now symmetry.
Qed.

Lemma bindRows_traced keys dataIn values :
  bindRows keys dataIn values
  = (map renderFrags (fst (traceRows keys dataIn values)),
     snd (traceRows keys dataIn values)).
Proof.
  destruct (traceRows_erase keys dataIn values) as [H1 H2].
  apply pair_eta; cbn [fst snd]; now symmetry.
Qed.

Lemma renderSet_traced q data updateKeys values :
  renderSet q data updateKeys values
  = (map renderFrags (fst (traceSet q data updateKeys values)),
     snd (traceSet q data updateKeys values)).
Proof.
  destruct (traceSet_erase q data updateKeys values) as [H1 H2].
  apply pair_eta; cbn [fst snd]; now symmetry.
Qed.

Lemma filtering_paginate b sql :
  Filtering.paginate b sql = sql ++ Filtering.paginate b EmptyString.
Proof.
  unfold Filtering.paginate.
  destruct (Filtering._limit b), (Filtering._offset b); cbn [append];
    now rewrite ?sappend_assoc, ?sappend_nil_r.
Qed.

Lemma joined_paginate b sql :
  Joined.paginate b sql = sql ++ Joined.paginate b EmptyString.
Proof.
  unfold Joined.paginate.
  destruct (Joined._limit b), (Joined._offset b); cbn [append];
    now rewrite ?sappend_assoc, ?sappend_nil_r.
Qed.

Lemma renderFrags_returning (flag : bool) text sql :
  (if flag then sql ++ text else sql)
  = sql ++ renderFrags (if flag then [Lit text] else []).
Proof.
  destruct flag; cbn [renderFrags renderFrag]; now rewrite ?sappend_nil_r.
Qed.

Lemma bindsFrom_returning (flag : bool) text values :
  bindsFrom values (if flag then [Lit text] else []) values.
Proof. destruct flag; [apply bindsFrom_lit|]; apply bindsFrom_nil. Qed.

Lemma traceFiltering_traced b : tracedBy (traceFiltering b) (Filtering.toSQL b).
Proof.
  unfold Filtering.toSQL, traceFiltering, tracedBy.
  set (columns := match Filtering._select b with
                  | [] => "*" | _ => join ", " (Filtering._select b) end).
  destruct (Filtering._operation b).
  - (* SELECT *)
    rewrite buildWhere_traced. cbv beta iota zeta. split.
    + rewrite (filtering_paginate b (_ ++ _)).
      cbn [renderFrags renderFrag]. rewrite renderFrags_app.
      cbn [renderFrags renderFrag].
      now rewrite !sappend_assoc, sappend_nil_r.
    + apply bindsFrom_lit, bindsFrom_lit_end, traceWhere_binds.
  - (* INSERT *)
    destruct (Filtering._data b) as [|row|rows]; [exact I| |];
      cbn [asArray].
    + destruct (keysOf row) as [|key keys] eqn:Hkeys; [exact I|].
      rewrite bindRows_traced, renderFrags_returning. cbv beta iota zeta. split.
      * cbn [renderFrags renderFrag].
        rewrite renderFrags_app, renderFrags_join.
        now rewrite !sappend_assoc.
      * apply bindsFrom_lit.
        eapply bindsFrom_app; [|apply bindsFrom_returning].
        apply bindsFrom_join, traceRows_binds.
    + destruct rows as [|row rows]; [exact I|].
      destruct (keysOf row) as [|key keys] eqn:Hkeys; [exact I|].
      rewrite bindRows_traced, renderFrags_returning. cbv beta iota zeta. split.
      * cbn [renderFrags renderFrag].
        rewrite renderFrags_app, renderFrags_join.
        now rewrite !sappend_assoc.
      * apply bindsFrom_lit.
        eapply bindsFrom_app; [|apply bindsFrom_returning].
        apply bindsFrom_join, traceRows_binds.
  - (* UPDATE *)
    destruct (Filtering._data b) as [|row|rows] eqn:Hdata; [exact I| |].
    all: destruct (keysOf (dataProps _)) as [|key keys] eqn:Hkeys;
      [exact I|].
    all: rewrite renderSet_traced, buildWhere_traced, renderFrags_returning.
    all: match goal with
         | |- context [traceSet ?q ?d ?ks []] =>
             pose proof (traceSet_binds q d ks []) as Hset;
             destruct (traceSet q d ks []) as [sets values1]
         end.
    all: cbn [fst snd] in *; cbv beta iota zeta; split.
    all: try (cbn [renderFrags renderFrag];
              rewrite !renderFrags_app, renderFrags_join;
              now rewrite !sappend_assoc).
    all: apply bindsFrom_lit;
      eapply bindsFrom_app; [apply bindsFrom_join; eassumption|];
      eapply bindsFrom_app; [apply traceWhere_binds|];
      apply bindsFrom_returning.
  - (* DELETE *)
    rewrite buildWhere_traced, renderFrags_returning. cbv beta iota zeta. split.
    + cbn [renderFrags renderFrag]. rewrite renderFrags_app.
      now rewrite !sappend_assoc.
    + apply bindsFrom_lit.
      eapply bindsFrom_app; [apply traceWhere_binds|].
      apply bindsFrom_returning.
Qed.

Lemma traceJoined_traced b : tracedBy (traceJoined b) (Joined.toSQL b).
Proof.
  unfold Joined.toSQL, traceJoined, tracedBy.
  set (columns := match Joined._select b with
                  | [] => "*"
                  | _ => join ", " (map Joined._quote (Joined._select b)) end).
  destruct (Joined._operation b).
  - (* SELECT *)
    rewrite buildWhere_traced. cbv beta iota zeta. split.
    + rewrite (joined_paginate b (_ ++ _)).
      cbn [renderFrags renderFrag]. rewrite renderFrags_app.
      cbn [renderFrags renderFrag].
      now rewrite !sappend_assoc, sappend_nil_r.
    + apply bindsFrom_lit, bindsFrom_lit_end, traceWhere_binds.
  - (* INSERT *)
    destruct (Joined._joins b); [|exact I].
    destruct (Joined._data b) as [|row|rows]; [exact I| |];
      cbn [asArray].
    + destruct (keysOf row) as [|key keys] eqn:Hkeys; [exact I|].
      rewrite bindRows_traced, renderFrags_returning. cbv beta iota zeta. split.
      * cbn [renderFrags renderFrag].
        rewrite renderFrags_app, renderFrags_join.
        now rewrite !sappend_assoc.
      * apply bindsFrom_lit.
        eapply bindsFrom_app; [|apply bindsFrom_returning].
        apply bindsFrom_join, traceRows_binds.
    + destruct rows as [|row rows]; [exact I|].
      destruct (keysOf row) as [|key keys] eqn:Hkeys; [exact I|].
      rewrite bindRows_traced, renderFrags_returning. cbv beta iota zeta. split.
      * cbn [renderFrags renderFrag].
        rewrite renderFrags_app, renderFrags_join.
        now rewrite !sappend_assoc.
      * apply bindsFrom_lit.
        eapply bindsFrom_app; [|apply bindsFrom_returning].
        apply bindsFrom_join, traceRows_binds.
  - (* UPDATE *)
    destruct (Joined._joins b); [|exact I].
    destruct (Joined._data b) as [|row|rows] eqn:Hdata; [exact I| |].
    all: destruct (keysOf (dataProps _)) as [|key keys] eqn:Hkeys;
      [exact I|].
    all: rewrite renderSet_traced, buildWhere_traced, renderFrags_returning.
    all: match goal with
         | |- context [traceSet ?q ?d ?ks []] =>
             pose proof (traceSet_binds q d ks []) as Hset;
             destruct (traceSet q d ks []) as [sets values1]
         end.
    all: cbn [fst snd] in *; cbv beta iota zeta; split.
    all: try (cbn [renderFrags renderFrag];
              rewrite !renderFrags_app, renderFrags_join;
              now rewrite !sappend_assoc).
    all: apply bindsFrom_lit;
      eapply bindsFrom_app; [apply bindsFrom_join; eassumption|];
      eapply bindsFrom_app; [apply traceWhere_binds|];
      apply bindsFrom_returning.
  - (* DELETE *)
    destruct (Joined._joins b); [|exact I].
    rewrite buildWhere_traced, renderFrags_returning. cbv beta iota zeta. split.
    + cbn [renderFrags renderFrag]. rewrite renderFrags_app.
      now rewrite !sappend_assoc.
    + apply bindsFrom_lit.
      eapply bindsFrom_app; [apply traceWhere_binds|].
      apply bindsFrom_returning.
Qed.

Lemma map_fst_combine_seq {B : Type} (start : nat) (ys : list B) :
  map fst (combine (seq start (List.length ys)) ys) = seq start (List.length ys).
Proof.
  revert start. induction ys as [|y ys IH]; intro start; [reflexivity|].
  cbn [List.length seq combine map fst]. now rewrite IH.
Qed.

Lemma map_snd_combine_seq {B : Type} (start : nat) (ys : list B) :
  map snd (combine (seq start (List.length ys)) ys) = ys.
Proof.
  revert start. induction ys as [|y ys IH]; intro start; [reflexivity|].
  cbn [List.length seq combine map snd]. now rewrite IH.
Qed.

Lemma tracedBy_numbered trace sql values :
  tracedBy trace (Returned sql values) ->
  renderFrags trace = sql
  /\ map fst (placeholders trace) = seq 1 (List.length values)
  /\ map snd (placeholders trace) = values.
Proof.
  intros [Htext [added [Hval Hph]]]. cbn [app List.length] in Hval, Hph.
  subst added. rewrite Hph.
  now rewrite map_fst_combine_seq, map_snd_combine_seq.
Qed.

Lemma countChar_app c s t : countChar c (s ++ t) = countChar c s + countChar c t.
Proof.
  induction s as [|a s IH]; cbn [append countChar]; [reflexivity|].
  rewrite IH. lia.
Qed.

Lemma countChar_absent c s : includes c s = false -> countChar c s = 0.
Proof.
  induction s as [|a s IH]; cbn [includes countChar]; [reflexivity|].
  destruct (Ascii.eqb a c); cbn [orb]; [discriminate|].
  intro H. now rewrite IH.
Qed.

Lemma countChar_digits c (d : Decimal.uint) :
  includes c "0123456789" = false ->
  countChar c (NilEmpty.string_of_uint d) = 0.
Proof.
  cbn [includes]. intro H.
  repeat match type of H with
         | (?x || _)%bool = false =>
             let Hx := fresh "Hd" in
             apply orb_false_iff in H; destruct H as [Hx H]
         end.
  induction d; cbn [NilEmpty.string_of_uint countChar];
    rewrite ?Hd, ?Hd0, ?Hd1, ?Hd2, ?Hd3, ?Hd4, ?Hd5, ?Hd6, ?Hd7, ?Hd8;
    try assumption; reflexivity.
Qed.

Lemma countChar_showNat n : countChar "$" (showNat n) = 0.
Proof.
  unfold showNat, NilZero.string_of_uint.
  destruct (Nat.to_uint n) eqn:Hn; try reflexivity;
    rewrite <- Hn; apply countChar_digits; reflexivity.
Qed.

Lemma countChar_placeholders fs :
  forallb dollarFree fs = true ->
  countChar "$" (renderFrags fs) = List.length (placeholders fs).
Proof.
  induction fs as [|[text|index bound] fs IH];
    cbn [forallb dollarFree renderFrags renderFrag placeholders List.length];
    [reflexivity| |].
  - intro H. apply andb_true_iff in H. destruct H as [Htext Hfs].
    apply negb_true_iff in Htext.
    now rewrite countChar_app, (countChar_absent _ _ Htext), IH.
  - intro H. rewrite !countChar_app, countChar_showNat, IH by exact H.
    reflexivity.
Qed.

Lemma tracedBy_count trace sql values :
  tracedBy trace (Returned sql values) ->
  forallb dollarFree trace = true ->
  countChar "$" sql = List.length values.
Proof.
  intros H Hfree. destruct (tracedBy_numbered trace sql values H) as (<- & _ & Hv).
  rewrite countChar_placeholders by assumption.
  now rewrite <- Hv, length_map.
Qed.

(** C1.  Whenever [toSQL] returns [{sql, values}], the returned text is the
    erasure of a fragment sequence whose placeholders, read in text order,
    are numbered [1, 2, ..., values.length] by one counter running over the
    whole statement, and whose bound values, read in the same order, are
    exactly [values]: there are as many placeholders as values, and [$k]
    was written when [values[k-1]] was pushed.  When no literal text of the
    statement (identifiers, operators of joins, stringified IS values, limit
    and offset) holds a dollar sign, the returned text has exactly
    [values.length] dollar signs.  This holds for the filtering builder and
    for the join-aware builder. *)
Theorem toSQL_placeholders :
  (forall b sql values,
      Filtering.toSQL b = Returned sql values ->
      renderFrags (traceFiltering b) = sql
      /\ map fst (placeholders (traceFiltering b)) = seq 1 (List.length values)
      /\ map snd (placeholders (traceFiltering b)) = values
      /\ (forallb dollarFree (traceFiltering b) = true ->
          countChar "$" sql = List.length values))
  /\
  (forall b sql values,
      Joined.toSQL b = Returned sql values ->
      renderFrags (traceJoined b) = sql
      /\ map fst (placeholders (traceJoined b)) = seq 1 (List.length values)
      /\ map snd (placeholders (traceJoined b)) = values
      /\ (forallb dollarFree (traceJoined b) = true ->
          countChar "$" sql = List.length values)).
Proof.
  split; intros b sql values H.
  - pose proof (traceFiltering_traced b) as Ht. rewrite H in Ht.
    destruct (tracedBy_numbered _ _ _ Ht) as (H1 & H2 & H3).
    repeat split; try assumption. now apply tracedBy_count.
  - pose proof (traceJoined_traced b) as Ht. rewrite H in Ht.
    destruct (tracedBy_numbered _ _ _ Ht) as (H1 & H2 & H3).
    repeat split; try assumption. now apply tracedBy_count.
Qed.

Lemma toSQL_placeholders_witness :
  (renderFrags (traceJoined sampleUpdate)
     = "UPDATE " ++ dquote ++ "users" ++ dquote ++ " SET "
       ++ dquote ++ "name" ++ dquote ++ " = $1 WHERE "
       ++ dquote ++ "id" ++ dquote ++ " IN ($2, $3) OR "
       ++ dquote ++ "$9" ++ dquote ++ " > $4 RETURNING *"
   /\ map fst (placeholders (traceJoined sampleUpdate)) = seq 1 4
   /\ map snd (placeholders (traceJoined sampleUpdate))
      = [VStr "x"; VNum 1; VNum 2; VNum 7])
  /\
  countChar "$"
    ("INSERT INTO " ++ dquote ++ "t" ++ dquote
       ++ " (" ++ dquote ++ "a" ++ dquote ++ ", " ++ dquote ++ "b" ++ dquote
       ++ ") VALUES ($1, $2), ($3, $4) RETURNING *")
  = 4.
Proof.
  split.
  - destruct (proj2 toSQL_placeholders sampleUpdate
                ("UPDATE " ++ dquote ++ "users" ++ dquote ++ " SET "
                 ++ dquote ++ "name" ++ dquote ++ " = $1 WHERE "
                 ++ dquote ++ "id" ++ dquote ++ " IN ($2, $3) OR "
                 ++ dquote ++ "$9" ++ dquote ++ " > $4 RETURNING *")
                [VStr "x"; VNum 1; VNum 2; VNum 7])
      as (H1 & H2 & H3 & _).
    + vm_compute. reflexivity.
    + exact (conj H1 (conj H2 H3)).
  - destruct (proj2 toSQL_placeholders sampleInsert
                ("INSERT INTO " ++ dquote ++ "t" ++ dquote
                 ++ " (" ++ dquote ++ "a" ++ dquote ++ ", "
                 ++ dquote ++ "b" ++ dquote
                 ++ ") VALUES ($1, $2), ($3, $4) RETURNING *")
                [VNum 1; VNum 2; VNum 3; VNum 4])
      as (_ & _ & _ & Hcount).
    + vm_compute. reflexivity.
    + apply Hcount. vm_compute. reflexivity.
Defined.

(** ** Build-time errors *)

Ltac returned_not_thrown :=
  match goal with
  | H : exists _, Returned _ _ = Thrown _ |- _ =>
      destruct H as [? H]; discriminate H
  | H : exists _ _, Thrown _ = Returned _ _ |- _ =>
      destruct H as [? [? H]]; discriminate H
  end.

Lemma filtering_throws b :
  (exists message, Filtering.toSQL b = Thrown message) <-> filteringFault b.
Proof.
  destruct b as [table o data sel wh lim off ret].
  unfold Filtering.toSQL, filteringFault.
  cbn [Filtering._table Filtering._operation Filtering._data Filtering._select
       Filtering._where Filtering._limit Filtering._offset Filtering._returning].
  destruct o.
  - (* SELECT *)
    destruct (buildWhere _ wh []) as [w values].
    split; [intro; returned_not_thrown|].
    intros [[Hop _]|[Hop _]]; discriminate Hop.
  - (* INSERT *)
    destruct data as [|row|[|row rows]]; cbn [asArray].
    + split; [intros _; left; split; auto | intros _; eauto].
    + destruct (keysOf row) as [|key keys] eqn:Hk.
      * split; [intros _|intros _; eauto].
        left; split; [reflexivity|]. right; right. now exists row, [].
      * destruct (bindRows _ _ _) as [ph values].
        split; [intro; returned_not_thrown|].
        intros [[_ [H|[H|(f & r & Ha & Hf)]]]|[Hop _]];
          try discriminate.
        injection Ha as -> _. congruence.
    + split; [intros _; left; split; auto | intros _; eauto].
    + destruct (keysOf row) as [|key keys] eqn:Hk.
      * split; [intros _|intros _; eauto].
        left; split; [reflexivity|]. right; right. now exists row, rows.
      * destruct (bindRows _ _ _) as [ph values].
        split; [intro; returned_not_thrown|].
        intros [[_ [H|[H|(f & r & Ha & Hf)]]]|[Hop _]];
          try discriminate.
        injection Ha as -> _. congruence.
  - (* UPDATE *)
    destruct data as [|row|rows].
    + split; [intros _; right; split; auto | intros _; eauto].
    + destruct (keysOf (dataProps (DOne row))) as [|key keys] eqn:Hk.
      * split; [intros _; right; split; auto | intros _; eauto].
      * destruct (renderSet _ _ _ _) as [sets values].
        destruct (buildWhere _ wh values) as [w values'].
        split; [intro; returned_not_thrown|].
        intros [[Hop _]|[_ [H|H]]]; discriminate.
    + destruct (keysOf (dataProps (DMany rows))) as [|key keys] eqn:Hk.
      * split; [intros _; right; split; auto | intros _; eauto].
      * destruct (renderSet _ _ _ _) as [sets values].
        destruct (buildWhere _ wh values) as [w values'].
        split; [intro; returned_not_thrown|].
        intros [[Hop _]|[_ [H|H]]]; discriminate.
  - (* DELETE *)
    destruct (buildWhere _ wh []) as [w values].
    split; [intro; returned_not_thrown|].
    intros [[Hop _]|[Hop _]]; discriminate Hop.
Qed.

Lemma joined_throws b :
  (exists message, Joined.toSQL b = Thrown message) <-> joinedFault b.
Proof.
  destruct b as [table o data sel wh joins lim off ret].
  unfold Joined.toSQL, joinedFault.
  cbn [Joined._table Joined._operation Joined._data Joined._select
       Joined._where Joined._joins Joined._limit Joined._offset
       Joined._returning].
  destruct o.
  - (* SELECT *)
    destruct (buildWhere _ wh []) as [w values].
    split; [intro; returned_not_thrown|].
    intros [[Hop _]|[[Hop _]|[Hop _]]]; congruence.
  - (* INSERT *)
    destruct joins as [|j joins].
    2:{ split; [intros _|intros _; eauto].
        right; right. split; discriminate. }
    destruct data as [|row|[|row rows]]; cbn [asArray].
    + split; [intros _; left; split; auto | intros _; eauto].
    + destruct (keysOf row) as [|key keys] eqn:Hk.
      * split; [intros _|intros _; eauto].
        left; split; [reflexivity|]. right; right. now exists row, [].
      * destruct (bindRows _ _ _) as [ph values].
        split; [intro; returned_not_thrown|].
        intros [[_ [H|[H|(f & r & Ha & Hf)]]]|[[Hop _]|[_ Hj]]];
          try discriminate; congruence.
    + split; [intros _; left; split; auto | intros _; eauto].
    + destruct (keysOf row) as [|key keys] eqn:Hk.
      * split; [intros _|intros _; eauto].
        left; split; [reflexivity|]. right; right. now exists row, rows.
      * destruct (bindRows _ _ _) as [ph values].
        split; [intro; returned_not_thrown|].
        intros [[_ [H|[H|(f & r & Ha & Hf)]]]|[[Hop _]|[_ Hj]]];
          try discriminate; congruence.
  - (* UPDATE *)
    destruct joins as [|j joins].
    2:{ split; [intros _|intros _; eauto].
        right; right. split; discriminate. }
    destruct data as [|row|rows].
    + split; [intros _; right; left; split; auto | intros _; eauto].
    + destruct (keysOf (dataProps (DOne row))) as [|key keys] eqn:Hk.
      * split; [intros _; right; left; split; auto | intros _; eauto].
      * destruct (renderSet _ _ _ _) as [sets values].
        destruct (buildWhere _ wh values) as [w values'].
        split; [intro; returned_not_thrown|].
        intros [[Hop _]|[[_ [H|H]]|[_ Hj]]]; try discriminate; congruence.
    + destruct (keysOf (dataProps (DMany rows))) as [|key keys] eqn:Hk.
      * split; [intros _; right; left; split; auto | intros _; eauto].
      * destruct (renderSet _ _ _ _) as [sets values].
        destruct (buildWhere _ wh values) as [w values'].
        split; [intro; returned_not_thrown|].
        intros [[Hop _]|[[_ [H|H]]|[_ Hj]]]; try discriminate; congruence.
  - (* DELETE *)
    destruct joins as [|j joins].
    2:{ split; [intros _|intros _; eauto].
        right; right. split; discriminate. }
    destruct (buildWhere _ wh []) as [w values].
    split; [intro; returned_not_thrown|].
    intros [[Hop _]|[[Hop _]|[_ Hj]]]; congruence.
Qed.

Lemma returned_iff_not_thrown (o : Outcome) :
  (exists sql values, o = Returned sql values)
  <-> ~ (exists message, o = Thrown message).
Proof.
  destruct o as [sql values|message]; split.
  - intros _ [m H]. discriminate H.
  - eauto.
  - intros [s [v H]]. discriminate H.
  - intro H. exfalso. apply H. eauto.
Qed.

(** C2.  [toSQL] throws exactly when the statement is an INSERT without
    payload, with an empty payload array or with a first record without
    keys, an UPDATE without payload or with a payload without keys, or (in
    the join-aware builder) an INSERT, UPDATE or DELETE that carries a join;
    in every other case it returns [{sql, values}].  An outcome is either
    the thrown message or the complete returned object, never both and never
    a part of the latter. *)
Theorem toSQL_throws_exactly :
  (forall b,
      ((exists message, Filtering.toSQL b = Thrown message) <-> filteringFault b)
      /\ ((exists sql values, Filtering.toSQL b = Returned sql values)
          <-> ~ filteringFault b))
  /\
  (forall b,
      ((exists message, Joined.toSQL b = Thrown message) <-> joinedFault b)
      /\ ((exists sql values, Joined.toSQL b = Returned sql values)
          <-> ~ joinedFault b)).
Proof.
  split; intro b; (split; [|rewrite returned_iff_not_thrown]).
  - apply filtering_throws.
  - now rewrite filtering_throws.
  - apply joined_throws.
  - now rewrite joined_throws.
Qed.

(** ** What the binding traversals produce *)

Lemma dollars_cons first count :
  dollars first (S count) = ("$" ++ showNat first) :: dollars (S first) count.
Proof. reflexivity. Qed.

Lemma bindValue_eq v values :
  bindValue v values
  = ("$" ++ showNat (S (List.length values)), (values ++ [v])%list).
Proof. unfold bindValue. now rewrite push_length. Qed.

Lemma bindAll_eq items : forall values,
  bindAll items values
  = (dollars (S (List.length values)) (List.length items),
     (values ++ items)%list).
Proof.
  induction items as [|v rest IH]; intro values; cbn [bindAll].
  - now rewrite app_nil_r.
  - rewrite bindValue_eq, IH, length_app, <- app_assoc.
    cbn [List.length app]. rewrite dollars_cons.
    now replace (List.length values + 1) with (S (List.length values)) by lia.
Qed.

Lemma cellsOf_cons keys row rows :
  cellsOf keys (row :: rows)
  = (map (fun key => getProp key row) keys ++ cellsOf keys rows)%list.
Proof. reflexivity. Qed.

Lemma bindRows_eq keys rows : forall values,
  bindRows keys rows values
  = (map (fun i => "(" ++ join ", " (dollars (S (List.length values
                                                 + i * List.length keys))
                                             (List.length keys)) ++ ")")
         (seq 0 (List.length rows)),
     (values ++ cellsOf keys rows)%list).
Proof.
  induction rows as [|row rest IH]; intro values; cbn [bindRows].
  - unfold cellsOf. cbn [flat_map]. now rewrite app_nil_r.
  - rewrite bindAll_eq, IH, length_map, cellsOf_cons, <- app_assoc.
    f_equal. cbn [List.length seq map]. f_equal.
    + now rewrite Nat.mul_0_l, Nat.add_0_r.
    + rewrite <- seq_shift, map_map. apply map_ext. intro i.
      rewrite length_app, length_map.
      now replace (List.length values + List.length keys
                   + i * List.length keys)
        with (List.length values + S i * List.length keys) by lia.
Qed.

Lemma bindRows_tuples keys rows :
  bindRows keys rows []
  = (tuples (List.length keys) (List.length rows), cellsOf keys rows).
Proof. now rewrite bindRows_eq. Qed.

Section RenderingFacts.

Variable renderIdent : string -> string.

Lemma renderSet_eq data updateKeys : forall values,
  renderSet renderIdent data updateKeys values
  = (map (fun ik => renderIdent (snd ik) ++ " = $" ++ showNat (fst ik))
         (combine (seq (S (List.length values)) (List.length updateKeys))
                  updateKeys),
     (values ++ map (fun key => getProp key data) updateKeys)%list).
Proof.
  induction updateKeys as [|key rest IH]; intro values; cbn [renderSet].
  - now rewrite app_nil_r.
  - rewrite bindValue_eq, IH, length_app, <- app_assoc.
    cbn [List.length seq combine map fst snd app].
    now replace (List.length values + 1) with (S (List.length values)) by lia.
Qed.


Lemma renderClauses_later clauses : forall index values,
  fst (renderClauses renderIdent (S index) clauses values)
  = map (fun tc => connectiveText (fst tc) ++ " " ++ snd tc)
        (combine (map wtype clauses)
                 (conditionsOf renderIdent clauses values)).
Proof.
  induction clauses as [|clause rest IH]; intros index values;
    cbn [renderClauses conditionsOf map]; [reflexivity|].
  destruct (renderCondition renderIdent clause values) as [c values1].
  specialize (IH (S index) values1).
  destruct (renderClauses renderIdent (S (S index)) rest values1).
  cbn [fst snd combine map Nat.eqb] in *. now rewrite IH.
Qed.

Lemma join_chainRest (cs : list (Connective * string)) (first : string) :
  join " " (first :: map (fun tc => connectiveText (fst tc) ++ " " ++ snd tc) cs)
  = first ++ chainRest cs.
Proof.
  revert first. unfold join.
  induction cs as [|[type condition] rest IH]; intro first.
  - cbn [map String.concat chainRest]. now rewrite sappend_nil_r.
  - cbn [map fst snd chainRest].
    change (String.concat " " (first :: ?x :: ?xs))
      with (first ++ " " ++ String.concat " " (x :: xs)).
    rewrite IH. now rewrite !sappend_assoc.
Qed.

Lemma buildWhere_chain clause rest values :
  fst (buildWhere renderIdent (clause :: rest) values)
  = " WHERE "
    ++ chain (combine (map wtype (clause :: rest))
                      (conditionsOf renderIdent (clause :: rest) values)).
Proof.
  unfold buildWhere. cbn [renderClauses conditionsOf map Nat.eqb].
  destruct (renderCondition renderIdent clause values) as [c values1].
  pose proof (renderClauses_later rest 0 values1) as Hrest.
  destruct (renderClauses renderIdent 1 rest values1) as [texts values2].
  cbn [fst snd combine chain] in *. rewrite Hrest.
  now rewrite join_chainRest.
Qed.

End RenderingFacts.

(** ** The text of each kind of statement *)

Lemma tail_flag (flag : bool) (sql text : string) :
  (if flag then sql ++ text else sql) = sql ++ (if flag then text else EmptyString).
Proof. destruct flag; [reflexivity | now rewrite sappend_nil_r]. Qed.

Lemma joined_select_sql b :
  Joined._operation b = SELECT ->
  Joined.toSQL b
  = Returned
      (Joined.paginate b
         (("SELECT "
             ++ match Joined._select b with
                | [] => "*"
                | _ => join ", " (map Joined._quote (Joined._select b))
                end
             ++ " FROM " ++ Joined._quote (Joined._table b))
            ++ Joined.buildJoins (Joined._joins b)
            ++ fst (buildWhere Joined._quote (Joined._where b) [])))
      (snd (buildWhere Joined._quote (Joined._where b) [])).
Proof.
  intro Hop. unfold Joined.toSQL. rewrite Hop.
  destruct (buildWhere Joined._quote (Joined._where b) []) as [w values].
  cbn [fst snd]. now rewrite !sappend_assoc.
Qed.

Lemma joined_insert_sql b firstRow rest :
  Joined._operation b = INSERT ->
  Joined._joins b = [] ->
  asArray (Joined._data b) = firstRow :: rest ->
  keysOf firstRow <> [] ->
  Joined.toSQL b
  = Returned
      ("INSERT INTO " ++ Joined._quote (Joined._table b)
         ++ " (" ++ join ", " (map Joined._quote (keysOf firstRow))
         ++ ") VALUES "
         ++ join ", " (tuples (List.length (keysOf firstRow))
                              (S (List.length rest)))
         ++ (if Joined._returning b then " RETURNING *" else EmptyString))
      (cellsOf (keysOf firstRow) (firstRow :: rest)).
Proof.
  intros Hop Hjoins Hdata Hkeys. unfold Joined.toSQL.
  rewrite Hop, Hjoins.
  destruct (Joined._data b) as [|row|rows]; [discriminate Hdata| |];
    rewrite Hdata;
    (destruct (keysOf firstRow) as [|key keys] eqn:Hk; [now elim Hkeys|]);
    rewrite bindRows_tuples, tail_flag; cbn [List.length];
    now rewrite !sappend_assoc.
Qed.

Lemma joined_update_sql b :
  Joined._operation b = UPDATE ->
  Joined._joins b = [] ->
  Joined._data b <> DNull ->
  keysOf (dataProps (Joined._data b)) <> [] ->
  let updateKeys := keysOf (dataProps (Joined._data b)) in
  let bound := map (fun key => getProp key (dataProps (Joined._data b)))
                   updateKeys in
  Joined.toSQL b
  = Returned
      ("UPDATE " ++ Joined._quote (Joined._table b) ++ " SET "
         ++ join ", "
              (map (fun ik => Joined._quote (snd ik) ++ " = $" ++ showNat (fst ik))
                   (combine (seq 1 (List.length updateKeys)) updateKeys))
         ++ fst (buildWhere Joined._quote (Joined._where b) bound)
         ++ (if Joined._returning b then " RETURNING *" else EmptyString))
      (snd (buildWhere Joined._quote (Joined._where b) bound)).
Proof.
  intros Hop Hjoins Hdata Hkeys updateKeys bound. subst updateKeys bound.
  unfold Joined.toSQL. rewrite Hop, Hjoins.
  destruct (Joined._data b) as [|row|rows] eqn:Hd; [now elim Hdata| |];
    (destruct (keysOf (dataProps _)) as [|key keys] eqn:Hk; [now elim Hkeys|]);
    rewrite renderSet_eq; cbn [List.length app];
    match goal with
    | |- context [buildWhere ?q ?wh ?vs] =>
        destruct (buildWhere q wh vs) as [w values]
    end;
    cbn [fst snd]; rewrite tail_flag;
    now rewrite !sappend_assoc.
Qed.

Lemma joined_delete_sql b :
  Joined._operation b = DELETE ->
  Joined._joins b = [] ->
  Joined.toSQL b
  = Returned
      ("DELETE FROM " ++ Joined._quote (Joined._table b)
         ++ fst (buildWhere Joined._quote (Joined._where b) [])
         ++ (if Joined._returning b then " RETURNING *" else EmptyString))
      (snd (buildWhere Joined._quote (Joined._where b) [])).
Proof.
  intros Hop Hjoins. unfold Joined.toSQL. rewrite Hop, Hjoins.
  destruct (buildWhere Joined._quote (Joined._where b) []) as [w values].
  cbn [fst snd]. rewrite tail_flag. now rewrite !sappend_assoc.
Qed.

(** The filtering builder writes the identifiers as given, and after
    RETURNING the projection of [select()], which is [*] only when no column
    was selected. *)
Lemma filtering_insert_sql b firstRow rest :
  Filtering._operation b = INSERT ->
  asArray (Filtering._data b) = firstRow :: rest ->
  keysOf firstRow <> [] ->
  Filtering.toSQL b
  = Returned
      ("INSERT INTO " ++ Filtering._table b
         ++ " (" ++ join ", " (keysOf firstRow) ++ ") VALUES "
         ++ join ", " (tuples (List.length (keysOf firstRow))
                              (S (List.length rest)))
         ++ (if Filtering._returning b
             then " RETURNING "
                  ++ match Filtering._select b with
                     | [] => "*"
                     | _ => join ", " (Filtering._select b)
                     end
             else EmptyString))
      (cellsOf (keysOf firstRow) (firstRow :: rest)).
Proof.
  intros Hop Hdata Hkeys. unfold Filtering.toSQL. rewrite Hop.
  destruct (Filtering._data b) as [|row|rows]; [discriminate Hdata| |];
    rewrite Hdata;
    (destruct (keysOf firstRow) as [|key keys] eqn:Hk; [now elim Hkeys|]);
    rewrite bindRows_tuples, tail_flag; cbn [List.length];
    now rewrite !sappend_assoc.
Qed.

Lemma filtering_select_sql b :
  Filtering._operation b = SELECT ->
  Filtering.toSQL b
  = Returned
      (Filtering.paginate b
         (("SELECT "
             ++ match Filtering._select b with
                | [] => "*"
                | _ => join ", " (Filtering._select b)
                end
             ++ " FROM " ++ Filtering._table b)
            ++ fst (buildWhere (fun c => c) (Filtering._where b) [])))
      (snd (buildWhere (fun c => c) (Filtering._where b) [])).
Proof.
  intro Hop. unfold Filtering.toSQL. rewrite Hop.
  destruct (buildWhere (fun c => c) (Filtering._where b) []) as [w values].
  reflexivity.
Qed.

(** ** IN and NOT IN *)

(** C3.  A clause whose operator is IN or NOT IN and whose value is a
    non-empty array is rendered as the column, the operator and the
    parenthesised placeholders of its elements, which are appended to the
    parameter list in array order, one each; with an empty array it is
    rendered as [1=0] for IN and [1=1] for NOT IN and leaves the parameter
    list as it was.  The empty case is no error: [where({col: {in: []}})]
    and [where({col: {notIn: []}})] on a new builder compile, in both
    revisions. *)
Theorem in_list_rendering :
  (forall renderIdent type col item items values,
      renderCondition renderIdent
        (mkClause type col OpIn (VArr (item :: items))) values
      = (renderIdent col ++ " IN ("
           ++ join ", " (dollars (S (List.length values))
                                 (S (List.length items))) ++ ")",
         (values ++ item :: items)%list))
  /\
  (forall renderIdent type col item items values,
      renderCondition renderIdent
        (mkClause type col OpNotIn (VArr (item :: items))) values
      = (renderIdent col ++ " NOT IN ("
           ++ join ", " (dollars (S (List.length values))
                                 (S (List.length items))) ++ ")",
         (values ++ item :: items)%list))
  /\
  (forall renderIdent type col values,
      renderCondition renderIdent (mkClause type col OpIn (VArr [])) values
      = ("1=0", values)
      /\ renderCondition renderIdent (mkClause type col OpNotIn (VArr [])) values
         = ("1=1", values))
  /\
  (forall table col,
      Filtering.toSQL
        (Filtering.where_ [(col, VObj [("in", VArr [])])]
           (Filtering.create table))
      = Returned ("SELECT * FROM " ++ table ++ " WHERE 1=0") []
      /\ Filtering.toSQL
           (Filtering.where_ [(col, VObj [("notIn", VArr [])])]
              (Filtering.create table))
         = Returned ("SELECT * FROM " ++ table ++ " WHERE 1=1") [])
  /\
  (forall table col,
      Joined.toSQL
        (Joined.where_ [(col, VObj [("in", VArr [])])] (Joined.create table))
      = Returned ("SELECT * FROM " ++ Joined._quote table ++ " WHERE 1=0") []
      /\ Joined.toSQL
           (Joined.where_ [(col, VObj [("notIn", VArr [])])]
              (Joined.create table))
         = Returned ("SELECT * FROM " ++ Joined._quote table ++ " WHERE 1=1") []).
Proof.
  repeat apply conj.
  - intros. unfold renderCondition. cbn [operator value column operatorText].
    rewrite bindAll_eq. reflexivity.
  - intros. unfold renderCondition. cbn [operator value column operatorText].
    rewrite bindAll_eq. reflexivity.
  - intros. split; reflexivity.
  - intros. split; cbn; now rewrite ?sappend_assoc, ?sappend_nil_r.
  - intros. split; cbn; now rewrite ?sappend_assoc, ?sappend_nil_r.
Qed.

(** ** INSERT *)

(** C4, as stated, fails in [src/query/builder.ts] once a projection was
    selected: the returning flag is set by [insert()], yet what follows
    RETURNING is the projection, not [*]. *)
Lemma filtering_insert_returns_projection :
  Filtering._returning sampleProjectedInsert = true
  /\ Filtering.toSQL sampleProjectedInsert
     = Returned "INSERT INTO t (a) VALUES ($1) RETURNING id" [VNum 1]
  /\ Filtering.toSQL sampleProjectedInsert
     <> Returned "INSERT INTO t (a) VALUES ($1) RETURNING *" [VNum 1].
Proof. repeat split. discriminate. Qed.

(** C4, amended.  An INSERT (without joins, in the join-aware builder) whose
    payload has a first record with at least one key compiles to
    [INSERT INTO <table> (<cols>) VALUES <tuples>]: the columns are the keys
    of the first record in their own order (each quoted in the join-aware
    builder, as given in [src/query/builder.ts]); there is one tuple per
    record; the cells [row[key]] are bound in column order within record
    order, so that tuple [i] holds the placeholders of cells
    [i * width + 1 .. i * width + width].  When the returning flag is set,
    and [insert()] sets it, the join-aware builder appends [ RETURNING *]
    and [src/query/builder.ts] appends [ RETURNING ] and the projection of
    [select()], which is [*] when no column was selected. *)
Theorem insert_statement :
  (forall b firstRow rest,
      Joined._operation b = INSERT ->
      Joined._joins b = [] ->
      asArray (Joined._data b) = firstRow :: rest ->
      keysOf firstRow <> [] ->
      Joined.toSQL b
      = Returned
          ("INSERT INTO " ++ Joined._quote (Joined._table b)
             ++ " (" ++ join ", " (map Joined._quote (keysOf firstRow))
             ++ ") VALUES "
             ++ join ", " (tuples (List.length (keysOf firstRow))
                                  (S (List.length rest)))
             ++ (if Joined._returning b then " RETURNING *" else EmptyString))
          (cellsOf (keysOf firstRow) (firstRow :: rest)))
  /\
  (forall data b,
      Joined._operation (Joined.insert data b) = INSERT
      /\ Joined._data (Joined.insert data b) = data
      /\ Joined._returning (Joined.insert data b) = true)
  /\
  (forall b firstRow rest,
      Filtering._operation b = INSERT ->
      asArray (Filtering._data b) = firstRow :: rest ->
      keysOf firstRow <> [] ->
      Filtering.toSQL b
      = Returned
          ("INSERT INTO " ++ Filtering._table b
             ++ " (" ++ join ", " (keysOf firstRow) ++ ") VALUES "
             ++ join ", " (tuples (List.length (keysOf firstRow))
                                  (S (List.length rest)))
             ++ (if Filtering._returning b
                 then " RETURNING "
                      ++ match Filtering._select b with
                         | [] => "*"
                         | _ => join ", " (Filtering._select b)
                         end
                 else EmptyString))
          (cellsOf (keysOf firstRow) (firstRow :: rest)))
  /\
  (forall data b,
      Filtering._operation (Filtering.insert data b) = INSERT
      /\ Filtering._data (Filtering.insert data b) = data
      /\ Filtering._returning (Filtering.insert data b) = true).
Proof.
  repeat apply conj.
  - apply joined_insert_sql.
  - intros data b. repeat split.
  - apply filtering_insert_sql.
  - intros data b. repeat split.
Qed.

Lemma insert_statement_witness :
  Joined.toSQL sampleInsert
  = Returned
      ("INSERT INTO " ++ dquote ++ "t" ++ dquote
         ++ " (" ++ dquote ++ "a" ++ dquote ++ ", " ++ dquote ++ "b" ++ dquote
         ++ ") VALUES ($1, $2), ($3, $4) RETURNING *")
      [VNum 1; VNum 2; VNum 3; VNum 4].
Proof.
  apply (proj1 insert_statement sampleInsert
           [("a", VNum 1); ("b", VNum 2)] [[("a", VNum 3); ("b", VNum 4)]]).
  - reflexivity.
  - reflexivity.
  - reflexivity.
  - discriminate.
Defined.

(** ** Connectives *)

Lemma addWhere_carries type conditions wh :
  exists added,
    _addWhere type conditions wh = (wh ++ added)%list
    /\ Forall (fun clause => wtype clause = type) added.
Proof.
  exists (flat_map (expandedEntry type) conditions). split.
  - apply addWhere_expanded.
  - induction conditions as [|entry rest IH]; cbn [flat_map]; [constructor|].
    apply Forall_app. split; [|assumption].
    eapply Forall_impl; [|apply expandedEntry_type]. now intros c [H _].
Qed.


(** ** Readings of a chain *)










(** ** IS and IS NOT *)

(** C8.  A clause whose operator is IS or IS NOT is rendered as the column,
    the operator and the literal [NULL] when its value is [null], the
    stringified value otherwise; the parameter list is left as it was.
    [where({x: null})] appends one such clause, and on a new builder the
    statement is [SELECT * FROM <table> WHERE <x> IS NULL] with no
    parameter (the join-aware builder quotes table and column). *)
Theorem is_null_rendering :
  (forall renderIdent type col val values,
      renderCondition renderIdent (mkClause type col OpIs val) values
      = (renderIdent col ++ " IS "
           ++ match val with VNull => "NULL" | _ => jsString val end,
         values)
      /\ renderCondition renderIdent (mkClause type col OpIsNot val) values
         = (renderIdent col ++ " IS NOT "
              ++ match val with VNull => "NULL" | _ => jsString val end,
            values))
  /\
  (forall type x wh,
      _addWhere type [(x, VNull)] wh = (wh ++ [mkClause type x OpIs VNull])%list)
  /\
  (forall table x,
      Filtering.toSQL (Filtering.where_ [(x, VNull)] (Filtering.create table))
      = Returned ("SELECT * FROM " ++ table ++ " WHERE " ++ x ++ " IS NULL") [])
  /\
  (forall table x,
      Joined.toSQL (Joined.where_ [(x, VNull)] (Joined.create table))
      = Returned ("SELECT * FROM " ++ Joined._quote table
                    ++ " WHERE " ++ Joined._quote x ++ " IS NULL") []).
Proof.
  repeat apply conj.
  - intros. split; unfold renderCondition;
      cbn [operator value column operatorText]; destruct val; reflexivity.
  - reflexivity.
  - intros. cbn. now rewrite ?sappend_assoc, ?sappend_nil_r.
  - intros. cbn. now rewrite ?sappend_assoc, ?sappend_nil_r.
Qed.

(** ** Repeated compilation *)

Section ImperativeFacts.

Variable B : Type.
Variable renderIdent : string -> string.
Variable _where : B -> list WhereClause.
Variable _data : B -> Data.

Lemma placeholder_run v (s : Imperative.Store B) :
  Imperative.placeholder v s
  = (Imperative.mkStore (Imperative.this s)
       (snd (bindValue v (Imperative.values s))) (Imperative.sql s),
     Imperative.Normal (fst (bindValue v (Imperative.values s)))).
Proof. reflexivity. Qed.

Lemma placeholders_run items : forall index (s : Imperative.Store B),
  Imperative.mapFrom (fun v _ => Imperative.placeholder v) index items s
  = (Imperative.mkStore (Imperative.this s)
       (snd (bindAll items (Imperative.values s))) (Imperative.sql s),
     Imperative.Normal (fst (bindAll items (Imperative.values s)))).
Proof.
  induction items as [|v rest IH]; intros index s;
    cbn [Imperative.mapFrom bindAll]; [now destruct s|].
  unfold Imperative.bind at 1. rewrite placeholder_run.
  unfold Imperative.bind at 1. rewrite IH.
  cbn [Imperative.this Imperative.values Imperative.sql].
  destruct (bindValue v (Imperative.values s)) as [p values1].
  cbn [fst snd]. destruct (bindAll rest values1) as [ps values2].
  reflexivity.
Qed.

Lemma whereCallback_run clause index (s : Imperative.Store B) :
  Imperative.whereCallback B renderIdent clause index s
  = (Imperative.mkStore (Imperative.this s)
       (snd (renderCondition renderIdent clause (Imperative.values s)))
       (Imperative.sql s),
     Imperative.Normal
       (if Nat.eqb index 0
        then fst (renderCondition renderIdent clause (Imperative.values s))
        else connectiveText (wtype clause) ++ " "
               ++ fst (renderCondition renderIdent clause
                         (Imperative.values s)))).
Proof.
  destruct clause as [type col o val].
  unfold Imperative.whereCallback, renderCondition.
  cbn [operator value column wtype].
  destruct o;
    try (unfold Imperative.bind, Imperative.pushValue, Imperative.valuesLength,
           Imperative.ret, bindValue;
         cbn [Imperative.this Imperative.values Imperative.sql fst snd];
         destruct (Nat.eqb index 0); destruct s; reflexivity).
  all: destruct val as [| | | | | |[|item items]|];
    try (unfold Imperative.bind, Imperative.ret;
         destruct (Nat.eqb index 0); destruct s; reflexivity).
  all: unfold Imperative.bind at 1; unfold Imperative.bind at 1;
    unfold Imperative.mapArray; rewrite placeholders_run;
    destruct (bindAll (item :: items) (Imperative.values s)) as [ps values1];
    cbn [fst snd]; unfold Imperative.ret;
    destruct (Nat.eqb index 0); reflexivity.
Qed.

Lemma whereClauses_run clauses : forall index (s : Imperative.Store B),
  Imperative.mapFrom (Imperative.whereCallback B renderIdent) index clauses s
  = (Imperative.mkStore (Imperative.this s)
       (snd (renderClauses renderIdent index clauses (Imperative.values s)))
       (Imperative.sql s),
     Imperative.Normal
       (fst (renderClauses renderIdent index clauses (Imperative.values s)))).
Proof.
  induction clauses as [|clause rest IH]; intros index s;
    cbn [Imperative.mapFrom renderClauses]; [now destruct s|].
  unfold Imperative.bind at 1. rewrite whereCallback_run.
  unfold Imperative.bind at 1. rewrite IH.
  cbn [Imperative.this Imperative.values Imperative.sql].
  destruct (renderCondition renderIdent clause (Imperative.values s))
    as [condition values1].
  cbn [fst snd].
  destruct (renderClauses renderIdent (S index) rest values1)
    as [texts values2].
  reflexivity.
Qed.

Lemma buildWhere_run (s : Imperative.Store B) :
  Imperative.buildWhere B renderIdent _where s
  = (Imperative.mkStore (Imperative.this s)
       (snd (buildWhere renderIdent (_where (Imperative.this s))
               (Imperative.values s)))
       (Imperative.sql s),
     Imperative.Normal
       (fst (buildWhere renderIdent (_where (Imperative.this s))
               (Imperative.values s)))).
Proof.
  unfold Imperative.buildWhere, buildWhere.
  unfold Imperative.bind at 1. unfold Imperative.read at 1.
  destruct (_where (Imperative.this s)) as [|clause rest] eqn:Hwh;
    [now destruct s|].
  unfold Imperative.bind at 1. unfold Imperative.read at 1. rewrite Hwh.
  unfold Imperative.bind at 1. rewrite whereClauses_run.
  destruct (renderClauses renderIdent 0 (clause :: rest) (Imperative.values s))
    as [texts values1].
  reflexivity.
Qed.

Lemma setClauses_run updateKeys : forall index (s : Imperative.Store B),
  Imperative.mapFrom
    (fun key _ => Imperative.setCallback B renderIdent _data key)
    index updateKeys s
  = (Imperative.mkStore (Imperative.this s)
       (snd (renderSet renderIdent (dataProps (_data (Imperative.this s)))
               updateKeys (Imperative.values s)))
       (Imperative.sql s),
     Imperative.Normal
       (fst (renderSet renderIdent (dataProps (_data (Imperative.this s)))
               updateKeys (Imperative.values s)))).
Proof.
  induction updateKeys as [|key rest IH]; intros index s;
    cbn [Imperative.mapFrom renderSet]; [now destruct s|].
  unfold Imperative.bind at 1.
  unfold Imperative.setCallback at 1.
  unfold Imperative.bind at 1, Imperative.read at 1.
  unfold Imperative.bind at 1, Imperative.pushValue at 1.
  unfold Imperative.bind at 1, Imperative.valuesLength at 1.
  unfold Imperative.ret at 1.
  unfold Imperative.bind at 1. rewrite IH.
  cbn [Imperative.this Imperative.values Imperative.sql].
  unfold bindValue.
  destruct (renderSet renderIdent (dataProps (_data (Imperative.this s))) rest
              (push (Imperative.values s)
                 (getProp key (dataProps (_data (Imperative.this s))))))
    as [sets values2].
  reflexivity.
Qed.

Lemma mapFrom_map {A A' A'' : Type} (g : A -> A')
    (callback : A' -> Imperative.Exec B A'') array : forall index,
  Imperative.mapFrom (fun x (_ : nat) => callback (g x)) index array
  = Imperative.mapFrom (fun y (_ : nat) => callback y) index (map g array).
Proof.
  induction array as [|x rest IH]; intro index;
    cbn [Imperative.mapFrom map]; [reflexivity|].
  now rewrite IH.
Qed.

Lemma rows_run keys rows : forall index (s : Imperative.Store B),
  Imperative.mapFrom (fun row _ => Imperative.rowCallback B keys row)
    index rows s
  = (Imperative.mkStore (Imperative.this s)
       (snd (bindRows keys rows (Imperative.values s))) (Imperative.sql s),
     Imperative.Normal (fst (bindRows keys rows (Imperative.values s)))).
Proof.
  induction rows as [|row rest IH]; intros index s;
    cbn [Imperative.mapFrom bindRows]; [now destruct s|].
  unfold Imperative.bind at 1.
  unfold Imperative.rowCallback at 1.
  unfold Imperative.bind at 1. unfold Imperative.mapArray.
  rewrite (mapFrom_map (fun key => getProp key row) Imperative.placeholder).
  rewrite placeholders_run.
  destruct (bindAll (map (fun key => getProp key row) keys)
              (Imperative.values s)) as [rowPlaceholders values1].
  cbn [fst snd]. unfold Imperative.ret at 1.
  unfold Imperative.bind at 1. rewrite IH.
  cbn [Imperative.this Imperative.values Imperative.sql].
  destruct (bindRows keys rest values1) as [placeHolders values2].
  reflexivity.
Qed.

End ImperativeFacts.

Lemma toSQL_run b vs text :
  Imperative.toSQL (Imperative.mkStore b vs text)
  = match Filtering.toSQL b with
    | Returned sql values =>
        (Imperative.mkStore b values sql, Imperative.Normal (sql, values))
    | Thrown message =>
        (Imperative.mkStore b [] EmptyString, Imperative.Abrupt message)
    end.
Proof.
  destruct b as [table o data sel wh lim off ret].
  unfold Imperative.toSQL, Filtering.toSQL, Filtering.paginate.
  unfold Imperative.bind at 1. unfold Imperative.read at 1.
  unfold Imperative.bind at 1. unfold Imperative.declareLocals at 1.
  unfold Imperative.bind at 1. unfold Imperative.read at 1.
  cbn [Imperative.this Imperative.values Imperative.sql
       Filtering._table Filtering._operation Filtering._data
       Filtering._select Filtering._where Filtering._limit
       Filtering._offset Filtering._returning].
  destruct o.
  - unfold Imperative.bind at 1.
    unfold Imperative.bind at 1. unfold Imperative.read at 1.
    unfold Imperative.bind at 1. unfold Imperative.assignSql at 1.
    unfold Imperative.bind at 1. rewrite buildWhere_run.
    cbn [Imperative.this Imperative.values Imperative.sql Filtering._where].
    destruct (buildWhere (fun c => c) wh []) as [w values].
    cbn [fst snd].
    unfold Imperative.bind, Imperative.appendSql, Imperative.read,
      Imperative.returnLocals, Imperative.ret.
    cbn [Imperative.this Imperative.values Imperative.sql
         Filtering._limit Filtering._offset].
    destruct lim, off; reflexivity.
  - unfold Imperative.bind at 1.
    unfold Imperative.bind at 1. unfold Imperative.read at 1.
    cbn [Imperative.this Filtering._data].
    destruct data as [|row|rows]; [reflexivity| |];
      (destruct (asArray _) as [|firstRow others] eqn:Harr; [reflexivity|];
       destruct (keysOf firstRow) as [|key keys] eqn:Hkeys; [reflexivity|];
       unfold Imperative.bind at 1; unfold Imperative.mapArray;
       rewrite rows_run;
       cbn [Imperative.this Imperative.values Imperative.sql];
       destruct (bindRows (key :: keys) (firstRow :: others) [])
         as [placeHolders values];
       cbn [fst snd];
       unfold Imperative.bind, Imperative.appendSql, Imperative.assignSql,
         Imperative.read, Imperative.returnLocals, Imperative.ret;
       cbn [Imperative.this Imperative.values Imperative.sql
            Filtering._table Filtering._returning];
       destruct ret; reflexivity).
  - unfold Imperative.bind at 1.
    unfold Imperative.bind at 1. unfold Imperative.read at 1.
    cbn [Imperative.this Filtering._data].
    destruct data as [|row|rows]; [reflexivity| |];
      (destruct (keysOf (dataProps _)) as [|key keys] eqn:Hkeys;
         [reflexivity|];
       unfold Imperative.bind at 1; unfold Imperative.mapArray;
       rewrite setClauses_run;
       cbn [Imperative.this Imperative.values Imperative.sql Filtering._data];
       match goal with
       | |- context [renderSet ?r ?d ?k ?v] =>
           destruct (renderSet r d k v) as [setClauses values1]
       end;
       cbn [fst snd];
       unfold Imperative.bind at 1; unfold Imperative.read at 1;
       unfold Imperative.bind at 1; unfold Imperative.assignSql at 1;
       unfold Imperative.bind at 1; rewrite buildWhere_run;
       cbn [Imperative.this Imperative.values Imperative.sql Filtering._where
            Filtering._table];
       destruct (buildWhere (fun c => c) wh values1) as [w values];
       cbn [fst snd];
       unfold Imperative.bind, Imperative.appendSql, Imperative.read,
         Imperative.returnLocals, Imperative.ret;
       cbn [Imperative.this Imperative.values Imperative.sql
            Filtering._returning];
       destruct ret; reflexivity).
  - unfold Imperative.bind at 1.
    unfold Imperative.bind at 1. unfold Imperative.read at 1.
    unfold Imperative.bind at 1. unfold Imperative.assignSql at 1.
    unfold Imperative.bind at 1. rewrite buildWhere_run.
    cbn [Imperative.this Imperative.values Imperative.sql Filtering._where].
    destruct (buildWhere (fun c => c) wh []) as [w values].
    cbn [fst snd].
    unfold Imperative.bind, Imperative.appendSql, Imperative.read,
      Imperative.returnLocals, Imperative.ret.
    cbn [Imperative.this Imperative.values Imperative.sql
         Filtering._returning].
    destruct ret; reflexivity.
Qed.

Lemma toSQLJoined_run b vs text :
  Imperative.toSQLJoined (Imperative.mkStore b vs text)
  = match Joined.toSQL b with
    | Returned sql values =>
        (Imperative.mkStore b values sql, Imperative.Normal (sql, values))
    | Thrown message =>
        (Imperative.mkStore b [] EmptyString, Imperative.Abrupt message)
    end.
Proof.
  destruct b as [table o data sel wh joins lim off ret].
  unfold Imperative.toSQLJoined, Joined.toSQL, Joined.paginate.
  unfold Imperative.bind at 1. unfold Imperative.read at 1.
  unfold Imperative.bind at 1. unfold Imperative.read at 1.
  unfold Imperative.bind at 1. unfold Imperative.declareLocals at 1.
  unfold Imperative.bind at 1. unfold Imperative.read at 1.
  cbn [Imperative.this Imperative.values Imperative.sql
       Joined._table Joined._operation Joined._data Joined._joins
       Joined._select Joined._where Joined._limit
       Joined._offset Joined._returning].
  destruct o.
  - unfold Imperative.bind at 1.
    unfold Imperative.bind at 1. unfold Imperative.assignSql at 1.
    unfold Imperative.bind at 1. unfold Imperative.read at 1.
    unfold Imperative.bind at 1. unfold Imperative.appendSql at 1.
    unfold Imperative.bind at 1. rewrite buildWhere_run.
    cbn [Imperative.this Imperative.values Imperative.sql Joined._where
         Joined._joins].
    destruct (buildWhere Joined._quote wh []) as [w values].
    cbn [fst snd].
    unfold Imperative.bind, Imperative.appendSql, Imperative.read,
      Imperative.returnLocals, Imperative.ret.
    cbn [Imperative.this Imperative.values Imperative.sql
         Joined._limit Joined._offset].
    destruct lim, off; reflexivity.
  - unfold Imperative.bind at 1.
    unfold Imperative.bind at 1. unfold Imperative.read at 1.
    cbn [Imperative.this Joined._joins].
    destruct joins as [|j joins]; [|reflexivity].
    unfold Imperative.bind at 1. unfold Imperative.read at 1.
    cbn [Imperative.this Joined._data].
    destruct data as [|row|rows]; [reflexivity| |];
      (destruct (asArray _) as [|firstRow others] eqn:Harr; [reflexivity|];
       destruct (keysOf firstRow) as [|key keys] eqn:Hkeys; [reflexivity|];
       unfold Imperative.bind at 1; unfold Imperative.mapArray;
       rewrite rows_run;
       cbn [Imperative.this Imperative.values Imperative.sql];
       destruct (bindRows (key :: keys) (firstRow :: others) [])
         as [placeHolders values];
       cbn [fst snd];
       unfold Imperative.bind, Imperative.appendSql, Imperative.assignSql,
         Imperative.read, Imperative.returnLocals, Imperative.ret;
       cbn [Imperative.this Imperative.values Imperative.sql
            Joined._returning];
       destruct ret; reflexivity).
  - unfold Imperative.bind at 1.
    unfold Imperative.bind at 1. unfold Imperative.read at 1.
    cbn [Imperative.this Joined._joins].
    destruct joins as [|j joins]; [|reflexivity].
    unfold Imperative.bind at 1. unfold Imperative.read at 1.
    cbn [Imperative.this Joined._data].
    destruct data as [|row|rows]; [reflexivity| |];
      (destruct (keysOf (dataProps _)) as [|key keys] eqn:Hkeys;
         [reflexivity|];
       unfold Imperative.bind at 1; unfold Imperative.mapArray;
       rewrite setClauses_run;
       cbn [Imperative.this Imperative.values Imperative.sql Joined._data];
       match goal with
       | |- context [renderSet ?r ?d ?k ?v] =>
           destruct (renderSet r d k v) as [setClauses values1]
       end;
       cbn [fst snd];
       unfold Imperative.bind at 1; unfold Imperative.assignSql at 1;
       unfold Imperative.bind at 1; rewrite buildWhere_run;
       cbn [Imperative.this Imperative.values Imperative.sql Joined._where];
       destruct (buildWhere Joined._quote wh values1) as [w values];
       cbn [fst snd];
       unfold Imperative.bind, Imperative.appendSql, Imperative.read,
         Imperative.returnLocals, Imperative.ret;
       cbn [Imperative.this Imperative.values Imperative.sql
            Joined._returning];
       destruct ret; reflexivity).
  - unfold Imperative.bind at 1.
    unfold Imperative.bind at 1. unfold Imperative.read at 1.
    cbn [Imperative.this Joined._joins].
    destruct joins as [|j joins]; [|reflexivity].
    unfold Imperative.bind at 1. unfold Imperative.assignSql at 1.
    unfold Imperative.bind at 1. rewrite buildWhere_run.
    cbn [Imperative.this Imperative.values Imperative.sql Joined._where].
    destruct (buildWhere Joined._quote wh []) as [w values].
    cbn [fst snd].
    unfold Imperative.bind, Imperative.appendSql, Imperative.read,
      Imperative.returnLocals, Imperative.ret.
    cbn [Imperative.this Imperative.values Imperative.sql
         Joined._returning].
    destruct ret; reflexivity.
Qed.

(** C9.  A call of [toSQL], run statement by statement in a store holding
    the builder and the locals of the call, assigns no field of the builder:
    the builder it leaves is the builder it found.  What it hands back, text
    and parameter list or error, is a function of that builder alone and
    not of what the store held for [values] and [sql] before the call, both
    being declared anew by every call.  Hence a second call, run in the
    store the first one left, completes exactly as the first did, with the
    same text and the same parameter list, and leaves the builder as it was
    again.  The [toSQL] case of the call semantics of a builder is that
    call run in a store with the builder.  Both revisions. *)
Theorem toSQL_repeatable :
  (forall b bound text,
      Imperative.toSQL (Imperative.mkStore b bound text)
      = match Filtering.toSQL b with
        | Returned sql values =>
            (Imperative.mkStore b values sql, Imperative.Normal (sql, values))
        | Thrown message =>
            (Imperative.mkStore b [] EmptyString, Imperative.Abrupt message)
        end)
  /\
  (forall s : Imperative.Store Filtering.QueryBuilder,
      Imperative.this (fst (Imperative.toSQL s)) = Imperative.this s
      /\ Imperative.this (fst (Imperative.toSQL (fst (Imperative.toSQL s))))
         = Imperative.this s
      /\ snd (Imperative.toSQL (fst (Imperative.toSQL s)))
         = snd (Imperative.toSQL s))
  /\
  (forall b bound text,
      Imperative.toSQLJoined (Imperative.mkStore b bound text)
      = match Joined.toSQL b with
        | Returned sql values =>
            (Imperative.mkStore b values sql, Imperative.Normal (sql, values))
        | Thrown message =>
            (Imperative.mkStore b [] EmptyString, Imperative.Abrupt message)
        end)
  /\
  (forall s : Imperative.Store Joined.QueryBuilder,
      Imperative.this (fst (Imperative.toSQLJoined s)) = Imperative.this s
      /\ Imperative.this
           (fst (Imperative.toSQLJoined (fst (Imperative.toSQLJoined s))))
         = Imperative.this s
      /\ snd (Imperative.toSQLJoined (fst (Imperative.toSQLJoined s)))
         = snd (Imperative.toSQLJoined s))
  /\
  (forall b,
      callFiltering FToSQL b
      = (Imperative.this
           (fst (Imperative.toSQL (Imperative.mkStore b [] EmptyString))),
         Some (Imperative.outcome
                 (snd (Imperative.toSQL
                         (Imperative.mkStore b [] EmptyString))))))
  /\
  (forall b,
      callJoined JToSQL b
      = (Imperative.this
           (fst (Imperative.toSQLJoined (Imperative.mkStore b [] EmptyString))),
         Some (Imperative.outcome
                 (snd (Imperative.toSQLJoined
                         (Imperative.mkStore b [] EmptyString)))))).
Proof.
  repeat apply conj.
  - exact toSQL_run.
  - intros [b bound text]. rewrite toSQL_run. cbn [Imperative.this].
    destruct (Filtering.toSQL b) as [sql values|message] eqn:Hb;
      cbn [fst snd]; rewrite toSQL_run, Hb; repeat split.
  - exact toSQLJoined_run.
  - intros [b bound text]. rewrite toSQLJoined_run. cbn [Imperative.this].
    destruct (Joined.toSQL b) as [sql values|message] eqn:Hb;
      cbn [fst snd]; rewrite toSQLJoined_run, Hb; repeat split.
  - intro b. rewrite toSQL_run. cbn [callFiltering].
    destruct (Filtering.toSQL b); reflexivity.
  - intro b. rewrite toSQLJoined_run. cbn [callJoined].
    destruct (Joined.toSQL b); reflexivity.
Qed.

(** ** Entries that leave no clause *)

Lemma addWhere_dropped type key val before after wh :
  isOperatorObject val = true -> noOperatorKey val ->
  _addWhere type (before ++ (key, val) :: after)%list wh
  = _addWhere type (before ++ after)%list wh.
Proof.
  intros Hobj Hnone. rewrite !addWhere_expanded, !flat_map_app.
  cbn [flat_map]. now rewrite (expandedEntry_dropped type key val Hobj Hnone).
Qed.

(** C10.  An entry of [where] or [orWhere] whose value is a non-null object
    other than a [Date] (an array or a keyed object) having none of the nine
    recognized keys appends no clause: the filter sequence, and with it the
    compiled text and parameter list, are those of the same call without
    that entry.  Both revisions. *)
Theorem unrecognized_object_dropped :
  forall key val before after,
    isOperatorObject val = true ->
    noOperatorKey val ->
    (forall type wh,
        _addWhere type (before ++ (key, val) :: after)%list wh
        = _addWhere type (before ++ after)%list wh)
    /\
    (forall b,
        Filtering.toSQL (Filtering.where_ (before ++ (key, val) :: after)%list b)
        = Filtering.toSQL (Filtering.where_ (before ++ after)%list b)
        /\ Filtering.toSQL (Filtering.orWhere (before ++ (key, val) :: after)%list b)
           = Filtering.toSQL (Filtering.orWhere (before ++ after)%list b))
    /\
    (forall b,
        Joined.toSQL (Joined.where_ (before ++ (key, val) :: after)%list b)
        = Joined.toSQL (Joined.where_ (before ++ after)%list b)
        /\ Joined.toSQL (Joined.orWhere (before ++ (key, val) :: after)%list b)
           = Joined.toSQL (Joined.orWhere (before ++ after)%list b)).
Proof.
  intros key val before after Hobj Hnone.
  repeat apply conj.
  - intros. now apply addWhere_dropped.
  - intro b. split; unfold Filtering.where_, Filtering.orWhere;
      now rewrite addWhere_dropped.
  - intro b. split; unfold Joined.where_, Joined.orWhere;
      now rewrite addWhere_dropped.
Qed.

Lemma unrecognized_object_dropped_witness :
  Joined.toSQL
    (Joined.where_ [("id", VNum 1); ("tags", VArr [VStr "a"; VStr "b"])]
       (Joined.create "posts"))
  = Joined.toSQL (Joined.where_ [("id", VNum 1)] (Joined.create "posts")).
Proof.
  refine (proj1 (proj2 (proj2
            (unrecognized_object_dropped
               "tags" (VArr [VStr "a"; VStr "b"]) [("id", VNum 1)] [] _ _))
            (Joined.create "posts"))).
  - reflexivity.
  - intros key _. reflexivity.
Defined.

(** ** Identifier quoting *)

Lemma split_not_nil c s : split c s <> [].
Proof.
  destruct s as [|a rest]; cbn [split]; [discriminate|].
  destruct (Ascii.eqb a c); [discriminate|].
  destruct (split c rest); discriminate.
Qed.

Lemma concat_cons_string sep a part parts :
  String.concat sep (String a part :: parts)
  = String a (String.concat sep (part :: parts)).
Proof. destruct parts; reflexivity. Qed.

Lemma join_split c s : join (String c EmptyString) (split c s) = s.
Proof.
  unfold join. induction s as [|a rest IH]; [reflexivity|].
  cbn [split]. destruct (Ascii.eqb_spec a c) as [->|Hne].
  - pose proof (split_not_nil c rest) as Hnil.
    destruct (split c rest) as [|part parts]; [now elim Hnil|].
    cbn [String.concat append]. now rewrite <- IH.
  - pose proof (split_not_nil c rest) as Hnil.
    destruct (split c rest) as [|part parts]; [now elim Hnil|].
    rewrite concat_cons_string. now rewrite IH.
Qed.

Lemma split_parts c s : Forall (fun part => includes c part = false) (split c s).
Proof.
  induction s as [|a rest IH]; cbn [split].
  - repeat constructor.
  - destruct (Ascii.eqb a c) eqn:Hac.
    + constructor; [reflexivity | assumption].
    + destruct (split c rest) as [|part parts]; [repeat constructor;
        cbn [includes]; now rewrite Hac|].
      inversion IH as [|? ? Hpart Hparts]; subst.
      constructor; [|assumption].
      cbn [includes]. now rewrite Hac.
Qed.

Lemma quote_star : Joined._quote "*" = "*".
Proof. reflexivity. Qed.

Lemma quote_untouched identifier :
  includes " " identifier = true \/ includes "(" identifier = true
  \/ startsWith "034" identifier = true ->
  Joined._quote identifier = identifier.
Proof.
  intro H. unfold Joined._quote.
  destruct (String.eqb identifier "*"); [reflexivity|].
  destruct (includes "(" identifier), (includes " " identifier),
    (startsWith "034" identifier); cbn [orb]; try reflexivity.
  destruct H as [H|[H|H]]; discriminate H.
Qed.

Lemma quote_plain identifier :
  identifier <> "*" ->
  includes " " identifier = false ->
  includes "(" identifier = false ->
  startsWith "034" identifier = false ->
  Joined._quote identifier
  = if includes "." identifier
    then join "." (map quoted (split "." identifier))
    else quoted identifier.
Proof.
  intros Hstar Hspace Hparen Hquote. unfold Joined._quote.
  apply String.eqb_neq in Hstar. rewrite Hstar, Hspace, Hparen, Hquote.
  reflexivity.
Qed.

Lemma filtering_paginate_text b sql :
  Filtering.paginate b sql
  = sql ++ limitText (Filtering._limit b) ++ offsetText (Filtering._offset b).
Proof.
  unfold Filtering.paginate, limitText, offsetText.
  destruct (Filtering._limit b), (Filtering._offset b); cbn [append];
    now rewrite ?sappend_assoc, ?sappend_nil_r.
Qed.

Lemma joined_paginate_text b sql :
  Joined.paginate b sql
  = sql ++ limitText (Joined._limit b) ++ offsetText (Joined._offset b).
Proof.
  unfold Joined.paginate, limitText, offsetText.
  destruct (Joined._limit b), (Joined._offset b); cbn [append];
    now rewrite ?sappend_assoc, ?sappend_nil_r.
Qed.

Lemma concat_empty_cons first parts :
  String.concat EmptyString (first :: parts)
  = first ++ String.concat EmptyString parts.
Proof.
  destruct parts as [|part rest]; cbn [String.concat append];
    [now rewrite sappend_nil_r | reflexivity].
Qed.

Lemma concat_cons_space first parts :
  String.concat " " (first :: parts)
  = first ++ String.concat EmptyString (map (fun part => " " ++ part) parts).
Proof.
  revert first. induction parts as [|part rest IH]; intro first.
  - cbn [String.concat map]. now rewrite sappend_nil_r.
  - change (String.concat " " (first :: part :: rest))
      with (first ++ " " ++ String.concat " " (part :: rest)).
    rewrite IH. cbn [map]. rewrite concat_empty_cons.
    now rewrite ?sappend_assoc.
Qed.

Lemma buildJoins_text joins : Joined.buildJoins joins = joinsText joins.
Proof.
  unfold Joined.buildJoins, join.
  destruct joins as [|j rest]; [reflexivity|].
  cbn [map joinsText]. rewrite concat_cons_space. f_equal. f_equal.
  induction rest as [|j' rest IH]; [reflexivity|].
  cbn [map joinsText]. rewrite concat_empty_cons, IH.
  now rewrite ?sappend_assoc.
Qed.

Lemma joinsText_app joins joins' :
  joinsText (joins ++ joins') = joinsText joins ++ joinsText joins'.
Proof.
  induction joins as [|j rest IH]; cbn [app joinsText]; [reflexivity|].
  now rewrite IH, !sappend_assoc.
Qed.

Lemma joinsText_cons j rest :
  joinsText (j :: rest)
  = " " ++ joinTypeText (jtype j) ++ " JOIN " ++ Joined._quote (jtable j)
      ++ " ON " ++ Joined._quote (col1 j) ++ " " ++ op j ++ " "
      ++ Joined._quote (col2 j) ++ joinsText rest.
Proof. cbn [joinsText]. unfold Joined.renderJoin. now rewrite !sappend_assoc. Qed.

Lemma joined_select_text b :
  Joined._operation b = SELECT ->
  Joined.toSQL b
  = Returned
      (("SELECT "
          ++ match Joined._select b with
             | [] => "*"
             | _ => join ", " (map Joined._quote (Joined._select b))
             end
          ++ " FROM " ++ Joined._quote (Joined._table b))
         ++ joinsText (Joined._joins b)
         ++ fst (buildWhere Joined._quote (Joined._where b) [])
         ++ limitText (Joined._limit b) ++ offsetText (Joined._offset b))
      (snd (buildWhere Joined._quote (Joined._where b) [])).
Proof.
  intro Hop. rewrite (joined_select_sql b Hop).
  rewrite joined_paginate_text, buildJoins_text.
  now rewrite !sappend_assoc.
Qed.

Lemma filtering_update_sql b :
  Filtering._operation b = UPDATE ->
  Filtering._data b <> DNull ->
  keysOf (dataProps (Filtering._data b)) <> [] ->
  let updateKeys := keysOf (dataProps (Filtering._data b)) in
  let bound := map (fun key => getProp key (dataProps (Filtering._data b)))
                   updateKeys in
  let columns := match Filtering._select b with
                 | [] => "*"
                 | _ => join ", " (Filtering._select b)
                 end in
  Filtering.toSQL b
  = Returned
      ("UPDATE " ++ Filtering._table b ++ " SET "
         ++ join ", "
              (map (fun ik => snd ik ++ " = $" ++ showNat (fst ik))
                   (combine (seq 1 (List.length updateKeys)) updateKeys))
         ++ fst (buildWhere (fun c => c) (Filtering._where b) bound)
         ++ (if Filtering._returning b
             then " RETURNING " ++ columns else EmptyString))
      (snd (buildWhere (fun c => c) (Filtering._where b) bound)).
Proof.
  intros Hop Hdata Hkeys updateKeys bound columns.
  subst updateKeys bound columns.
  unfold Filtering.toSQL. rewrite Hop.
  destruct (Filtering._data b) as [|row|rows] eqn:Hd; [now elim Hdata| |];
    (destruct (keysOf (dataProps _)) as [|key keys] eqn:Hk; [now elim Hkeys|]);
    rewrite renderSet_eq; cbn [List.length app];
    match goal with
    | |- context [buildWhere ?q ?wh ?vs] =>
        destruct (buildWhere q wh vs) as [w values]
    end;
    cbn [fst snd]; rewrite tail_flag;
    now rewrite !sappend_assoc.
Qed.

Lemma filtering_delete_sql b :
  Filtering._operation b = DELETE ->
  Filtering.toSQL b
  = Returned
      ("DELETE FROM " ++ Filtering._table b
         ++ fst (buildWhere (fun c => c) (Filtering._where b) [])
         ++ (if Filtering._returning b
             then " RETURNING "
                  ++ match Filtering._select b with
                     | [] => "*"
                     | _ => join ", " (Filtering._select b)
                     end
             else EmptyString))
      (snd (buildWhere (fun c => c) (Filtering._where b) [])).
Proof.
  intro Hop. unfold Filtering.toSQL. rewrite Hop.
  destruct (buildWhere (fun c => c) (Filtering._where b) []) as [w values].
  cbn [fst snd]. rewrite tail_flag. now rewrite !sappend_assoc.
Qed.

Lemma renderCondition_quoted clause values :
  renderCondition Joined._quote clause values
  = match operator clause, value clause with
    | (OpIn | OpNotIn), VArr ((_ :: _) as items) =>
        (Joined._quote (column clause) ++ " "
           ++ operatorText (operator clause) ++ " ("
           ++ join ", " (dollars (S (List.length values)) (List.length items))
           ++ ")",
         (values ++ items)%list)
    | OpIn, _ => ("1=0", values)
    | OpNotIn, _ => ("1=1", values)
    | (OpIs | OpIsNot), val =>
        (Joined._quote (column clause) ++ " "
           ++ operatorText (operator clause) ++ " "
           ++ match val with VNull => "NULL" | _ => jsString val end,
         values)
    | _, val =>
        (Joined._quote (column clause) ++ " "
           ++ operatorText (operator clause) ++ " $"
           ++ showNat (S (List.length values)),
         (values ++ [val])%list)
    end.
Proof.
  destruct clause as [type col o val]. unfold renderCondition.
  cbn [operator value column].
  destruct o, val as [| | | | | |[|item items]|];
    rewrite ?bindValue_eq, ?bindAll_eq; reflexivity.
Qed.

(** C5, as stated, fails on an identifier whose only special character is a
    closing parenthesis: [_quote] looks for ["("] and for a space, not for
    [")"], so [a)] is quoted although it contains a parenthesis. *)
Lemma quote_closing_parenthesis :
  includes ")" "a)" = true /\ Joined._quote "a)" <> "a)".
Proof. split; [reflexivity | discriminate]. Qed.

(** C5, amended.  In the join-aware builder [_quote] leaves [*] as it is,
    leaves untouched an identifier that contains a space or an opening
    parenthesis or that starts with a double quote, and puts every other
    identifier between double quotes, segment by segment when it contains a
    dot, the quoted segments being rejoined by dots (the segments are the
    pieces between the dots: rejoining them unquoted gives the identifier
    back and no segment contains a dot).  Every identifier of every
    statement is written through [_quote], as the full text of each
    statement shows: the table and the projected columns of a SELECT, the
    table and both columns of each of its joins, the table and the column
    names of an INSERT, the table and the keys of an UPDATE, the table of a
    DELETE, and the column of every filter clause of SELECT, UPDATE and
    DELETE (the filter being [ WHERE ] and the chain of its conditions, each
    condition other than the [1=0] and [1=1] of an IN or NOT IN without
    elements starting with its quoted column).  The filtering builder of
    [src/query/builder.ts] has no [_quote]: it writes table, projection,
    insert columns, update keys and filter columns as given, in all four
    statements. *)
Theorem identifier_quoting :
  Joined._quote "*" = "*"
  /\
  (forall identifier,
      includes " " identifier = true \/ includes "(" identifier = true
      \/ startsWith "034" identifier = true ->
      Joined._quote identifier = identifier)
  /\
  (forall identifier,
      identifier <> "*" ->
      includes " " identifier = false ->
      includes "(" identifier = false ->
      startsWith "034" identifier = false ->
      Joined._quote identifier
      = if includes "." identifier
        then join "." (map quoted (split "." identifier))
        else quoted identifier)
  /\
  (forall identifier,
      join "." (split "." identifier) = identifier
      /\ Forall (fun part => includes "." part = false) (split "." identifier))
  /\
  (joinsText [] = EmptyString
   /\ forall j rest,
        joinsText (j :: rest)
        = " " ++ joinTypeText (jtype j) ++ " JOIN " ++ Joined._quote (jtable j)
            ++ " ON " ++ Joined._quote (col1 j) ++ " " ++ op j ++ " "
            ++ Joined._quote (col2 j) ++ joinsText rest)
  /\
  (forall clause values,
      renderCondition Joined._quote clause values
      = match operator clause, value clause with
        | (OpIn | OpNotIn), VArr ((_ :: _) as items) =>
            (Joined._quote (column clause) ++ " "
               ++ operatorText (operator clause) ++ " ("
               ++ join ", " (dollars (S (List.length values))
                                     (List.length items))
               ++ ")",
             (values ++ items)%list)
        | OpIn, _ => ("1=0", values)
        | OpNotIn, _ => ("1=1", values)
        | (OpIs | OpIsNot), val =>
            (Joined._quote (column clause) ++ " "
               ++ operatorText (operator clause) ++ " "
               ++ match val with VNull => "NULL" | _ => jsString val end,
             values)
        | _, val =>
            (Joined._quote (column clause) ++ " "
               ++ operatorText (operator clause) ++ " $"
               ++ showNat (S (List.length values)),
             (values ++ [val])%list)
        end)
  /\
  ((forall values,
       buildWhere Joined._quote [] values = (EmptyString, values))
   /\ forall clause rest values,
        fst (buildWhere Joined._quote (clause :: rest) values)
        = " WHERE "
          ++ chain (combine (map wtype (clause :: rest))
                            (conditionsOf Joined._quote (clause :: rest)
                                          values)))
  /\
  (forall b,
      Joined._operation b = SELECT ->
      Joined.toSQL b
      = Returned
          (("SELECT "
              ++ match Joined._select b with
                 | [] => "*"
                 | _ => join ", " (map Joined._quote (Joined._select b))
                 end
              ++ " FROM " ++ Joined._quote (Joined._table b))
             ++ joinsText (Joined._joins b)
             ++ fst (buildWhere Joined._quote (Joined._where b) [])
             ++ limitText (Joined._limit b) ++ offsetText (Joined._offset b))
          (snd (buildWhere Joined._quote (Joined._where b) [])))
  /\
  (forall b firstRow rest,
      Joined._operation b = INSERT ->
      Joined._joins b = [] ->
      asArray (Joined._data b) = firstRow :: rest ->
      keysOf firstRow <> [] ->
      Joined.toSQL b
      = Returned
          ("INSERT INTO " ++ Joined._quote (Joined._table b)
             ++ " (" ++ join ", " (map Joined._quote (keysOf firstRow))
             ++ ") VALUES "
             ++ join ", " (tuples (List.length (keysOf firstRow))
                                  (S (List.length rest)))
             ++ (if Joined._returning b then " RETURNING *" else EmptyString))
          (cellsOf (keysOf firstRow) (firstRow :: rest)))
  /\
  (forall b,
      Joined._operation b = UPDATE ->
      Joined._joins b = [] ->
      Joined._data b <> DNull ->
      keysOf (dataProps (Joined._data b)) <> [] ->
      Joined.toSQL b
      = Returned
          ("UPDATE " ++ Joined._quote (Joined._table b) ++ " SET "
             ++ join ", "
                  (map (fun ik => Joined._quote (snd ik)
                                    ++ " = $" ++ showNat (fst ik))
                       (combine
                          (seq 1 (List.length
                                    (keysOf (dataProps (Joined._data b)))))
                          (keysOf (dataProps (Joined._data b)))))
             ++ fst (buildWhere Joined._quote (Joined._where b)
                       (map (fun key => getProp key (dataProps (Joined._data b)))
                            (keysOf (dataProps (Joined._data b)))))
             ++ (if Joined._returning b then " RETURNING *" else EmptyString))
          (snd (buildWhere Joined._quote (Joined._where b)
                  (map (fun key => getProp key (dataProps (Joined._data b)))
                       (keysOf (dataProps (Joined._data b)))))))
  /\
  (forall b,
      Joined._operation b = DELETE ->
      Joined._joins b = [] ->
      Joined.toSQL b
      = Returned
          ("DELETE FROM " ++ Joined._quote (Joined._table b)
             ++ fst (buildWhere Joined._quote (Joined._where b) [])
             ++ (if Joined._returning b then " RETURNING *" else EmptyString))
          (snd (buildWhere Joined._quote (Joined._where b) [])))
  /\
  (forall b,
      Filtering._operation b = SELECT ->
      Filtering.toSQL b
      = Returned
          (Filtering.paginate b
             (("SELECT "
                 ++ match Filtering._select b with
                    | [] => "*"
                    | _ => join ", " (Filtering._select b)
                    end
                 ++ " FROM " ++ Filtering._table b)
                ++ fst (buildWhere (fun c => c) (Filtering._where b) [])))
          (snd (buildWhere (fun c => c) (Filtering._where b) [])))
  /\
  (forall b firstRow rest,
      Filtering._operation b = INSERT ->
      asArray (Filtering._data b) = firstRow :: rest ->
      keysOf firstRow <> [] ->
      Filtering.toSQL b
      = Returned
          ("INSERT INTO " ++ Filtering._table b
             ++ " (" ++ join ", " (keysOf firstRow) ++ ") VALUES "
             ++ join ", " (tuples (List.length (keysOf firstRow))
                                  (S (List.length rest)))
             ++ (if Filtering._returning b
                 then " RETURNING "
                      ++ match Filtering._select b with
                         | [] => "*"
                         | _ => join ", " (Filtering._select b)
                         end
                 else EmptyString))
          (cellsOf (keysOf firstRow) (firstRow :: rest)))
  /\
  (forall b,
      Filtering._operation b = UPDATE ->
      Filtering._data b <> DNull ->
      keysOf (dataProps (Filtering._data b)) <> [] ->
      Filtering.toSQL b
      = Returned
          ("UPDATE " ++ Filtering._table b ++ " SET "
             ++ join ", "
                  (map (fun ik => snd ik ++ " = $" ++ showNat (fst ik))
                       (combine
                          (seq 1 (List.length
                                    (keysOf (dataProps (Filtering._data b)))))
                          (keysOf (dataProps (Filtering._data b)))))
             ++ fst (buildWhere (fun c => c) (Filtering._where b)
                       (map (fun key =>
                               getProp key (dataProps (Filtering._data b)))
                            (keysOf (dataProps (Filtering._data b)))))
             ++ (if Filtering._returning b
                 then " RETURNING "
                      ++ match Filtering._select b with
                         | [] => "*"
                         | _ => join ", " (Filtering._select b)
                         end
                 else EmptyString))
          (snd (buildWhere (fun c => c) (Filtering._where b)
                  (map (fun key => getProp key (dataProps (Filtering._data b)))
                       (keysOf (dataProps (Filtering._data b)))))))
  /\
  (forall b,
      Filtering._operation b = DELETE ->
      Filtering.toSQL b
      = Returned
          ("DELETE FROM " ++ Filtering._table b
             ++ fst (buildWhere (fun c => c) (Filtering._where b) [])
             ++ (if Filtering._returning b
                 then " RETURNING "
                      ++ match Filtering._select b with
                         | [] => "*"
                         | _ => join ", " (Filtering._select b)
                         end
                 else EmptyString))
          (snd (buildWhere (fun c => c) (Filtering._where b) []))).
Proof.
  repeat apply conj.
  - exact quote_star.
  - exact quote_untouched.
  - exact quote_plain.
  - intro identifier. split; [apply (join_split "."%char) | apply split_parts].
  - reflexivity.
  - exact joinsText_cons.
  - exact renderCondition_quoted.
  - reflexivity.
  - apply buildWhere_chain.
  - exact joined_select_text.
  - exact joined_insert_sql.
  - intros b Hop Hj Hd Hk. exact (joined_update_sql b Hop Hj Hd Hk).
  - exact joined_delete_sql.
  - exact filtering_select_sql.
  - exact filtering_insert_sql.
  - intros b Hop Hd Hk. exact (filtering_update_sql b Hop Hd Hk).
  - exact filtering_delete_sql.
Qed.

Lemma identifier_quoting_witness :
  Joined._quote "users.id"
  = dquote ++ "users" ++ dquote ++ "." ++ dquote ++ "id" ++ dquote.
Proof.
  refine (proj1 (proj2 (proj2 identifier_quoting)) "users.id" _ _ _ _).
  - discriminate.
  - reflexivity.
  - reflexivity.
  - reflexivity.
Defined.

(** ** Expansion of the conditions of [where] and [orWhere] *)

(** C6.  The stated rule is what the declared type of a condition
    promises (a value of the column's own type, an array for an array
    column, is an equality), and [_addWhere] departs from it on an entry
    whose value is an array: the guard of the operator branch lets through
    every non-null object other than a [Date], an array has none of the
    recognized keys, and no clause is appended where the rule gives the
    equality clause.  The filter is lost without a word: the DELETE built
    with it alone has no WHERE clause and no parameter, in both
    revisions. *)
Lemma array_entry_leaves_no_clause :
  _addWhere AND [("tags", VArr [VStr "a"; VStr "b"])] [] = []
  /\ flat_map (statedEntry AND) [("tags", VArr [VStr "a"; VStr "b"])]
     = [mkClause AND "tags" OpEq (VArr [VStr "a"; VStr "b"])]
  /\ _addWhere AND [("tags", VArr [VStr "a"; VStr "b"])] []
     <> flat_map (statedEntry AND) [("tags", VArr [VStr "a"; VStr "b"])]
  /\ Filtering.toSQL
       (Filtering.where_ [("tags", VArr [VStr "a"; VStr "b"])]
          (Filtering.delete (Filtering.create "posts")))
     = Returned "DELETE FROM posts RETURNING *" []
  /\ Joined.toSQL
       (Joined.where_ [("tags", VArr [VStr "a"; VStr "b"])]
          (Joined.delete (Joined.create "posts")))
     = Returned ("DELETE FROM " ++ dquote ++ "posts" ++ dquote
                   ++ " RETURNING *") [].
Proof. repeat split. discriminate. Qed.

(** What [_addWhere] appends, entry by entry in the order of the
    conditions: for [null], one IS clause with value [null]; for a keyed
    object, one clause per recognized key present, in the key-check order
    [in, notIn, like, ilike, gt, lt, gte, lte, not] whatever the order of
    the keys in the object, with the operators [IN, NOT IN, LIKE, ILIKE, >,
    <, >=, <=, !=] and the value found under the key, other keys being
    ignored; for anything else but an array, one equality clause with the
    value as given.  On these entries the code follows the stated rule; an
    array is the one value on which it does not. *)
Theorem addWhere_expansion :
  (forall type conditions wh,
      _addWhere type conditions wh
      = (wh ++ flat_map (expandedEntry type) conditions)%list)
  /\
  (forall type key val,
      expandedEntry type (key, val)
      = match val with
        | VArr _ => []
        | _ => statedEntry type (key, val)
        end)
  /\
  (forall type col props,
      expandOperators type col props
      = flat_map (fun ko : string * WhereOperator =>
                    if hasProp (fst ko) props
                    then [mkClause type col (snd ko) (getProp (fst ko) props)]
                    else [])
                 [ ("in", OpIn); ("notIn", OpNotIn); ("like", OpLike);
                   ("ilike", OpILike); ("gt", OpGt); ("lt", OpLt);
                   ("gte", OpGe); ("lte", OpLe); ("not", OpNe) ])
  /\
  expandOperators OR "age" [("lte", VNum 60); ("unknown", VNum 0); ("gt", VNum 18)]
  = [mkClause OR "age" OpGt (VNum 18); mkClause OR "age" OpLe (VNum 60)].
Proof.
  repeat apply conj.
  - apply addWhere_expanded.
  - intros type key val. destruct val; reflexivity.
  - reflexivity.
  - reflexivity.
Qed.

(** * Further properties of the builders *)

(** ** The parameters of a filter sequence *)

Lemma renderCondition_values renderIdent clause values :
  snd (renderCondition renderIdent clause values)
  = (values ++ clauseValues clause)%list.
Proof.
  destruct clause as [type col o val].
  unfold renderCondition, clauseValues. cbn [operator value column].
  destruct o; try (rewrite bindValue_eq; reflexivity);
    try (cbn [snd]; now rewrite app_nil_r).
  all: destruct val as [| | | | | |[|item items]|];
    try (cbn [snd]; now rewrite app_nil_r).
  all: now rewrite bindAll_eq.
Qed.

Lemma renderClauses_values renderIdent clauses : forall index values,
  snd (renderClauses renderIdent index clauses values)
  = (values ++ filterValues clauses)%list.
Proof.
  induction clauses as [|clause rest IH]; intros index values;
    cbn [renderClauses].
  - unfold filterValues. cbn [flat_map snd]. now rewrite app_nil_r.
  - pose proof (renderCondition_values renderIdent clause values) as Hc.
    destruct (renderCondition renderIdent clause values) as [c values1].
    specialize (IH (S index) values1).
    destruct (renderClauses renderIdent (S index) rest values1) as [ts values2].
    cbn [fst snd] in *. subst. unfold filterValues. cbn [flat_map].
    now rewrite app_assoc.
Qed.

Lemma buildWhere_values renderIdent wh values :
  snd (buildWhere renderIdent wh values) = (values ++ filterValues wh)%list.
Proof.
  unfold buildWhere.
  destruct wh as [|clause rest].
  - cbn [snd filterValues flat_map]. now rewrite app_nil_r.
  - pose proof (renderClauses_values renderIdent (clause :: rest) 0 values) as H.
    destruct (renderClauses renderIdent 0 (clause :: rest) values) as [ts v].
    exact H.
Qed.

(** X1.  The parameters [buildWhere] appends are, clause by clause in the
    order of the filter sequence: the elements of the array for IN and
    NOT IN over a non-empty array, nothing for IN and NOT IN over anything
    else and for IS and IS NOT, and the value itself for every other
    operator.  They depend neither on how identifiers are rendered nor on
    the connectives. *)
Theorem buildWhere_binds_filter_values :
  (forall renderIdent clause values,
      snd (renderCondition renderIdent clause values)
      = (values ++ clauseValues clause)%list)
  /\
  (forall renderIdent wh values,
      snd (buildWhere renderIdent wh values)
      = (values ++ flat_map clauseValues wh)%list)
  /\
  (forall renderIdent renderIdent' type wh values,
      snd (buildWhere renderIdent (map (setType type) wh) values)
      = snd (buildWhere renderIdent' wh values)).
Proof.
  repeat apply conj.
  - apply renderCondition_values.
  - apply buildWhere_values.
  - intros q q' type wh values. rewrite !buildWhere_values. f_equal.
    unfold filterValues. induction wh as [|clause rest IH]; [reflexivity|].
    cbn [map flat_map]. now rewrite IH.
Qed.

(** ** The parameters of a whole statement *)

Lemma buildWhere_split renderIdent wh values :
  buildWhere renderIdent wh values
  = (fst (buildWhere renderIdent wh values), (values ++ filterValues wh)%list).
Proof.
  rewrite <- (buildWhere_values renderIdent). apply surjective_pairing.
Qed.

Lemma filtering_values b :
  valuesOf (Filtering.toSQL b) = None
  \/ valuesOf (Filtering.toSQL b)
     = Some (statementValues (Filtering._operation b) (Filtering._data b)
                             (Filtering._where b)).
Proof.
  destruct b as [table o data sel wh lim off ret].
  unfold Filtering.toSQL, statementValues.
  cbn [Filtering._table Filtering._operation Filtering._data Filtering._select
       Filtering._where Filtering._limit Filtering._offset Filtering._returning].
  destruct o.
  - rewrite buildWhere_split. right. reflexivity.
  - destruct data as [|row|[|row rows]]; cbn [asArray]; try (left; reflexivity).
    + destruct (keysOf row) as [|key keys] eqn:Hk; [left; reflexivity|].
      rewrite bindRows_eq. right. reflexivity.
    + destruct (keysOf row) as [|key keys] eqn:Hk; [left; reflexivity|].
      rewrite bindRows_eq. right. reflexivity.
  - destruct data as [|row|rows]; [left; reflexivity| |].
    all: destruct (keysOf (dataProps _)) as [|key keys] eqn:Hk;
      [left; reflexivity|].
    all: rewrite renderSet_eq, buildWhere_split; right; reflexivity.
  - rewrite buildWhere_split. right. reflexivity.
Qed.

Lemma joined_values b :
  valuesOf (Joined.toSQL b) = None
  \/ valuesOf (Joined.toSQL b)
     = Some (statementValues (Joined._operation b) (Joined._data b)
                             (Joined._where b)).
Proof.
  destruct b as [table o data sel wh joins lim off ret].
  unfold Joined.toSQL, statementValues.
  cbn [Joined._table Joined._operation Joined._data Joined._select
       Joined._where Joined._joins Joined._limit Joined._offset
       Joined._returning].
  destruct o.
  - rewrite buildWhere_split. right. reflexivity.
  - destruct joins; [|left; reflexivity].
    destruct data as [|row|[|row rows]]; cbn [asArray]; try (left; reflexivity).
    + destruct (keysOf row) as [|key keys] eqn:Hk; [left; reflexivity|].
      rewrite bindRows_eq. right. reflexivity.
    + destruct (keysOf row) as [|key keys] eqn:Hk; [left; reflexivity|].
      rewrite bindRows_eq. right. reflexivity.
  - destruct joins; [|left; reflexivity].
    destruct data as [|row|rows]; [left; reflexivity| |].
    all: destruct (keysOf (dataProps _)) as [|key keys] eqn:Hk;
      [left; reflexivity|].
    all: rewrite renderSet_eq, buildWhere_split; right; reflexivity.
  - destruct joins; [|left; reflexivity].
    rewrite buildWhere_split. right. reflexivity.
Qed.

(** X2.  Whenever [toSQL] returns, its parameter list is determined by the
    operation, the payload and the filters alone: the filter values for
    SELECT and DELETE; for UPDATE the payload's values in key order followed
    by the filter values; for INSERT the cells of every record under the
    first record's keys, and none of the filter values.  Table, projection,
    joins, pagination and the returning flag play no part, and both
    revisions bind the same list. *)
Theorem toSQL_parameter_list :
  (forall b sql values,
      Filtering.toSQL b = Returned sql values ->
      values = statementValues (Filtering._operation b) (Filtering._data b)
                               (Filtering._where b))
  /\
  (forall b sql values,
      Joined.toSQL b = Returned sql values ->
      values = statementValues (Joined._operation b) (Joined._data b)
                               (Joined._where b)).
Proof.
  split; intros b sql values H.
  - destruct (filtering_values b) as [Hv|Hv]; rewrite H in Hv;
      cbn [valuesOf] in Hv; congruence.
  - destruct (joined_values b) as [Hv|Hv]; rewrite H in Hv;
      cbn [valuesOf] in Hv; congruence.
Qed.

Lemma toSQL_parameter_list_witness :
  [VStr "x"; VNum 1; VNum 2; VNum 7]
  = statementValues UPDATE (DOne [("name", VStr "x")])
      (Joined._where sampleUpdate).
Proof.
  apply (proj2 toSQL_parameter_list sampleUpdate
           ("UPDATE " ++ dquote ++ "users" ++ dquote ++ " SET "
            ++ dquote ++ "name" ++ dquote ++ " = $1 WHERE "
            ++ dquote ++ "id" ++ dquote ++ " IN ($2, $3) OR "
            ++ dquote ++ "$9" ++ dquote ++ " > $4 RETURNING *")).
  vm_compute. reflexivity.
Defined.

(** ** The text does not depend on the bound values *)

Lemma clauseValues_blank clause :
  List.length (clauseValues (blankClause clause))
  = List.length (clauseValues clause).
Proof.
  destruct clause as [type col o val]. unfold clauseValues, blankClause.
  cbn [operator value]. destruct o; try reflexivity.
  all: destruct val as [| | | | | |[|item items]|]; try reflexivity.
  all: cbn [map List.length]; now rewrite length_map.
Qed.

Lemma renderCondition_blank renderIdent clause values values' :
  List.length values = List.length values' ->
  fst (renderCondition renderIdent (blankClause clause) values')
  = fst (renderCondition renderIdent clause values).
Proof.
  intro Hlen. destruct clause as [type col o val].
  unfold renderCondition, blankClause. cbn [operator value column].
  destruct o; try (rewrite !bindValue_eq, Hlen; reflexivity);
    try reflexivity.
  all: destruct val as [| | | | | |[|item items]|]; try reflexivity.
  all: cbn [map]; rewrite !bindAll_eq; cbn [fst List.length];
    now rewrite length_map, Hlen.
Qed.

Lemma renderClauses_blank renderIdent clauses : forall index values values',
  List.length values = List.length values' ->
  fst (renderClauses renderIdent index (map blankClause clauses) values')
  = fst (renderClauses renderIdent index clauses values).
Proof.
  induction clauses as [|clause rest IH]; intros index values values' Hlen;
    cbn [map renderClauses]; [reflexivity|].
  pose proof (renderCondition_blank renderIdent clause values values' Hlen) as Ht.
  pose proof (renderCondition_values renderIdent clause values) as Hv.
  pose proof (renderCondition_values renderIdent (blankClause clause) values')
    as Hv'.
  destruct (renderCondition renderIdent clause values) as [c values1].
  destruct (renderCondition renderIdent (blankClause clause) values')
    as [c' values1'].
  cbn [fst snd] in *. subst c' values1 values1'.
  specialize (IH (S index) (values ++ clauseValues clause)%list
                 (values' ++ clauseValues (blankClause clause))%list).
  rewrite !length_app, clauseValues_blank, Hlen in IH.
  specialize (IH eq_refl).
  destruct (renderClauses renderIdent (S index) rest _) as [ts v2].
  destruct (renderClauses renderIdent (S index) (map blankClause rest) _)
    as [ts' v2'].
  cbn [fst] in *. now rewrite IH.
Qed.

Lemma buildWhere_blank renderIdent wh values values' :
  List.length values = List.length values' ->
  fst (buildWhere renderIdent (map blankClause wh) values')
  = fst (buildWhere renderIdent wh values).
Proof.
  intro Hlen. unfold buildWhere. destruct wh as [|clause rest]; [reflexivity|].
  pose proof (renderClauses_blank renderIdent (clause :: rest) 0 values values'
                                  Hlen) as H.
  cbn [map] in *.
  destruct (renderClauses renderIdent 0 (clause :: rest) values) as [ts v].
  destruct (renderClauses renderIdent 0 (blankClause clause :: map blankClause rest)
                          values') as [ts' v'].
  cbn [fst] in *. now rewrite H.
Qed.

Lemma keysOf_blankRow row : keysOf (blankRow row) = keysOf row.
Proof. unfold keysOf, blankRow. rewrite map_map. reflexivity. Qed.

Lemma map_fst_combine {A B : Type} (xs : list A) : forall ys : list B,
  List.length xs = List.length ys -> map fst (combine xs ys) = xs.
Proof.
  induction xs as [|x xs IH]; intros [|y ys] Hl; try discriminate Hl;
    [reflexivity|].
  cbn [combine map fst]. f_equal. apply IH. now injection Hl.
Qed.

Lemma keysOf_arrayProps rows :
  keysOf (arrayProps rows) = map showNat (seq 0 (List.length rows)).
Proof.
  unfold keysOf, arrayProps. apply map_fst_combine.
  now rewrite !length_map, length_seq.
Qed.

Lemma keysOf_blankData d :
  keysOf (dataProps (blankData d)) = keysOf (dataProps d).
Proof.
  destruct d as [|row|rows]; cbn [blankData dataProps].
  - reflexivity.
  - apply keysOf_blankRow.
  - now rewrite !keysOf_arrayProps, length_map.
Qed.

Lemma textOf_filtering_blank b :
  textOf (Filtering.toSQL (blankFiltering b)) = textOf (Filtering.toSQL b).
Proof.
  destruct b as [table o data sel wh lim off ret].
  unfold Filtering.toSQL, blankFiltering, Filtering.paginate.
  cbn [Filtering._table Filtering._operation Filtering._data Filtering._select
       Filtering._where Filtering._limit Filtering._offset Filtering._returning].
  destruct o.
  - rewrite (surjective_pairing (buildWhere _ (map blankClause wh) [])),
            (surjective_pairing (buildWhere _ wh [])).
    cbn [textOf]. now rewrite (buildWhere_blank _ wh [] []).
  - destruct data as [|row|[|row rows]]; cbn [blankData asArray map];
      try reflexivity.
    all: rewrite keysOf_blankRow.
    all: destruct (keysOf row) as [|key keys] eqn:Hk; [reflexivity|].
    all: rewrite !bindRows_eq; cbn [textOf List.length];
      now rewrite ?length_map.
  - destruct data as [|row|rows]; [reflexivity| |].
    all: cbn [blankData dataProps].
    1: rewrite keysOf_blankRow.
    2: rewrite !keysOf_arrayProps, length_map.
    all: match goal with
         | |- context [match ?ks with [] => Thrown _ | _ :: _ => _ end] =>
             destruct ks as [|key keys] eqn:Hk; [reflexivity|]
         end.
    all: rewrite !renderSet_eq.
    all: match goal with
         | |- context [buildWhere ?q (map blankClause ?w) ?v'] =>
             match goal with
             | |- context [buildWhere q w ?v] =>
                 rewrite (surjective_pairing (buildWhere q (map blankClause w) v')),
                         (surjective_pairing (buildWhere q w v));
                 cbn [textOf];
                 rewrite (buildWhere_blank q w v v')
                   by (now rewrite !length_app, !length_map)
             end
         end.
    all: reflexivity.
  - rewrite (surjective_pairing (buildWhere _ (map blankClause wh) [])),
            (surjective_pairing (buildWhere _ wh [])).
    cbn [textOf]. now rewrite (buildWhere_blank _ wh [] []).
Qed.

Lemma textOf_joined_blank b :
  textOf (Joined.toSQL (blankJoined b)) = textOf (Joined.toSQL b).
Proof.
  destruct b as [table o data sel wh joins lim off ret].
  unfold Joined.toSQL, blankJoined, Joined.paginate.
  cbn [Joined._table Joined._operation Joined._data Joined._select
       Joined._where Joined._joins Joined._limit Joined._offset
       Joined._returning].
  destruct o.
  - rewrite (surjective_pairing (buildWhere _ (map blankClause wh) [])),
            (surjective_pairing (buildWhere _ wh [])).
    cbn [textOf]. now rewrite (buildWhere_blank _ wh [] []).
  - destruct joins; [|reflexivity].
    destruct data as [|row|[|row rows]]; cbn [blankData asArray map];
      try reflexivity.
    all: rewrite keysOf_blankRow.
    all: destruct (keysOf row) as [|key keys] eqn:Hk; [reflexivity|].
    all: rewrite !bindRows_eq; cbn [textOf List.length];
      now rewrite ?length_map.
  - destruct joins; [|reflexivity].
    destruct data as [|row|rows]; [reflexivity| |].
    all: cbn [blankData dataProps].
    1: rewrite keysOf_blankRow.
    2: rewrite !keysOf_arrayProps, length_map.
    all: match goal with
         | |- context [match ?ks with [] => Thrown _ | _ :: _ => _ end] =>
             destruct ks as [|key keys] eqn:Hk; [reflexivity|]
         end.
    all: rewrite !renderSet_eq.
    all: match goal with
         | |- context [buildWhere ?q (map blankClause ?w) ?v'] =>
             match goal with
             | |- context [buildWhere q w ?v] =>
                 rewrite (surjective_pairing (buildWhere q (map blankClause w) v')),
                         (surjective_pairing (buildWhere q w v));
                 cbn [textOf];
                 rewrite (buildWhere_blank q w v v')
                   by (now rewrite !length_app, !length_map)
             end
         end.
    all: reflexivity.
  - destruct joins; [|reflexivity].
    rewrite (surjective_pairing (buildWhere _ (map blankClause wh) [])),
            (surjective_pairing (buildWhere _ wh [])).
    cbn [textOf]. now rewrite (buildWhere_blank _ wh [] []).
Qed.

(** X3.  The text [toSQL] returns, and whether and with which message it
    throws, depend only on the shape of the statement: two builders that
    differ only in the values they bind (filter values other than those of
    IS and IS NOT, elements of IN arrays of equal length, cells of the
    payload records) compile to the same text.  No bound value is ever
    written into the text.  Both revisions. *)
Theorem text_depends_on_shape_only :
  (forall b1 b2,
      blankFiltering b1 = blankFiltering b2 ->
      textOf (Filtering.toSQL b1) = textOf (Filtering.toSQL b2))
  /\
  (forall b1 b2,
      blankJoined b1 = blankJoined b2 ->
      textOf (Joined.toSQL b1) = textOf (Joined.toSQL b2)).
Proof.
  split; intros b1 b2 H.
  - rewrite <- (textOf_filtering_blank b1), <- (textOf_filtering_blank b2).
    now rewrite H.
  - rewrite <- (textOf_joined_blank b1), <- (textOf_joined_blank b2).
    now rewrite H.
Qed.

Lemma text_depends_on_shape_only_witness :
  textOf (Joined.toSQL
            (Joined.where_ [("name", VStr "x' OR 1=1 --")]
               (Joined.update (DOne [("age", VNum 3)]) (Joined.create "users"))))
  = textOf (Joined.toSQL
              (Joined.where_ [("name", VStr "bob")]
                 (Joined.update (DOne [("age", VNum 41)]) (Joined.create "users")))).
Proof.
  apply (proj2 text_depends_on_shape_only). reflexivity.
Defined.

(** ** What each kind of statement ignores *)

Lemma joined_insert_ignores c b :
  shapesSelectJoined c = true ->
  Joined._operation b = INSERT ->
  Joined._operation (fst (callJoined c b)) = INSERT
  /\ Joined.toSQL (fst (callJoined c b)) = Joined.toSQL b.
Proof.
  intros Hc Hop. destruct b as [table o data sel wh joins lim off ret].
  cbn [Joined._operation] in Hop. subst o.
  destruct c; try discriminate Hc; split; reflexivity.
Qed.

Lemma joined_write_ignores c b :
  pagesOrProjectsJoined c = true ->
  Joined._operation b <> SELECT ->
  Joined._operation (fst (callJoined c b)) <> SELECT
  /\ Joined.toSQL (fst (callJoined c b)) = Joined.toSQL b.
Proof.
  intros Hc Hop. destruct b as [table o data sel wh joins lim off ret].
  cbn [Joined._operation] in Hop.
  destruct c; try discriminate Hc; (split; [exact Hop|]);
    destruct o; try reflexivity; now elim Hop.
Qed.

Lemma filtering_insert_ignores c b :
  filtersOrPagesFiltering c = true ->
  Filtering._operation b = INSERT ->
  Filtering._operation (fst (callFiltering c b)) = INSERT
  /\ Filtering.toSQL (fst (callFiltering c b)) = Filtering.toSQL b.
Proof.
  intros Hc Hop. destruct b as [table o data sel wh lim off ret].
  cbn [Filtering._operation] in Hop. subst o.
  destruct c; try discriminate Hc; split; reflexivity.
Qed.

Lemma filtering_write_ignores c b :
  pagesFiltering c = true ->
  Filtering._operation b <> SELECT ->
  Filtering._operation (fst (callFiltering c b)) <> SELECT
  /\ Filtering.toSQL (fst (callFiltering c b)) = Filtering.toSQL b.
Proof.
  intros Hc Hop. destruct b as [table o data sel wh lim off ret].
  cbn [Filtering._operation] in Hop.
  destruct c; try discriminate Hc; (split; [exact Hop|]);
    destruct o; try reflexivity; now elim Hop.
Qed.

Lemma runCalls_cons {B C : Type} (call : C -> B -> B * option Outcome) c cs b :
  fst (runCalls call (c :: cs) b) = fst (runCalls call cs (fst (call c b))).
Proof.
  cbn [runCalls]. destruct (call c b) as [b1 out]. cbn [fst].
  now destruct (runCalls call cs b1).
Qed.

(** X4.  Once the operation is INSERT, calls of [where], [orWhere], [limit]
    and [offset] (and, in the join-aware builder, of [select]) leave the
    compiled statement as it was, however many are made: an INSERT takes no
    filter, no pagination and, in the join-aware builder, no projection. *)
Theorem insert_ignores_filters_and_pagination :
  (forall cs b,
      forallb filtersOrPagesFiltering cs = true ->
      Filtering._operation b = INSERT ->
      Filtering.toSQL (fst (runCalls callFiltering cs b)) = Filtering.toSQL b)
  /\
  (forall cs b,
      forallb shapesSelectJoined cs = true ->
      Joined._operation b = INSERT ->
      Joined.toSQL (fst (runCalls callJoined cs b)) = Joined.toSQL b).
Proof.
  split; intro cs; induction cs as [|c rest IH]; intros b Hcs Hop;
    try reflexivity;
    cbn [forallb] in Hcs; apply andb_true_iff in Hcs; destruct Hcs as [Hc Hrest];
    rewrite runCalls_cons.
  - destruct (filtering_insert_ignores c b Hc Hop) as [Hop' Hsql].
    now rewrite IH.
  - destruct (joined_insert_ignores c b Hc Hop) as [Hop' Hsql].
    now rewrite IH.
Qed.

Lemma insert_ignores_filters_and_pagination_witness :
  Joined.toSQL
    (fst (runCalls callJoined
            [JWhere [("id", VNum 1)]; JLimit 5; JSelect ["id"]] sampleInsert))
  = Joined.toSQL sampleInsert.
Proof.
  apply (proj2 insert_ignores_filters_and_pagination); reflexivity.
Defined.

(** X5.  Once the operation is INSERT, UPDATE or DELETE, calls of [limit]
    and [offset] (and, in the join-aware builder, of [select]) leave the
    compiled statement as it was: LIMIT and OFFSET are written for SELECT
    only, so an UPDATE or DELETE is never restricted by them. *)
Theorem writes_ignore_pagination :
  (forall cs b,
      forallb pagesFiltering cs = true ->
      Filtering._operation b <> SELECT ->
      Filtering.toSQL (fst (runCalls callFiltering cs b)) = Filtering.toSQL b)
  /\
  (forall cs b,
      forallb pagesOrProjectsJoined cs = true ->
      Joined._operation b <> SELECT ->
      Joined.toSQL (fst (runCalls callJoined cs b)) = Joined.toSQL b).
Proof.
  split; intro cs; induction cs as [|c rest IH]; intros b Hcs Hop;
    try reflexivity;
    cbn [forallb] in Hcs; apply andb_true_iff in Hcs; destruct Hcs as [Hc Hrest];
    rewrite runCalls_cons.
  - destruct (filtering_write_ignores c b Hc Hop) as [Hop' Hsql].
    now rewrite IH.
  - destruct (joined_write_ignores c b Hc Hop) as [Hop' Hsql].
    now rewrite IH.
Qed.

Lemma writes_ignore_pagination_witness :
  Joined.toSQL
    (fst (runCalls callJoined [JLimit 1; JOffset 2]
            (Joined.where_ [("id", VNum 1)] (Joined.delete (Joined.create "t")))))
  = Joined.toSQL
      (Joined.where_ [("id", VNum 1)] (Joined.delete (Joined.create "t"))).
Proof.
  apply (proj2 writes_ignore_pagination); [reflexivity | discriminate].
Defined.

(** ** Pagination *)

(** X6.  A SELECT always compiles, and its text is the text of the same
    statement without pagination followed by [ LIMIT n] if a limit was set
    and then by [ OFFSET m] if an offset was set, with the same parameters:
    LIMIT comes before OFFSET whatever the order of the calls, since
    [limit] and [offset] commute, and of two [limit] calls (or two [offset]
    calls) the later one wins.  Both revisions. *)
Theorem select_pagination :
  (forall b,
      Filtering._operation b = SELECT ->
      exists sql values,
        Filtering.toSQL (unpagedFiltering b) = Returned sql values
        /\ Filtering.toSQL b
           = Returned (sql ++ limitText (Filtering._limit b)
                           ++ offsetText (Filtering._offset b)) values)
  /\
  (forall b,
      Joined._operation b = SELECT ->
      exists sql values,
        Joined.toSQL (unpagedJoined b) = Returned sql values
        /\ Joined.toSQL b
           = Returned (sql ++ limitText (Joined._limit b)
                           ++ offsetText (Joined._offset b)) values)
  /\
  (forall n m b,
      Filtering.limit n (Filtering.offset m b)
        = Filtering.offset m (Filtering.limit n b)
      /\ Filtering.limit n (Filtering.limit m b) = Filtering.limit n b
      /\ Filtering.offset n (Filtering.offset m b) = Filtering.offset n b)
  /\
  (forall n m b,
      Joined.limit n (Joined.offset m b) = Joined.offset m (Joined.limit n b)
      /\ Joined.limit n (Joined.limit m b) = Joined.limit n b
      /\ Joined.offset n (Joined.offset m b) = Joined.offset n b).
Proof.
  repeat apply conj.
  - intros b Hop. rewrite (filtering_select_sql b Hop).
    rewrite (filtering_select_sql (unpagedFiltering b) Hop).
    eexists; eexists. split; [reflexivity|].
    rewrite filtering_paginate_text.
    cbn [unpagedFiltering Filtering.paginate Filtering._limit Filtering._offset
         Filtering._select Filtering._table Filtering._where].
    reflexivity.
  - intros b Hop. rewrite (joined_select_sql b Hop).
    rewrite (joined_select_sql (unpagedJoined b) Hop).
    eexists; eexists. split; [reflexivity|].
    rewrite joined_paginate_text.
    cbn [unpagedJoined Joined.paginate Joined._limit Joined._offset
         Joined._select Joined._table Joined._where Joined._joins].
    reflexivity.
  - intros. repeat split.
  - intros. repeat split.
Qed.

Lemma select_pagination_witness :
  exists sql values,
    Joined.toSQL (unpagedJoined (Joined.limit 10 (Joined.offset 20 (Joined.create "t"))))
      = Returned sql values
    /\ Joined.toSQL (Joined.limit 10 (Joined.offset 20 (Joined.create "t")))
       = Returned (sql ++ " LIMIT 10" ++ " OFFSET 20") values.
Proof.
  apply (proj1 (proj2 select_pagination)
           (Joined.limit 10 (Joined.offset 20 (Joined.create "t")))).
  reflexivity.
Defined.

(** ** Joins *)

(** X7.  In a SELECT the joins are written right after the quoted table and
    before the filter, pagination coming last, one
    [ <KIND> JOIN <table> ON <col1> <op> <col2>] per join in the order the
    joins were declared, with table and columns quoted; the parameter list
    is that of the filter alone, so a join binds no parameter.  The text of
    a sequence of joins is the text of its parts one after the other, and a
    join call on a SELECT writes its join after the joins already declared
    and leaves the rest of the text and the parameters as they were. *)
Theorem select_joins_in_declaration_order :
  (forall b,
      Joined._operation b = SELECT ->
      Joined.toSQL b
      = Returned
          (("SELECT "
              ++ match Joined._select b with
                 | [] => "*"
                 | _ => join ", " (map Joined._quote (Joined._select b))
                 end
              ++ " FROM " ++ Joined._quote (Joined._table b))
             ++ joinsText (Joined._joins b)
             ++ fst (buildWhere Joined._quote (Joined._where b) [])
             ++ limitText (Joined._limit b) ++ offsetText (Joined._offset b))
          (snd (buildWhere Joined._quote (Joined._where b) [])))
  /\
  joinsText [] = EmptyString
  /\
  (forall j rest,
      joinsText (j :: rest)
      = " " ++ joinTypeText (jtype j) ++ " JOIN " ++ Joined._quote (jtable j)
          ++ " ON " ++ Joined._quote (col1 j) ++ " " ++ op j ++ " "
          ++ Joined._quote (col2 j) ++ joinsText rest)
  /\
  (forall joins joins',
      joinsText (joins ++ joins') = joinsText joins ++ joinsText joins')
  /\
  (forall j b,
      Joined._operation b = SELECT ->
      Joined.toSQL (Joined.addJoin j b)
      = Returned
          (("SELECT "
              ++ match Joined._select b with
                 | [] => "*"
                 | _ => join ", " (map Joined._quote (Joined._select b))
                 end
              ++ " FROM " ++ Joined._quote (Joined._table b))
             ++ (joinsText (Joined._joins b)
                   ++ " " ++ joinTypeText (jtype j) ++ " JOIN "
                   ++ Joined._quote (jtable j) ++ " ON "
                   ++ Joined._quote (col1 j) ++ " " ++ op j ++ " "
                   ++ Joined._quote (col2 j))
             ++ fst (buildWhere Joined._quote (Joined._where b) [])
             ++ limitText (Joined._limit b) ++ offsetText (Joined._offset b))
          (snd (buildWhere Joined._quote (Joined._where b) []))).
Proof.
  repeat apply conj.
  - exact joined_select_text.
  - reflexivity.
  - exact joinsText_cons.
  - exact joinsText_app.
  - intros j b Hop.
    rewrite (joined_select_text (Joined.addJoin j b) Hop).
    cbn [Joined.addJoin Joined._limit Joined._offset Joined._select
         Joined._table Joined._where Joined._joins].
    unfold push. rewrite joinsText_app, joinsText_cons.
    cbn [joinsText]. now rewrite !sappend_nil_r.
Qed.

Lemma select_joins_in_declaration_order_witness :
  Joined.toSQL
    (Joined.leftJoin "posts" "users.id" "=" "posts.userId"
       (Joined.where_ [("users.id", VNum 1)] (Joined.create "users")))
  = Returned
      (("SELECT " ++ "*" ++ " FROM " ++ Joined._quote "users")
         ++ (EmptyString
               ++ " " ++ "LEFT" ++ " JOIN " ++ Joined._quote "posts" ++ " ON "
               ++ Joined._quote "users.id" ++ " " ++ "=" ++ " "
               ++ Joined._quote "posts.userId")
         ++ fst (buildWhere Joined._quote
                   [mkClause AND "users.id" OpEq (VNum 1)] [])
         ++ EmptyString ++ EmptyString)
      (snd (buildWhere Joined._quote
              [mkClause AND "users.id" OpEq (VNum 1)] [])).
Proof.
  apply (proj2 (proj2 (proj2 (proj2 select_joins_in_declaration_order)))
           (mkJoin LEFT "posts" "users.id" "=" "posts.userId")
           (Joined.where_ [("users.id", VNum 1)] (Joined.create "users"))).
  reflexivity.
Defined.

(** ** Composition of [where] and [orWhere] calls *)

Lemma addWhere_app type conditions conditions' wh :
  _addWhere type (conditions ++ conditions')%list wh
  = _addWhere type conditions' (_addWhere type conditions wh).
Proof. unfold _addWhere. apply fold_left_app. Qed.

Lemma filtering_setWhere_same b : Filtering.setWhere (Filtering._where b) b = b.
Proof. now destruct b. Qed.

Lemma joined_setWhere_same b : Joined.setWhere (Joined._where b) b = b.
Proof. now destruct b. Qed.

(** X8.  One [where] call with several conditions is the same as one call
    per condition, in the same order ([where({a: 1, b: 2})] and
    [where({a: 1}).where({b: 2})] leave the same builder), likewise for
    [orWhere]; a call without conditions changes nothing; and the clauses a
    call appends do not depend on the filters already there.  Both
    revisions. *)
Theorem where_calls_compose :
  (forall conditions conditions' b,
      Filtering.where_ (conditions ++ conditions')%list b
        = Filtering.where_ conditions' (Filtering.where_ conditions b)
      /\ Filtering.orWhere (conditions ++ conditions')%list b
         = Filtering.orWhere conditions' (Filtering.orWhere conditions b))
  /\
  (forall conditions conditions' b,
      Joined.where_ (conditions ++ conditions')%list b
        = Joined.where_ conditions' (Joined.where_ conditions b)
      /\ Joined.orWhere (conditions ++ conditions')%list b
         = Joined.orWhere conditions' (Joined.orWhere conditions b))
  /\
  (forall b,
      Filtering.where_ [] b = b /\ Filtering.orWhere [] b = b)
  /\
  (forall b,
      Joined.where_ [] b = b /\ Joined.orWhere [] b = b)
  /\
  (forall type conditions wh,
      _addWhere type conditions wh = (wh ++ _addWhere type conditions [])%list).
Proof.
  repeat apply conj.
  - intros. unfold Filtering.where_, Filtering.orWhere.
    cbn [Filtering.setWhere Filtering._where Filtering._table
         Filtering._operation Filtering._data Filtering._select
         Filtering._limit Filtering._offset Filtering._returning].
    now rewrite !addWhere_app.
  - intros. unfold Joined.where_, Joined.orWhere.
    cbn [Joined.setWhere Joined._where Joined._table Joined._operation
         Joined._data Joined._select Joined._joins Joined._limit
         Joined._offset Joined._returning].
    now rewrite !addWhere_app.
  - intro b. split; apply filtering_setWhere_same.
  - intro b. split; apply joined_setWhere_same.
  - intros. now rewrite !addWhere_expanded.
Qed.

(** ** What no call undoes *)

Lemma joined_call_keeps c b :
  Joined._table (fst (callJoined c b)) = Joined._table b
  /\ (exists more,
        Joined._where (fst (callJoined c b)) = (Joined._where b ++ more)%list)
  /\ (exists more,
        Joined._joins (fst (callJoined c b)) = (Joined._joins b ++ more)%list)
  /\ (Joined._returning b = true ->
      Joined._returning (fst (callJoined c b)) = true)
  /\ (Joined._operation b <> SELECT ->
      Joined._operation (fst (callJoined c b)) <> SELECT).
Proof.
  destruct c; cbn [callJoined fst];
    repeat apply conj; try reflexivity; try tauto; try discriminate;
    try (exists []; now rewrite app_nil_r);
    try (destruct (addWhere_carries AND conditions (Joined._where b))
           as [added [H _]]; exists added; exact H);
    try (destruct (addWhere_carries OR conditions (Joined._where b))
           as [added [H _]]; exists added; exact H).
  exists [j]. reflexivity.
Qed.

Lemma filtering_call_keeps c b :
  Filtering._table (fst (callFiltering c b)) = Filtering._table b
  /\ (exists more,
        Filtering._where (fst (callFiltering c b))
        = (Filtering._where b ++ more)%list)
  /\ (Filtering._returning b = true ->
      Filtering._returning (fst (callFiltering c b)) = true)
  /\ (Filtering._operation b <> SELECT ->
      Filtering._operation (fst (callFiltering c b)) <> SELECT).
Proof.
  destruct c; cbn [callFiltering fst];
    repeat apply conj; try reflexivity; try tauto; try discriminate;
    try (exists []; now rewrite app_nil_r);
    try (destruct (addWhere_carries AND conditions (Filtering._where b))
           as [added [H _]]; exists added; exact H);
    try (destruct (addWhere_carries OR conditions (Filtering._where b))
           as [added [H _]]; exists added; exact H).
Qed.

Lemma joined_calls_keep cs : forall b,
  Joined._table (fst (runCalls callJoined cs b)) = Joined._table b
  /\ (exists more,
        Joined._where (fst (runCalls callJoined cs b))
        = (Joined._where b ++ more)%list)
  /\ (exists more,
        Joined._joins (fst (runCalls callJoined cs b))
        = (Joined._joins b ++ more)%list)
  /\ (Joined._returning b = true ->
      Joined._returning (fst (runCalls callJoined cs b)) = true)
  /\ (Joined._operation b <> SELECT ->
      Joined._operation (fst (runCalls callJoined cs b)) <> SELECT).
Proof.
  induction cs as [|c rest IH]; intro b.
  - cbn [runCalls fst]. repeat apply conj; try reflexivity; try tauto;
      exists []; now rewrite app_nil_r.
  - rewrite runCalls_cons.
    destruct (joined_call_keeps c b) as (Ht & [w Hw] & [j Hj] & Hr & Ho).
    destruct (IH (fst (callJoined c b))) as (Ht' & [w' Hw'] & [j' Hj'] & Hr' & Ho').
    repeat apply conj.
    + congruence.
    + exists (w ++ w')%list. now rewrite Hw', Hw, app_assoc.
    + exists (j ++ j')%list. now rewrite Hj', Hj, app_assoc.
    + auto.
    + auto.
Qed.

Lemma filtering_calls_keep cs : forall b,
  Filtering._table (fst (runCalls callFiltering cs b)) = Filtering._table b
  /\ (exists more,
        Filtering._where (fst (runCalls callFiltering cs b))
        = (Filtering._where b ++ more)%list)
  /\ (Filtering._returning b = true ->
      Filtering._returning (fst (runCalls callFiltering cs b)) = true)
  /\ (Filtering._operation b <> SELECT ->
      Filtering._operation (fst (runCalls callFiltering cs b)) <> SELECT).
Proof.
  induction cs as [|c rest IH]; intro b.
  - cbn [runCalls fst]. repeat apply conj; try reflexivity; try tauto;
      exists []; now rewrite app_nil_r.
  - rewrite runCalls_cons.
    destruct (filtering_call_keeps c b) as (Ht & [w Hw] & Hr & Ho).
    destruct (IH (fst (callFiltering c b))) as (Ht' & [w' Hw'] & Hr' & Ho').
    repeat apply conj.
    + congruence.
    + exists (w ++ w')%list. now rewrite Hw', Hw, app_assoc.
    + auto.
    + auto.
Qed.

(** X9.  Whatever calls are made on a builder, in any number and order: the
    table stays the same; the filters and (join-aware builder) the joins
    already there stay, in place, at the front of the sequence; the
    returning flag, once set, stays set; and the operation, once it is no
    longer SELECT, never is SELECT again.  No call removes a filter or a
    join or turns a write back into a query.  Both revisions. *)
Theorem calls_never_undo :
  (forall cs b,
      Filtering._table (fst (runCalls callFiltering cs b)) = Filtering._table b
      /\ (exists more,
            Filtering._where (fst (runCalls callFiltering cs b))
            = (Filtering._where b ++ more)%list)
      /\ (Filtering._returning b = true ->
          Filtering._returning (fst (runCalls callFiltering cs b)) = true)
      /\ (Filtering._operation b <> SELECT ->
          Filtering._operation (fst (runCalls callFiltering cs b)) <> SELECT))
  /\
  (forall cs b,
      Joined._table (fst (runCalls callJoined cs b)) = Joined._table b
      /\ (exists more,
            Joined._where (fst (runCalls callJoined cs b))
            = (Joined._where b ++ more)%list)
      /\ (exists more,
            Joined._joins (fst (runCalls callJoined cs b))
            = (Joined._joins b ++ more)%list)
      /\ (Joined._returning b = true ->
          Joined._returning (fst (runCalls callJoined cs b)) = true)
      /\ (Joined._operation b <> SELECT ->
          Joined._operation (fst (runCalls callJoined cs b)) <> SELECT)).
Proof.
  split; intros cs b.
  - apply filtering_calls_keep.
  - apply joined_calls_keep.
Qed.

(** X10.  In the join-aware builder, once a join was declared, every
    statement the builder can later be turned into that is not a SELECT
    fails to build: whatever calls follow the join call, if the operation
    ends up INSERT, UPDATE or DELETE then [toSQL] throws. *)
Theorem join_then_write_always_throws :
  forall j cs b,
    Joined._operation (fst (runCalls callJoined (JJoin j :: cs) b)) <> SELECT ->
    exists message,
      Joined.toSQL (fst (runCalls callJoined (JJoin j :: cs) b)) = Thrown message.
Proof.
  intros j cs b Hop. apply joined_throws. right; right. split; [exact Hop|].
  rewrite runCalls_cons.
  destruct (joined_calls_keep cs (fst (callJoined (JJoin j) b)))
    as (_ & _ & [more Hj] & _).
  rewrite Hj. cbn [callJoined fst Joined.addJoin Joined._joins]. unfold push.
  rewrite <- app_assoc. intro H. apply app_eq_nil in H. destruct H as [_ H].
  discriminate H.
Qed.

Lemma join_then_write_always_throws_witness :
  exists message,
    Joined.toSQL
      (fst (runCalls callJoined
              [JJoin (mkJoin LEFT "posts" "users.id" "=" "posts.user_id");
               JWhere [("id", VNum 1)]; JUpdate (DOne [("name", VStr "x")])]
              (Joined.create "users")))
    = Thrown message.
Proof.
  apply (join_then_write_always_throws
           (mkJoin LEFT "posts" "users.id" "=" "posts.user_id")
           [JWhere [("id", VNum 1)]; JUpdate (DOne [("name", VStr "x")])]
           (Joined.create "users")).
  discriminate.
Defined.

(** ** More on [_quote] *)

Lemma startsWith_quoted_join part parts :
  startsWith "034" (join "." (map quoted (part :: parts))) = true.
Proof.
  unfold join. cbn [map]. unfold quoted at 1, dquote. cbn [append].
  rewrite concat_cons_string. reflexivity.
Qed.

Lemma quote_starts_quoted identifier :
  Joined._quote identifier = identifier
  \/ startsWith "034" (Joined._quote identifier) = true.
Proof.
  unfold Joined._quote.
  destruct (String.eqb identifier "*"); [now left|].
  destruct (includes "(" identifier || includes " " identifier
            || startsWith "034" identifier)%bool; [now left|].
  right. destruct (includes "." identifier).
  - pose proof (split_not_nil "." identifier) as Hnil.
    destruct (split "." identifier) as [|part parts]; [now elim Hnil|].
    apply startsWith_quoted_join.
  - reflexivity.
Qed.

Lemma quote_quote identifier :
  Joined._quote (Joined._quote identifier) = Joined._quote identifier.
Proof.
  destruct (quote_starts_quoted identifier) as [H|H].
  - now rewrite H.
  - apply quote_untouched. auto.
Qed.

Lemma without_app c s t : without c (s ++ t) = without c s ++ without c t.
Proof.
  induction s as [|a s IH]; cbn [append without]; [reflexivity|].
  destruct (Ascii.eqb a c); cbn [append]; now rewrite IH.
Qed.

Lemma without_quoted part : without "034" (quoted part) = without "034" part.
Proof.
  unfold quoted, dquote. rewrite !without_app. cbn [without Ascii.eqb].
  cbn. now rewrite sappend_nil_r.
Qed.

Lemma without_join_quoted parts :
  without "034" (join "." (map quoted parts)) = without "034" (join "." parts).
Proof.
  unfold join. induction parts as [|part rest IH]; [reflexivity|].
  destruct rest as [|part' rest'].
  - cbn [map String.concat]. apply without_quoted.
  - change (String.concat "." (map quoted (part :: part' :: rest')))
      with (quoted part ++ "." ++ String.concat "." (map quoted (part' :: rest'))).
    change (String.concat "." (part :: part' :: rest'))
      with (part ++ "." ++ String.concat "." (part' :: rest')).
    rewrite !without_app, without_quoted, IH. reflexivity.
Qed.

(** X11.  [_quote] is idempotent: what it returns it would return again, so
    an identifier that went through [_quote] once can go through it again
    (a quoted name, a dotted name quoted per segment, an expression left
    untouched) without gaining a second pair of quotes.  Whatever it
    returns is either the identifier itself or starts with a double
    quote. *)
Theorem quote_idempotent :
  (forall identifier,
      Joined._quote (Joined._quote identifier) = Joined._quote identifier)
  /\
  (forall identifier,
      Joined._quote identifier = identifier
      \/ startsWith "034" (Joined._quote identifier) = true).
Proof.
  split.
  - apply quote_quote.
  - apply quote_starts_quoted.
Qed.

Lemma QuotesAdded_refl s : QuotesAdded s s.
Proof. induction s; constructor; assumption. Qed.

Lemma QuotesAdded_app s t s' t' :
  QuotesAdded s t -> QuotesAdded s' t' -> QuotesAdded (s ++ s') (t ++ t').
Proof.
  intros H H'. induction H; cbn [append]; [assumption | |];
    constructor; assumption.
Qed.

Lemma QuotesAdded_quoted part : QuotesAdded part (quoted part).
Proof.
  unfold quoted, dquote. cbn [append]. apply added_quote.
  rewrite <- (sappend_nil_r part) at 1.
  apply QuotesAdded_app; [apply QuotesAdded_refl|].
  apply added_quote, added_none.
Qed.

Lemma QuotesAdded_join parts :
  QuotesAdded (join "." parts) (join "." (map quoted parts)).
Proof.
  unfold join. induction parts as [|part rest IH]; [constructor|].
  destruct rest as [|part' rest'].
  - cbn [map String.concat]. apply QuotesAdded_quoted.
  - change (String.concat "." (map quoted (part :: part' :: rest')))
      with (quoted part ++ "." ++ String.concat "." (map quoted (part' :: rest'))).
    change (String.concat "." (part :: part' :: rest'))
      with (part ++ "." ++ String.concat "." (part' :: rest')).
    apply QuotesAdded_app; [apply QuotesAdded_quoted|].
    apply QuotesAdded_app; [apply QuotesAdded_refl | exact IH].
Qed.

Lemma countChar_quoted part :
  countChar "034" (quoted part) = countChar "034" part + 2.
Proof.
  unfold quoted, dquote. rewrite !countChar_app. cbn [countChar Ascii.eqb].
  cbn. lia.
Qed.

Lemma countChar_join_quoted parts :
  countChar "034" (join "." (map quoted parts))
  = countChar "034" (join "." parts) + 2 * List.length parts.
Proof.
  unfold join. induction parts as [|part rest IH]; [reflexivity|].
  destruct rest as [|part' rest'].
  - cbn [map String.concat List.length]. rewrite countChar_quoted. lia.
  - change (String.concat "." (map quoted (part :: part' :: rest')))
      with (quoted part ++ "." ++ String.concat "." (map quoted (part' :: rest'))).
    change (String.concat "." (part :: part' :: rest'))
      with (part ++ "." ++ String.concat "." (part' :: rest')).
    rewrite !countChar_app, countChar_quoted, IH.
    cbn [List.length]. lia.
Qed.

Lemma split_plain c s : includes c s = false -> split c s = [s].
Proof.
  induction s as [|a rest IH]; cbn [includes split]; [reflexivity|].
  destruct (Ascii.eqb a c); cbn [orb]; [discriminate|].
  intro H. now rewrite (IH H).
Qed.

(** X12.  [_quote] only ever adds double quotes, and only its own: what it
    returns is the identifier with double quotes inserted, every character
    of the identifier kept in place and in order, and it holds exactly two
    double quotes more per segment it quotes (none for [*], for an
    expression and for an identifier that starts with a double quote; one
    pair per dot-separated segment otherwise).  So it drops, changes,
    reorders or escapes no character: a double quote inside an identifier
    is neither doubled nor removed. *)
Theorem quote_only_adds_quotes :
  forall identifier,
    QuotesAdded identifier (Joined._quote identifier)
    /\ countChar "034" (Joined._quote identifier)
       = countChar "034" identifier + 2 * quotedSegments identifier
    /\ without "034" (Joined._quote identifier) = without "034" identifier.
Proof.
  intro identifier. unfold Joined._quote, quotedSegments.
  destruct (String.eqb identifier "*");
    [repeat split; [apply QuotesAdded_refl | lia]|].
  destruct (includes "(" identifier || includes " " identifier
            || startsWith "034" identifier)%bool;
    [repeat split; [apply QuotesAdded_refl | lia]|].
  change (fun part : string => dquote ++ part ++ dquote) with quoted.
  change (dquote ++ identifier ++ dquote) with (quoted identifier).
  destruct (includes "." identifier) eqn:Hdot.
  - repeat split.
    + rewrite <- (join_split "."%char identifier) at 1. apply QuotesAdded_join.
    + rewrite countChar_join_quoted. now rewrite (join_split "."%char).
    + rewrite without_join_quoted. now rewrite (join_split "."%char).
  - rewrite (split_plain _ _ Hdot). cbn [List.length]. repeat split.
    + apply QuotesAdded_quoted.
    + apply countChar_quoted.
    + apply without_quoted.
Qed.

(** ** Bulk INSERT reads the first record's keys only *)

Lemma cellsOf_agree keys rows rows' :
  Forall2 (agreeOn keys) rows rows' -> cellsOf keys rows = cellsOf keys rows'.
Proof.
  induction 1 as [|row row' rows rows' Hrow Hrows IH]; [reflexivity|].
  rewrite !cellsOf_cons, IH. f_equal. apply map_ext_in. exact Hrow.
Qed.

Lemma joined_insert_no_columns b firstRow rest :
  Joined._operation b = INSERT ->
  Joined._joins b = [] ->
  asArray (Joined._data b) = firstRow :: rest ->
  keysOf firstRow = [] ->
  Joined.toSQL b = Thrown "No columns to insert".
Proof.
  intros Hop Hj Hd Hk. unfold Joined.toSQL. rewrite Hop, Hj.
  destruct (Joined._data b) as [|row|rows]; [discriminate Hd| |];
    rewrite Hd, Hk; reflexivity.
Qed.

Lemma filtering_insert_no_columns b firstRow rest :
  Filtering._operation b = INSERT ->
  asArray (Filtering._data b) = firstRow :: rest ->
  keysOf firstRow = [] ->
  Filtering.toSQL b = Thrown "No columns to insert".
Proof.
  intros Hop Hd Hk. unfold Filtering.toSQL. rewrite Hop.
  destruct (Filtering._data b) as [|row|rows]; [discriminate Hd| |];
    rewrite Hd, Hk; reflexivity.
Qed.

Lemma joined_insert_with_joins b :
  Joined._operation b = INSERT ->
  Joined._joins b <> [] ->
  Joined.toSQL b = Thrown "INSERT does not support JOINS".
Proof.
  intros Hop Hj. unfold Joined.toSQL. rewrite Hop.
  destruct (Joined._joins b); [now elim Hj | reflexivity].
Qed.

(** X13.  An INSERT reads its payload through the keys of the first record
    only: two payloads whose first records have the same keys in the same
    order and whose records agree cell by cell under those keys compile to
    the same outcome.  Hence a key that only a later record has is left
    out, the order of the keys inside a later record does not matter, and a
    single record is the same as an array holding just that record.  Both
    revisions. *)
Theorem insert_reads_first_record_keys :
  forall d d' firstRow rest firstRow' rest',
    asArray d = firstRow :: rest ->
    asArray d' = firstRow' :: rest' ->
    keysOf firstRow = keysOf firstRow' ->
    Forall2 (agreeOn (keysOf firstRow)) (firstRow :: rest) (firstRow' :: rest') ->
    (forall b,
        Filtering._operation b = INSERT ->
        Filtering.toSQL (withDataFiltering d b)
        = Filtering.toSQL (withDataFiltering d' b))
    /\
    (forall b,
        Joined._operation b = INSERT ->
        Joined.toSQL (withDataJoined d b) = Joined.toSQL (withDataJoined d' b)).
Proof.
  intros d d' firstRow rest firstRow' rest' Hd Hd' Hkeys Hrows.
  assert (Hlen : List.length rest = List.length rest').
  { apply Forall2_length in Hrows. now injection Hrows. }
  split; intros b Hop.
  - destruct (keysOf firstRow) as [|key keys] eqn:Hk.
    + rewrite (filtering_insert_no_columns (withDataFiltering d b)
                 firstRow rest Hop Hd Hk).
      now rewrite (filtering_insert_no_columns (withDataFiltering d' b)
                     firstRow' rest' Hop Hd' (eq_sym Hkeys)).
    + rewrite (filtering_insert_sql (withDataFiltering d b) firstRow rest Hop Hd)
        by (rewrite Hk; discriminate).
      rewrite (filtering_insert_sql (withDataFiltering d' b) firstRow' rest'
                                    Hop Hd')
        by (rewrite <- Hkeys; discriminate).
      rewrite <- Hkeys, Hk in *.
      now rewrite (cellsOf_agree _ _ _ Hrows), Hlen.
  - destruct (Joined._joins b) as [|j joins] eqn:Hj.
    2:{ rewrite !joined_insert_with_joins; try reflexivity; try exact Hop;
          cbn [withDataJoined Joined._joins]; rewrite Hj; discriminate. }
    destruct (keysOf firstRow) as [|key keys] eqn:Hk.
    + rewrite (joined_insert_no_columns (withDataJoined d b)
                 firstRow rest Hop Hj Hd Hk).
      now rewrite (joined_insert_no_columns (withDataJoined d' b)
                     firstRow' rest' Hop Hj Hd' (eq_sym Hkeys)).
    + rewrite (joined_insert_sql (withDataJoined d b) firstRow rest Hop Hj Hd)
        by (rewrite Hk; discriminate).
      rewrite (joined_insert_sql (withDataJoined d' b) firstRow' rest'
                                 Hop Hj Hd')
        by (rewrite <- Hkeys; discriminate).
      rewrite <- Hkeys, Hk in *.
      now rewrite (cellsOf_agree _ _ _ Hrows), Hlen.
Qed.

Lemma insert_reads_first_record_keys_witness :
  Joined.toSQL
    (withDataJoined
       (DMany [ [("a", VNum 1); ("b", VNum 2)];
                [("b", VNum 4); ("zz", VStr "dropped"); ("a", VNum 3)] ])
       sampleInsert)
  = Joined.toSQL (withDataJoined (DMany sampleRows) sampleInsert).
Proof.
  refine (proj2 (insert_reads_first_record_keys
                   (DMany [ [("a", VNum 1); ("b", VNum 2)];
                            [("b", VNum 4); ("zz", VStr "dropped"); ("a", VNum 3)] ])
                   (DMany sampleRows)
                   [("a", VNum 1); ("b", VNum 2)]
                   [[("b", VNum 4); ("zz", VStr "dropped"); ("a", VNum 3)]]
                   [("a", VNum 1); ("b", VNum 2)]
                   [[("a", VNum 3); ("b", VNum 4)]]
                   eq_refl eq_refl eq_refl _) sampleInsert eq_refl).
  repeat constructor; intros key [<-|[<-|[]]]; reflexivity.
Defined.

(** * Properties of execution and of the adapters *)

(** ** [execute] *)

Lemma executeJoined_thrown {W : Type}
    (query : string -> option (list JsValue) -> W -> W * Settled QueryResult)
    b message w :
  Joined.toSQL b = Thrown message ->
  executeJoined query b w = (w, Rejected message).
Proof. intro H. unfold executeJoined. now rewrite H. Qed.

Lemma executeFiltering_thrown {W : Type}
    (query : string -> option (list JsValue) -> W -> W * Settled QueryResult)
    b message w :
  Filtering.toSQL b = Thrown message ->
  executeFiltering query b w = (w, Rejected message).
Proof. intro H. unfold executeFiltering. now rewrite H. Qed.

Lemma executeJoined_dummy b text values logs :
  Joined.toSQL b = Returned text values ->
  executeJoined DummyAdapter.query b logs
  = ((logs ++ [mkLog text values])%list, Fulfilled []).
Proof. intro H. unfold executeJoined. now rewrite H. Qed.

Lemma executeFiltering_dummy b text values logs :
  Filtering.toSQL b = Returned text values ->
  executeFiltering DummyAdapter.query b logs
  = ((logs ++ [mkLog text values])%list, Fulfilled []).
Proof. intro H. unfold executeFiltering. now rewrite H. Qed.

(** X14.  [execute()] never reaches the adapter with a statement that fails
    to build: under the conditions in which [toSQL] throws, whatever the
    adapter, its [query] is not called, the world is left as it was and the
    promise is rejected with the build error.  Otherwise the adapter is
    asked exactly once, with the compiled text and parameter list: on a
    [DummyAdapter] the log grows by that one entry and the rows returned
    are empty.  Both revisions. *)
Theorem execute_sends_only_built_statements :
  (forall (W : Type)
          (query : string -> option (list JsValue) -> W -> W * Settled QueryResult)
          b w,
      joinedFault b ->
      exists message,
        Joined.toSQL b = Thrown message
        /\ executeJoined query b w = (w, Rejected message))
  /\
  (forall b logs,
      ~ joinedFault b ->
      exists text values,
        Joined.toSQL b = Returned text values
        /\ executeJoined DummyAdapter.query b logs
           = ((logs ++ [mkLog text values])%list, Fulfilled []))
  /\
  (forall (W : Type)
          (query : string -> option (list JsValue) -> W -> W * Settled QueryResult)
          b w,
      filteringFault b ->
      exists message,
        Filtering.toSQL b = Thrown message
        /\ executeFiltering query b w = (w, Rejected message))
  /\
  (forall b logs,
      ~ filteringFault b ->
      exists text values,
        Filtering.toSQL b = Returned text values
        /\ executeFiltering DummyAdapter.query b logs
           = ((logs ++ [mkLog text values])%list, Fulfilled [])).
Proof.
  repeat apply conj.
  - intros W query b w Hfault. apply joined_throws in Hfault.
    destruct Hfault as [message H]. exists message. split; [exact H|].
    now apply executeJoined_thrown.
  - intros b logs Hok.
    assert (H : exists text values, Joined.toSQL b = Returned text values).
    { apply returned_iff_not_thrown. now rewrite joined_throws. }
    destruct H as (text & values & H). exists text, values.
    split; [exact H | now apply executeJoined_dummy].
  - intros W query b w Hfault. apply filtering_throws in Hfault.
    destruct Hfault as [message H]. exists message. split; [exact H|].
    now apply executeFiltering_thrown.
  - intros b logs Hok.
    assert (H : exists text values, Filtering.toSQL b = Returned text values).
    { apply returned_iff_not_thrown. now rewrite filtering_throws. }
    destruct H as (text & values & H). exists text, values.
    split; [exact H | now apply executeFiltering_dummy].
Qed.

Lemma execute_sends_only_built_statements_witness :
  exists message,
    Joined.toSQL (Joined.innerJoin "posts" "users.id" "=" "posts.user_id"
                    (Joined.delete (Joined.create "users")))
    = Thrown message
    /\ executeJoined DummyAdapter.query
         (Joined.innerJoin "posts" "users.id" "=" "posts.user_id"
            (Joined.delete (Joined.create "users")))
         [mkLog "BEGIN" []]
       = ([mkLog "BEGIN" []], Rejected message).
Proof.
  apply (proj1 execute_sends_only_built_statements).
  right; right. split; discriminate.
Defined.

(** ** Transactions on a [DummyAdapter] *)

Lemma executeAll_dummy bs : forall logs,
  executeAll DummyAdapter.query bs logs
  = ((logs ++ fst (compiledUntilFault bs))%list,
     match snd (compiledUntilFault bs) with
     | None => Fulfilled (map (fun _ => []) bs)
     | Some message => Rejected message
     end).
Proof.
  induction bs as [|b rest IH]; intro logs; cbn [executeAll compiledUntilFault].
  - cbn [fst snd map]. now rewrite app_nil_r.
  - destruct (Joined.toSQL b) as [text values|message] eqn:Hb.
    + rewrite (executeJoined_dummy b text values logs Hb), IH.
      destruct (compiledUntilFault rest) as [entries fault].
      cbn [fst snd]. rewrite <- app_assoc. cbn [app].
      destruct fault; reflexivity.
    + rewrite (executeJoined_thrown DummyAdapter.query b message logs Hb).
      cbn [fst snd]. now rewrite app_nil_r.
Qed.

(** X15.  A transaction on a [DummyAdapter] whose callback executes builders
    one after the other logs BEGIN, then the compiled statement of every
    builder up to the first that fails to build, then COMMIT if all of them
    built and ROLLBACK otherwise; in the latter case the transaction is
    rejected with that builder's build error, and neither the failing
    statement nor any statement after it is logged. *)
Theorem transaction_of_statements :
  forall bs logs,
    DummyAdapter.transaction (executeAll DummyAdapter.query bs) logs
    = match snd (compiledUntilFault bs) with
      | None =>
          ((logs ++ mkLog "BEGIN" [] :: fst (compiledUntilFault bs)
                 ++ [mkLog "COMMIT" []])%list,
           Fulfilled (map (fun _ => []) bs))
      | Some message =>
          ((logs ++ mkLog "BEGIN" [] :: fst (compiledUntilFault bs)
                 ++ [mkLog "ROLLBACK" []])%list,
           Rejected message)
      end.
Proof.
  intros bs logs. unfold DummyAdapter.transaction. rewrite executeAll_dummy.
  unfold push.
  destruct (snd (compiledUntilFault bs)); rewrite <- !app_assoc; reflexivity.
Qed.

(** X16.  Transactions of a [DummyAdapter] nested [depth] deep log [depth]
    BEGIN entries before the callback runs and, after it, [depth] COMMIT
    entries if it was fulfilled and [depth] ROLLBACK entries if it was
    rejected, never a mix; the value or the error of the callback comes out
    unchanged.  A failure inside an inner transaction thus rolls every
    enclosing transaction back. *)
Theorem nested_transactions_bracket :
  forall (T : Type) depth
         (callback : DummyAdapter.Logs -> DummyAdapter.Logs * Settled T) logs,
    nested depth callback logs
    = ((fst (callback (logs ++ repeat (mkLog "BEGIN" []) depth)%list)
          ++ repeat (closingEntry
                       (snd (callback
                               (logs ++ repeat (mkLog "BEGIN" []) depth)%list)))
                    depth)%list,
       snd (callback (logs ++ repeat (mkLog "BEGIN" []) depth)%list)).
Proof.
  intros T depth callback. induction depth as [|d IH]; intro logs.
  - cbn [nested repeat]. rewrite !app_nil_r. apply surjective_pairing.
  - cbn [nested]. unfold DummyAdapter.transaction, push. rewrite IH.
    rewrite <- app_assoc. cbn [app].
    replace (mkLog "BEGIN" [] :: repeat (mkLog "BEGIN" []) d)
      with (repeat (mkLog "BEGIN" []) (S d)) by reflexivity.
    destruct (snd (callback (logs ++ repeat (mkLog "BEGIN" []) (S d))%list))
      as [result|reason];
      cbn [closingEntry]; rewrite <- app_assoc; repeat f_equal;
      change [?x] with (repeat x 1); rewrite <- repeat_app;
      now rewrite Nat.add_comm.
Qed.

(** ** [PostgresAdapter] *)

(** X17.  An adapter built by the constructor holds a pool or a client,
    never neither and never both: a pool for a [Pool] or a configuration, a
    client for a [PoolClient].  Hence [query] always reaches [pg] with
    exactly one call (on the client if there is one, on the pool
    otherwise), is rejected only if [pg] rejects, and reports a row count of
    [0] when [pg] gives [null]; the error [Adapter is closed or invalid] is
    never raised on such an adapter, nor on the adapter a transaction hands
    to its callback. *)
Theorem constructed_adapter_has_one_executor :
  (forall configOrPool,
      (PostgresAdapter.pool (PostgresAdapter.construct configOrPool) = None
       /\ exists c, configOrPool = PostgresAdapter.IsClient c
                    /\ PostgresAdapter.client (PostgresAdapter.construct configOrPool) = Some c)
      \/ (PostgresAdapter.client (PostgresAdapter.construct configOrPool) = None
          /\ exists p, PostgresAdapter.pool (PostgresAdapter.construct configOrPool) = Some p))
  /\
  (forall pg configOrPool text given trace,
      exists call,
        call = match configOrPool with
               | PostgresAdapter.IsClient c => ClientQuery c text given
               | PostgresAdapter.IsPool p | PostgresAdapter.IsConfig p => PoolQuery p text given
               end
        /\ fst (PostgresAdapter.query pg text given (PostgresAdapter.construct configOrPool) trace)
           = (trace ++ [call])%list
        /\ snd (PostgresAdapter.query pg text given (PostgresAdapter.construct configOrPool) trace)
           = match answersQuery pg trace call with
             | Fulfilled result =>
                 Fulfilled (mkResult (pgRows result)
                                     (match pgRowCount result with
                                      | Some n => n
                                      | None => 0%Z
                                      end))
             | Rejected reason => Rejected reason
             end).
Proof.
  split.
  - intros [p|c|p]; cbn [PostgresAdapter.construct PostgresAdapter.pool PostgresAdapter.client].
    + right. eauto.
    + left. eauto.
    + right. eauto.
  - intros pg [p|c|p] text given trace; eexists; repeat split.
Qed.

Lemma transaction_connect_rejected {T : Type} pg
    (callback : PostgresAdapter.Adapter -> list PgCall -> list PgCall * Settled T)
    p trace reason :
  answersConnect pg trace p = Rejected reason ->
  PostgresAdapter.transaction pg callback (PostgresAdapter.mkAdapter (Some p) None) trace
  = ((trace ++ [PoolConnect p])%list, Rejected reason).
Proof.
  intro H. unfold PostgresAdapter.transaction.
  cbn [PostgresAdapter.client PostgresAdapter.pool]. now rewrite H.
Qed.

Lemma transaction_ends {T : Type} pg
    (callback : PostgresAdapter.Adapter -> list PgCall -> list PgCall * Settled T)
    p trace c :
  answersConnect pg trace p = Fulfilled c ->
  exists before,
    fst (PostgresAdapter.transaction pg callback (PostgresAdapter.mkAdapter (Some p) None) trace)
    = (before
         ++ [ClientQuery c
               (closingCommand
                  (snd (PostgresAdapter.transaction pg callback (PostgresAdapter.mkAdapter (Some p) None) trace)))
               None;
             ClientRelease c])%list
    /\ (forall reason,
          closingCommand
            (snd (PostgresAdapter.transaction pg callback (PostgresAdapter.mkAdapter (Some p) None) trace))
          = "ROLLBACK" ->
          answersQuery pg before (ClientQuery c "ROLLBACK" None)
          = Rejected reason ->
          snd (PostgresAdapter.transaction pg callback (PostgresAdapter.mkAdapter (Some p) None) trace)
          = Rejected reason)
    /\ (forall result,
          snd (PostgresAdapter.transaction pg callback (PostgresAdapter.mkAdapter (Some p) None) trace)
          = Fulfilled result ->
          snd (callback (PostgresAdapter.construct (PostgresAdapter.IsClient c))
                        (trace ++ [PoolConnect p; ClientQuery c "BEGIN" None])%list)
          = Fulfilled result).
Proof.
  intro Hc. unfold PostgresAdapter.transaction, PostgresAdapter.command, push.
  cbn [PostgresAdapter.client PostgresAdapter.pool].
  rewrite Hc. rewrite <- !app_assoc. cbn [app].
  destruct (answersQuery pg (trace ++ [PoolConnect p])%list
                         (ClientQuery c "BEGIN" None)) as [ok|e0].
  - destruct (callback (PostgresAdapter.construct (PostgresAdapter.IsClient c))
                       (trace ++ [PoolConnect p; ClientQuery c "BEGIN" None])%list)
      as [t2 [v|e]]; cbn [fst snd].
    + destruct (answersQuery pg t2 (ClientQuery c "COMMIT" None)) as [ok'|e1].
      * cbn [fst snd closingCommand]. exists t2. rewrite <- app_assoc.
        repeat split; [discriminate | congruence].
      * destruct (answersQuery pg (t2 ++ [ClientQuery c "COMMIT" None])%list
                               (ClientQuery c "ROLLBACK" None)) as [ok''|e2] eqn:Hrb;
          cbn [fst snd closingCommand];
          exists (t2 ++ [ClientQuery c "COMMIT" None])%list;
          rewrite <- !app_assoc; repeat split; try discriminate;
          intros; congruence.
    + destruct (answersQuery pg t2 (ClientQuery c "ROLLBACK" None)) as [ok''|e2] eqn:Hrb;
        cbn [fst snd closingCommand]; exists t2;
        rewrite <- !app_assoc; repeat split; try discriminate;
        intros; congruence.
  - destruct (answersQuery pg
                (trace ++ [PoolConnect p; ClientQuery c "BEGIN" None])%list
                (ClientQuery c "ROLLBACK" None)) as [ok''|e2] eqn:Hrb;
      cbn [fst snd closingCommand];
      exists (trace ++ [PoolConnect p; ClientQuery c "BEGIN" None])%list;
      rewrite <- !app_assoc; repeat split; try discriminate;
      intros; congruence.
Qed.

Lemma transaction_callback_rejected {T : Type} pg
    (callback : PostgresAdapter.Adapter -> list PgCall -> list PgCall * Settled T)
    p trace c begun after reason rolled :
  answersConnect pg trace p = Fulfilled c ->
  answersQuery pg (trace ++ [PoolConnect p])%list (ClientQuery c "BEGIN" None)
    = Fulfilled begun ->
  callback (PostgresAdapter.construct (PostgresAdapter.IsClient c))
           (trace ++ [PoolConnect p; ClientQuery c "BEGIN" None])%list
    = (after, Rejected reason) ->
  answersQuery pg after (ClientQuery c "ROLLBACK" None) = Fulfilled rolled ->
  PostgresAdapter.transaction pg callback
    (PostgresAdapter.mkAdapter (Some p) None) trace
  = ((after ++ [ClientQuery c "ROLLBACK" None; ClientRelease c])%list,
     Rejected reason).
Proof.
  intros Hc Hb Hcb Hrb.
  unfold PostgresAdapter.transaction, PostgresAdapter.command, push.
  cbn [PostgresAdapter.client PostgresAdapter.pool].
  rewrite Hc, <- !app_assoc. cbn [app]. rewrite Hb, Hcb, Hrb.
  now rewrite <- app_assoc.
Qed.

(** X18.  A transaction started on an adapter that holds a pool asks the
    pool for a client.  If that fails, nothing else is issued and the
    failure is what the caller gets.  Otherwise the last two calls on [pg]
    are always a COMMIT or a ROLLBACK on that client followed by the
    release of that client, whatever failed in between: COMMIT when the
    transaction is fulfilled, ROLLBACK when it is rejected.  It is fulfilled
    only with the value its callback, run after BEGIN on an adapter holding
    that client, was fulfilled with. *)
Theorem transaction_closes_and_releases :
  forall (T : Type) pg
         (callback : PostgresAdapter.Adapter -> list PgCall
                     -> list PgCall * Settled T)
         p trace,
    (forall reason,
        answersConnect pg trace p = Rejected reason ->
        PostgresAdapter.transaction pg callback
          (PostgresAdapter.mkAdapter (Some p) None) trace
        = ((trace ++ [PoolConnect p])%list, Rejected reason))
    /\
    (forall c,
        answersConnect pg trace p = Fulfilled c ->
        exists before,
          fst (PostgresAdapter.transaction pg callback
                 (PostgresAdapter.mkAdapter (Some p) None) trace)
          = (before
               ++ [ClientQuery c
                     (closingCommand
                        (snd (PostgresAdapter.transaction pg callback
                                (PostgresAdapter.mkAdapter (Some p) None) trace)))
                     None;
                   ClientRelease c])%list
          /\ (forall result,
                snd (PostgresAdapter.transaction pg callback
                       (PostgresAdapter.mkAdapter (Some p) None) trace)
                = Fulfilled result ->
                snd (callback
                       (PostgresAdapter.construct (PostgresAdapter.IsClient c))
                       (trace ++ [PoolConnect p; ClientQuery c "BEGIN" None])%list)
                = Fulfilled result)).
Proof.
  intros T pg callback p trace. split.
  - intros reason H. now apply transaction_connect_rejected.
  - intros c H. destruct (transaction_ends pg callback p trace c H)
      as (before & Hends & _ & Hvalue).
    exists before. split; assumption.
Qed.

Lemma transaction_closes_and_releases_witness :
  exists before,
    fst (PostgresAdapter.transaction obligingPostgres
           (fun trx => PostgresAdapter.query obligingPostgres "SELECT 1" None trx)
           (PostgresAdapter.mkAdapter (Some 3) None) [])
    = (before
         ++ [ClientQuery 7
               (closingCommand
                  (snd (PostgresAdapter.transaction obligingPostgres
                          (fun trx => PostgresAdapter.query obligingPostgres
                                        "SELECT 1" None trx)
                          (PostgresAdapter.mkAdapter (Some 3) None) [])))
               None;
             ClientRelease 7])%list
    /\ (forall result,
          snd (PostgresAdapter.transaction obligingPostgres
                 (fun trx => PostgresAdapter.query obligingPostgres
                               "SELECT 1" None trx)
                 (PostgresAdapter.mkAdapter (Some 3) None) [])
          = Fulfilled result ->
          snd (PostgresAdapter.query obligingPostgres "SELECT 1" None
                 (PostgresAdapter.construct (PostgresAdapter.IsClient 7))
                 ([] ++ [PoolConnect 3; ClientQuery 7 "BEGIN" None])%list)
          = Fulfilled result).
Proof.
  apply (proj2 (transaction_closes_and_releases _ obligingPostgres
                  (fun trx => PostgresAdapter.query obligingPostgres
                                "SELECT 1" None trx)
                  3 []) 7).
  reflexivity.
Defined.

(** X19.  When the callback of a transaction is rejected, the transaction
    issues ROLLBACK and is rejected with the callback's own error if the
    ROLLBACK goes through; if the ROLLBACK itself is rejected, the
    transaction is rejected with the error of the ROLLBACK and the original
    error is lost.  The client is released in both cases. *)
Theorem rollback_rethrows_unless_it_fails :
  forall (T : Type) pg
         (callback : PostgresAdapter.Adapter -> list PgCall
                     -> list PgCall * Settled T)
         p trace c,
    answersConnect pg trace p = Fulfilled c ->
    (forall begun after reason rolled,
        answersQuery pg (trace ++ [PoolConnect p])%list
                     (ClientQuery c "BEGIN" None) = Fulfilled begun ->
        callback (PostgresAdapter.construct (PostgresAdapter.IsClient c))
                 (trace ++ [PoolConnect p; ClientQuery c "BEGIN" None])%list
          = (after, Rejected reason) ->
        answersQuery pg after (ClientQuery c "ROLLBACK" None) = Fulfilled rolled ->
        PostgresAdapter.transaction pg callback
          (PostgresAdapter.mkAdapter (Some p) None) trace
        = ((after ++ [ClientQuery c "ROLLBACK" None; ClientRelease c])%list,
           Rejected reason))
    /\
    (forall before reason,
        fst (PostgresAdapter.transaction pg callback
               (PostgresAdapter.mkAdapter (Some p) None) trace)
        = (before ++ [ClientQuery c "ROLLBACK" None; ClientRelease c])%list ->
        answersQuery pg before (ClientQuery c "ROLLBACK" None) = Rejected reason ->
        snd (PostgresAdapter.transaction pg callback
               (PostgresAdapter.mkAdapter (Some p) None) trace)
        = Rejected reason).
Proof.
  intros T pg callback p trace c Hc. split.
  - intros begun after reason rolled. now apply transaction_callback_rejected.
  - intros before reason Hfst Hrb.
    destruct (transaction_ends pg callback p trace c Hc)
      as (before' & Hends & Hmask & _).
    rewrite Hends in Hfst.
    change (before' ++ [?x; ?y])%list with (before' ++ [x] ++ [y])%list in Hfst.
    change (before ++ [?x; ?y])%list with (before ++ [x] ++ [y])%list in Hfst.
    rewrite !app_assoc in Hfst.
    apply app_inj_tail in Hfst. destruct Hfst as [Hfst _].
    apply app_inj_tail in Hfst. destruct Hfst as [-> Hcmd].
    apply Hmask; [congruence | exact Hrb].
Qed.

Lemma rollback_rethrows_unless_it_fails_witness :
  snd (PostgresAdapter.transaction failingPostgres
         (fun _ trace => (trace, @Rejected unit "boom"))
         (PostgresAdapter.mkAdapter (Some 3) None) [])
  = Rejected "rollback failed".
Proof.
  apply (proj2 (rollback_rethrows_unless_it_fails unit failingPostgres
                  (fun _ trace => (trace, Rejected "boom")) 3 [] 7 eq_refl)
           [PoolConnect 3; ClientQuery 7 "BEGIN" None]).
  - reflexivity.
  - reflexivity.
Defined.

Lemma pgNested_with_client {T : Type} pg depth
    (callback : PostgresAdapter.Adapter -> list PgCall -> list PgCall * Settled T)
    a trace c :
  PostgresAdapter.client a = Some c ->
  pgNested pg depth callback a trace = callback a trace.
Proof.
  intro Hc. induction depth as [|d IH]; [reflexivity|].
  cbn [pgNested]. unfold PostgresAdapter.transaction. now rewrite Hc.
Qed.

(** X20.  A transaction started on an adapter that already holds a client
    (the adapter a transaction hands to its callback) runs its callback on
    that same adapter and does nothing else: no BEGIN, no COMMIT, no
    ROLLBACK and no release of its own.  Hence transactions nested to any
    depth inside the callback of a transaction behave exactly as the
    innermost callback run directly in it: only the outermost transaction
    commits or rolls back. *)
Theorem nested_transactions_are_transparent :
  (forall (T : Type) pg depth
          (callback : PostgresAdapter.Adapter -> list PgCall
                      -> list PgCall * Settled T)
          a trace c,
      PostgresAdapter.client a = Some c ->
      pgNested pg depth callback a trace = callback a trace)
  /\
  (forall (T : Type) pg depth
          (callback : PostgresAdapter.Adapter -> list PgCall
                      -> list PgCall * Settled T)
          a trace,
      PostgresAdapter.transaction pg (pgNested pg depth callback) a trace
      = PostgresAdapter.transaction pg callback a trace).
Proof.
  split.
  - intros. eapply pgNested_with_client; eassumption.
  - intros T pg depth callback a trace.
    unfold PostgresAdapter.transaction.
    destruct (PostgresAdapter.client a) as [c|] eqn:Hc.
    + now apply pgNested_with_client with c.
    + destruct (PostgresAdapter.pool a) as [p|]; [|reflexivity].
      destruct (answersConnect pg trace p) as [c|reason]; [|reflexivity].
      destruct (PostgresAdapter.command pg c "BEGIN" _) as [t1 [ok|e]];
        [|reflexivity].
      now rewrite (pgNested_with_client pg depth callback
                     (PostgresAdapter.construct (PostgresAdapter.IsClient c))
                     t1 c eq_refl).
Qed.

Lemma nested_transactions_are_transparent_witness :
  pgNested obligingPostgres 3
    (fun trx => PostgresAdapter.query obligingPostgres "SELECT 1" None trx)
    (PostgresAdapter.construct (PostgresAdapter.IsClient 7)) []
  = PostgresAdapter.query obligingPostgres "SELECT 1" None
      (PostgresAdapter.construct (PostgresAdapter.IsClient 7)) [].
Proof.
  apply (proj1 nested_transactions_are_transparent) with 7. reflexivity.
Defined.

(** * Properties across the revisions of the builder *)

(** ** The positional builder and [src/query/builder.ts] *)

Lemma laterOperator_text o :
  operatorText (laterOperator o) = Positional.operatorText o.
Proof. destruct o; reflexivity. Qed.

Lemma renderCondition_later clause values :
  isIn clause = false ->
  renderCondition (fun c => c) (laterClause clause) values
  = (Positional.column clause ++ " "
       ++ Positional.operatorText (Positional.operator clause) ++ " "
       ++ fst (bindValue (Positional.value clause) values),
     snd (bindValue (Positional.value clause) values)).
Proof.
  destruct clause as [col o val]. unfold isIn, laterClause, renderCondition.
  cbn [Positional.operator Positional.column Positional.value
       operator column value laterOperator].
  destruct o; try discriminate; intros _;
    destruct (bindValue val values); reflexivity.
Qed.

Lemma renderClauses_later_revision clauses : forall index values,
  Forall (fun clause => isIn clause = false) clauses ->
  renderClauses (fun c => c) (S index) (map laterClause clauses) values
  = (map (fun text => "AND " ++ text)
         (fst (Positional.renderClauses clauses values)),
     snd (Positional.renderClauses clauses values)).
Proof.
  induction clauses as [|clause rest IH]; intros index values Hin;
    cbn [map renderClauses Positional.renderClauses]; [reflexivity|].
  inversion Hin as [|? ? Hc Hrest]; subst.
  rewrite (renderCondition_later clause values Hc).
  destruct (bindValue (Positional.value clause) values) as [p values1].
  cbn [fst snd]. rewrite (IH (S index) values1 Hrest).
  destruct (Positional.renderClauses rest values1) as [texts values2].
  cbn [fst snd map Nat.eqb connectiveText laterClause wtype]. reflexivity.
Qed.

Lemma join_and first parts :
  join " AND " (first :: parts)
  = join " " (first :: map (fun text => "AND " ++ text) parts).
Proof.
  unfold join. revert first.
  induction parts as [|part rest IH]; intro first; [reflexivity|].
  change (String.concat " AND " (first :: part :: rest))
    with (first ++ " AND " ++ String.concat " AND " (part :: rest)).
  cbn [map].
  change (String.concat " " (first :: ?x :: ?xs))
    with (first ++ " " ++ String.concat " " (x :: xs)).
  rewrite IH. f_equal. cbn [map].
  destruct rest as [|part' rest']; cbn [map String.concat append];
    now rewrite ?sappend_assoc.
Qed.

Lemma buildWhere_later_revision sql wh values :
  Forall (fun clause => isIn clause = false) wh ->
  (sql ++ fst (buildWhere (fun c => c) (map laterClause wh) values),
   snd (buildWhere (fun c => c) (map laterClause wh) values))
  = Positional.renderWhere sql wh values.
Proof.
  intro Hin. unfold buildWhere, Positional.renderWhere.
  destruct wh as [|clause rest]; [cbn [map fst snd]; now rewrite sappend_nil_r|].
  cbn [map renderClauses Positional.renderClauses].
  inversion Hin as [|? ? Hc Hrest]; subst.
  rewrite (renderCondition_later clause values Hc).
  destruct (bindValue (Positional.value clause) values) as [p values1].
  cbn [fst snd]. rewrite (renderClauses_later_revision rest 0 values1 Hrest).
  destruct (Positional.renderClauses rest values1) as [texts values2].
  cbn [fst snd Nat.eqb]. now rewrite join_and.
Qed.

(** X21.  A statement of the positional builder that has no IN filter is
    built to the same outcome by [src/query/builder.ts] once each filter
    [(column, operator, value)] is held as an AND clause of the same
    column, operator and value: the same text, the same parameters, the
    same error. *)
Theorem positional_statements_carry_over (b : Positional.QueryBuilder) :
  Forall (fun clause => isIn clause = false) (Positional._where b) ->
  Filtering.toSQL (laterBuilder b) = Positional.toSQL b.
Proof.
  destruct b as [table o data sel wh lim off ret]. intro Hin.
  cbn [Positional._where] in Hin.
  unfold Filtering.toSQL, Positional.toSQL, laterBuilder, Filtering.paginate.
  cbn [Filtering._table Filtering._operation Filtering._data
       Filtering._select Filtering._where Filtering._limit
       Filtering._offset Filtering._returning
       Positional._table Positional._operation Positional._data
       Positional._select Positional._where Positional._limit
       Positional._offset Positional._returning].
  destruct o.
  - rewrite <- (buildWhere_later_revision _ wh [] Hin).
    destruct (buildWhere (fun c => c) (map laterClause wh) []) as [w values].
    cbn [fst snd]. reflexivity.
  - reflexivity.
  - destruct data as [|row|rows]; try reflexivity;
      (destruct (keysOf (dataProps _)) as [|key keys]; [reflexivity|];
       destruct (renderSet (fun c => c) _ (key :: keys) [])
         as [setClauses values1];
       rewrite <- (buildWhere_later_revision _ wh values1 Hin);
       destruct (buildWhere (fun c => c) (map laterClause wh) values1)
         as [w values]; cbn [fst snd]; reflexivity).
  - rewrite <- (buildWhere_later_revision _ wh [] Hin).
    destruct (buildWhere (fun c => c) (map laterClause wh) []) as [w values].
    cbn [fst snd]. reflexivity.
Qed.

Lemma positional_statements_carry_over_witness :
  Filtering.toSQL
    (laterBuilder
       (Positional.where_ "age" Positional.PGt (VNum 18)
          (Positional.where_ "id" Positional.PEq (VNum 1)
             (Positional.create "users"))))
  = Positional.toSQL
      (Positional.where_ "age" Positional.PGt (VNum 18)
         (Positional.where_ "id" Positional.PEq (VNum 1)
            (Positional.create "users"))).
Proof.
  apply (positional_statements_carry_over
           (Positional.where_ "age" Positional.PGt (VNum 18)
              (Positional.where_ "id" Positional.PEq (VNum 1)
                 (Positional.create "users")))).
  repeat constructor.
Defined.

(** ** The parameters of the positional builder *)

Lemma positional_renderClauses_values clauses : forall values,
  snd (Positional.renderClauses clauses values)
  = (values ++ map Positional.value clauses)%list.
Proof.
  induction clauses as [|clause rest IH]; intro values;
    cbn [Positional.renderClauses map].
  - now rewrite app_nil_r.
  - rewrite bindValue_eq. specialize (IH (values ++ [Positional.value clause])%list).
    destruct (Positional.renderClauses rest _) as [texts values2].
    cbn [snd] in *. now rewrite IH, <- app_assoc.
Qed.

Lemma positional_renderWhere_values sql wh values :
  snd (Positional.renderWhere sql wh values)
  = (values ++ map Positional.value wh)%list.
Proof.
  unfold Positional.renderWhere. destruct wh as [|clause rest].
  - cbn [snd map]. now rewrite app_nil_r.
  - pose proof (positional_renderClauses_values (clause :: rest) values) as H.
    destruct (Positional.renderClauses (clause :: rest) values) as [ts v].
    exact H.
Qed.

(** X22.  Whatever the positional builder returns, its parameter list is:
    for SELECT and DELETE the filter values, one per filter in the order of
    the [where] calls; for UPDATE the values of the data under its own keys
    followed by the filter values; for INSERT the cells of the records under
    the first record's keys.  A filter binds its value as one parameter
    whatever its operator, an array under IN included. *)
Theorem positional_parameter_list (b : Positional.QueryBuilder)
    (sql : string) (values : list JsValue) :
  Positional.toSQL b = Returned sql values ->
  values = positionalValues (Positional._operation b) (Positional._data b)
                            (Positional._where b).
Proof.
  destruct b as [table o data sel wh lim off ret].
  unfold Positional.toSQL, positionalValues.
  cbn [Positional._table Positional._operation Positional._data
       Positional._select Positional._where Positional._limit
       Positional._offset Positional._returning].
  destruct o.
  - pose proof (positional_renderWhere_values
                  ("SELECT " ++ match sel with [] => "*" | _ => join ", " sel end
                     ++ " FROM " ++ table) wh []) as Hv.
    destruct (Positional.renderWhere _ wh []) as [s v]. cbn [snd app] in Hv.
    intro H. injection H as _ Hval. congruence.
  - destruct data as [|row|rows]; try discriminate;
      (destruct (asArray _) as [|firstRow others] eqn:Harr; [discriminate|];
       destruct (keysOf firstRow) as [|key keys] eqn:Hkeys; [discriminate|];
       rewrite bindRows_eq; cbn [app]; intro H; injection H as _ Hval;
       now rewrite <- Hval).
  - destruct data as [|row|rows]; try discriminate;
      (destruct (keysOf (dataProps _)) as [|key keys] eqn:Hkeys;
         [discriminate|];
       rewrite renderSet_eq; cbn [app];
       match goal with
       | |- context [Positional.renderWhere ?s wh ?v] =>
           pose proof (positional_renderWhere_values s wh v) as Hv;
           destruct (Positional.renderWhere s wh v) as [s' v']
       end;
       cbn [snd] in Hv; intro H; injection H as _ Hval; congruence).
  - pose proof (positional_renderWhere_values ("DELETE FROM " ++ table) wh [])
      as Hv.
    destruct (Positional.renderWhere _ wh []) as [s v]. cbn [snd app] in Hv.
    intro H. injection H as _ Hval. congruence.
Qed.

Lemma positional_parameter_list_witness :
  Positional.toSQL
    (Positional.where_ "tags" Positional.PIn (VArr [VStr "a"; VStr "b"])
       (Positional.where_ "id" Positional.PEq (VNum 1)
          (Positional.create "t")))
  = Returned "SELECT * FROM t WHERE id = $1 AND tags IN $2"
             [VNum 1; VArr [VStr "a"; VStr "b"]]
  /\ [VNum 1; VArr [VStr "a"; VStr "b"]]
     = positionalValues SELECT DNull
         [Positional.mkClause "id" Positional.PEq (VNum 1);
          Positional.mkClause "tags" Positional.PIn
                              (VArr [VStr "a"; VStr "b"])].
Proof.
  split; [reflexivity|].
  apply (positional_parameter_list
           (Positional.where_ "tags" Positional.PIn (VArr [VStr "a"; VStr "b"])
              (Positional.where_ "id" Positional.PEq (VNum 1)
                 (Positional.create "t")))
           "SELECT * FROM t WHERE id = $1 AND tags IN $2").
  reflexivity.
Defined.

(** ** The join-aware builder and [src/query/builder.ts] *)

Lemma renderCondition_quoteColumn clause values :
  renderCondition (fun c => c) (quoteColumn clause) values
  = renderCondition Joined._quote clause values.
Proof. destruct clause; reflexivity. Qed.

Lemma renderClauses_quoteColumn clauses : forall index values,
  renderClauses (fun c => c) index (map quoteColumn clauses) values
  = renderClauses Joined._quote index clauses values.
Proof.
  induction clauses as [|clause rest IH]; intros index values;
    cbn [map renderClauses]; [reflexivity|].
  rewrite renderCondition_quoteColumn.
  destruct (renderCondition Joined._quote clause values) as [condition values1].
  rewrite IH. destruct clause; reflexivity.
Qed.

Lemma buildWhere_quoteColumn wh values :
  buildWhere (fun c => c) (map quoteColumn wh) values
  = buildWhere Joined._quote wh values.
Proof.
  unfold buildWhere. destruct wh as [|clause rest]; [reflexivity|].
  change (map quoteColumn (clause :: rest))
    with (quoteColumn clause :: map quoteColumn rest) at 1.
  cbv iota. now rewrite (renderClauses_quoteColumn (clause :: rest)).
Qed.

(** X23.  Quoting is all the join-aware builder adds to a statement without
    joins that reads or deletes: a SELECT without joins, and a DELETE
    without joins and without projection, is built to the outcome
    [src/query/builder.ts] builds from the same statement with [_quote]
    already applied to the table, to each projected column and to each
    filter column. *)
Theorem unjoined_statement_is_quoted_filtering (b : Joined.QueryBuilder) :
  Joined._joins b = [] ->
  Joined._operation b = SELECT
  \/ (Joined._operation b = DELETE /\ Joined._select b = []) ->
  Joined.toSQL b = Filtering.toSQL (quotedFiltering b).
Proof.
  destruct b as [table o data sel wh joins lim off ret].
  cbn [Joined._joins Joined._operation Joined._select].
  intros -> Hop.
  unfold Joined.toSQL, Filtering.toSQL, quotedFiltering,
    Joined.paginate, Filtering.paginate, Joined.buildJoins.
  cbn [Joined._table Joined._operation Joined._data Joined._select
       Joined._where Joined._joins Joined._limit Joined._offset
       Joined._returning
       Filtering._table Filtering._operation Filtering._data
       Filtering._select Filtering._where Filtering._limit
       Filtering._offset Filtering._returning].
  rewrite !buildWhere_quoteColumn.
  destruct Hop as [-> | [-> ->]].
  - rewrite sappend_nil_r.
    destruct (buildWhere Joined._quote wh []) as [w values].
    destruct sel; reflexivity.
  - reflexivity.
Qed.

Lemma unjoined_statement_is_quoted_filtering_witness :
  Joined.toSQL
    (Joined.where_ [("users.id", VNum 1)]
       (Joined.select ["users.name"; "count(*)"] (Joined.create "users")))
  = Filtering.toSQL
      (quotedFiltering
         (Joined.where_ [("users.id", VNum 1)]
            (Joined.select ["users.name"; "count(*)"]
               (Joined.create "users")))).
Proof.
  apply (unjoined_statement_is_quoted_filtering
           (Joined.where_ [("users.id", VNum 1)]
              (Joined.select ["users.name"; "count(*)"]
                 (Joined.create "users")))).
  - reflexivity.
  - left. reflexivity.
Defined.
